(** * music_bot: a shallow embedding of [bot-yt.py] and [FastAPI.py]

    The development follows the two source files of the repository:
    - [Py]: what the code relies on of Python's [str], [re], [os.path],
      [list] and [int.to_bytes];
    - [Bot]: the Telegram bot of [bot-yt.py] (sanitizer, search handler,
      download button handler, audio delivery);
    - [MelodyAPI]: the mock generation service of [FastAPI.py]. *)

From Stdlib Require Import ZArith NArith String Ascii Lia DecimalString.
From Stdlib Require Import Strings.Byte DecimalPos DecimalZ.
From stdpp Require Import base option list gmap.

Local Open Scope N_scope.

(** ** Python values used by the code *)

Module Py.

(** *** Values and exceptions *)

(** A Python [str] is a sequence of Unicode code points. *)
Definition str : Type := list N.

(** The exceptions that occur in the two programs. [except Exception]
    catches every one of them. *)
Inductive exn : Type :=
| KeyError
| IndexError
| AttributeError
| TypeError
| OverflowError
| OSError
| FileExistsError
| FileNotFoundError
| PermissionError
| TelegramError
| DownloadError
| HTTPException (status_code : Z) (detail : str).

(** A call either returns a value or raises. *)
Inductive result (A : Type) : Type :=
| Ok (a : A)
| Raise (e : exn).
Arguments Ok {A} a.
Arguments Raise {A} e.

Definition result_bind {A B} (r : result A) (f : A -> result B) : result B :=
  match r with
  | Ok a => f a
  | Raise e => Raise e
  end.

Declare Scope result_scope.
Delimit Scope result_scope with result.
Notation "x <- r ;; k" := (result_bind r (fun x => k))
  (at level 100, r at next level, right associativity) : result_scope.

(** [d.get(key, default)] read off a field that is [None] when the dict
    has no such key, [Some None] when the key holds [None], and
    [Some (Some a)] when it holds the value [a]: the result is [None] or a
    value. *)
Definition get_default {A} (field : option (option A)) (default : A)
  : option A :=
  match field with
  | None => Some default
  | Some v => v
  end.

(** *** str *)

(** An ASCII literal of the source as a [str]. *)
Definition lit (s : string) : str :=
  map N_of_ascii (list_ascii_of_string s).

(** Truthiness of a [str]. *)
Definition truthy (s : str) : bool :=
  match s with [] => false | _ => true end.

(** [f"{v}"] for a value that is a [str] or [None]. *)
Definition format_value (v : option str) : str :=
  match v with
  | Some s => s
  | None => lit "None"
  end.

(** [a == b] on [str]. *)
Definition str_eqb (a b : str) : bool := bool_decide (a = b).

(** [s[:n]] for a literal [n >= 0]. *)
Definition slice_to (n : nat) (s : str) : str := take n s.

(** [str.isspace] on one code point, which is also what [\s] matches in a
    [str] pattern and what [str.strip()] removes: the ASCII controls
    [\t \n \v \f \r], [\x1c]-[\x1f], the space, and the Unicode separators. *)
Definition isspace (c : N) : bool :=
  ((9 <=? c) && (c <=? 13)) || ((28 <=? c) && (c <=? 32))
  || (c =? 0x85) || (c =? 0xA0) || (c =? 0x1680)
  || ((0x2000 <=? c) && (c <=? 0x200A))
  || (c =? 0x2028) || (c =? 0x2029) || (c =? 0x202F) || (c =? 0x205F)
  || (c =? 0x3000).

Definition SPACE : N := 32.

(** [s.lstrip()], [s.rstrip()], [s.strip()] with no argument. *)
Fixpoint lstrip (s : str) : str :=
  match s with
  | [] => []
  | c :: s' => if isspace c then lstrip s' else s
  end.

Definition rstrip (s : str) : str := reverse (lstrip (reverse s)).

Definition strip (s : str) : str := rstrip (lstrip s).

(** [re.sub(r'\s+', ' ', s)]: every maximal run of whitespace becomes one
    space. [in_run] tells that the previous character was whitespace. *)
Fixpoint sub_ws_from (in_run : bool) (s : str) : str :=
  match s with
  | [] => []
  | c :: s' =>
      if isspace c
      then (if in_run then sub_ws_from true s' else SPACE :: sub_ws_from true s')
      else c :: sub_ws_from false s'
  end.

Definition sub_ws (s : str) : str := sub_ws_from false s.

(** [re.sub('[...]', '', s)] for a character class given as a predicate. *)
Definition sub_class_empty (cls : N -> bool) (s : str) : str :=
  List.filter (fun c => negb (cls c)) s.

(** Whether every whitespace character of [s] is a space that stands
    alone: no other whitespace character follows it. *)
Fixpoint single_spaced (s : str) : bool :=
  match s with
  | [] => true
  | c :: s' =>
      (if isspace c
       then (c =? SPACE)
            && match s' with c' :: _ => negb (isspace c') | [] => true end
       else true)
      && single_spaced s'
  end.

(** [s.split()]: the maximal runs of non-whitespace. [cur] is the word
    being read. *)
Fixpoint split_from (cur : str) (s : str) : list str :=
  match s with
  | [] => if truthy cur then [cur] else []
  | c :: s' =>
      if isspace c
      then (if truthy cur then cur :: split_from [] s' else split_from [] s')
      else split_from (cur ++ [c]) s'
  end.

Definition split (s : str) : list str := split_from [] s.

(** [sep.join(words)]. *)
Fixpoint join (sep : str) (words : list str) : str :=
  match words with
  | [] => []
  | [w] => w
  | w :: rest => w ++ sep ++ join sep rest
  end.

(** [str(n)] and [f"{n:02d}"] for an [int]. *)
Definition str_of_int (n : Z) : str :=
  lit (NilZero.string_of_int (Z.to_int n)).

Definition fmt_02d (n : Z) : str :=
  if ((0 <=? n) && (n <? 10))%Z then lit "0" ++ str_of_int n else str_of_int n.

(** *** list *)

(** [l[i]] on a Python list: negative indices count from the end, anything
    else out of range raises [IndexError]. *)
Definition list_index {A} (l : list A) (i : Z) : result A :=
  let n := Z.of_nat (length l) in
  let j := if (i <? 0)%Z then (n + i)%Z else i in
  if ((0 <=? j) && (j <? n))%Z
  then match l !! Z.to_nat j with Some a => Ok a | None => Raise IndexError end
  else Raise IndexError.

(** *** os.path (posixpath) *)

Definition SLASH : N := 47.

Definition startswith_sep (p : str) : bool :=
  match head p with Some c => c =? SLASH | None => false end.

Definition endswith_sep (p : str) : bool :=
  match last p with Some c => c =? SLASH | None => false end.

(** [os.path.join(a, b)]. *)
Definition path_join (a b : str) : str :=
  if startswith_sep b then b
  else if negb (truthy a) || endswith_sep a then a ++ b
  else a ++ SLASH :: b.

Fixpoint drop_while {A} (f : A -> bool) (l : list A) : list A :=
  match l with
  | [] => []
  | x :: l' => if f x then drop_while f l' else l
  end.

(** [os.path.dirname(p)]: everything up to the last slash, without the
    trailing slashes unless there is nothing else. *)
Definition dirname (p : str) : str :=
  let head := reverse (drop_while (fun c => negb (c =? SLASH)) (reverse p)) in
  if forallb (fun c => c =? SLASH) head then head
  else reverse (drop_while (fun c => c =? SLASH) (reverse head)).

(** *** int and bytes *)

(** [v.to_bytes(n, 'little')] raises [OverflowError] unless
    [0 <= v < 256^n]; [int.from_bytes(bs, 'little')] reads it back. *)
Definition byte_of_Z (z : Z) : byte :=
  default Byte.x00 (Byte.of_N (Z.to_N z)).

Fixpoint le_bytes (n : nat) (v : Z) : list byte :=
  match n with
  | O => []
  | S n' => byte_of_Z (v mod 256) :: le_bytes n' (v / 256)
  end.

Definition to_bytes (v : Z) (n : nat) : result (list byte) :=
  if ((0 <=? v) && (v <? 256 ^ Z.of_nat n))%Z
  then Ok (le_bytes n v)
  else Raise OverflowError.

Definition from_bytes (bs : list byte) : Z :=
  foldr (fun b acc => (Z.of_N (Byte.to_N b) + 256 * acc)%Z) 0%Z bs.

(** A [bytes] literal. *)
Definition blit (s : string) : list byte := list_byte_of_string s.

End Py.

(** ** bot-yt.py *)

Module Bot.

Import Py.

(** The character class of the first substitution in [safe_title_filename]:
    backslash, slash, colon, star, question mark, double quote, less-than,
    greater-than and vertical bar, by code point. *)
Definition unsafe_char (c : N) : bool :=
  (c =? 92) || (c =? 47) || (c =? 58) || (c =? 42) || (c =? 63)
  || (c =? 34) || (c =? 60) || (c =? 62) || (c =? 124).

(** A character that neither substitution touches: every letter, digit
    or mark of any script is one. *)
Definition kept_char (c : N) : bool := negb (unsafe_char c) && negb (isspace c).

(** The two blocks named in [clean_filename]: Khmer and the CJK unified
    ideographs. *)
Definition is_khmer (c : N) : bool := (0x1780 <=? c) && (c <=? 0x17FF).

Definition is_cjk (c : N) : bool := (0x4E00 <=? c) && (c <=? 0x9FFF).

(** The title after the two substitutions and the [strip()], before the
    truncation and the fallback. *)
Definition cleaned_title (title : str) : str :=
  let title := sub_class_empty unsafe_char title in
  strip (sub_ws title).

Definition safe_title_filename (title : str) : str :=
  let title := cleaned_title title in
  if truthy title then slice_to 80 title else lit "audio".


(** [format_duration]: [seconds] is [None] when the entry has no duration.
    [timedelta(seconds=...)] normalises to days and seconds-of-day and
    refuses more than 999999999 days; [td.seconds] drops the days. *)
Definition format_duration (seconds : option Z) : result str :=
  match seconds with
  | None => Ok []
  | Some s =>
      if (s =? 0)%Z then Ok []
      else if (999999999 <? Z.abs (s / 86400))%Z then Raise OverflowError
      else
        let td_seconds := (s mod 86400)%Z in
        let hours := (td_seconds / 3600)%Z in
        let remainder := (td_seconds mod 3600)%Z in
        let minutes := (remainder / 60)%Z in
        let seconds := (remainder mod 60)%Z in
        Ok (if (hours =? 0)%Z
            then str_of_int minutes ++ lit ":" ++ fmt_02d seconds
            else str_of_int hours ++ lit ":" ++ fmt_02d minutes
                 ++ lit ":" ++ fmt_02d seconds)
  end.

(** *** Data *)

(** One entry of [search_info['entries']], as far as the handler reads it.
    [e_id] and [e_duration] are [None] when the key is absent or holds
    [None] (the code treats both alike). The three keys read with a
    default are [None] when the key is absent, [Some None] when the key is
    there and holds [None], as the index has it for a video of which it
    does not know the title, and [Some (Some a)] when it holds [a]. *)
Record entry : Type := {
  e_id : option str;
  e_title : option (option str);
  e_uploader : option (option str);
  e_duration : option Z;
  e_age_limit : option (option Z)
}.

(** What [extract_info] returns: [None], or a dict whose ['entries'] is a
    list (of entries, some of them [None]) or is missing. *)
Record search_info : Type := {
  entries : option (list (option entry))
}.

(** The dict appended to [context.user_data['search_results']]; title
    and channel are [None] when the entry held [None] for them. *)
Record video : Type := {
  v_id : str;
  v_title : option str;
  v_channel : option str;
  v_duration : str;
  v_url : str
}.

(** One row of the inline keyboard: the parts of the label and the index
    carried by [callback_data = f"dl_{valid_count - 1}"]. *)
Record button : Type := {
  b_number : Z;
  b_title : str;
  b_duration : str;
  b_callback : Z
}.

(** The texts the bot sends, by their role. *)
Inductive notice : Type :=
| MinLength
| Searching (query : str)
| NoResults
| AllRestricted
| SearchResults (shown : list video) (found : Z)
| SearchError
| Downloading (title : str)
| DownloadFailed
| SendFailed.

Definition DOWNLOAD_DIR : str := lit "downloads".

Definition user : Type := Z.
Definition message_id : Type := nat.

(** A file produced by [ydl.download]: where it came from and which
    download call wrote it. *)
Record artifact : Type := {
  a_url : str;
  a_serial : nat
}.

(** *** Effects

    The handlers are written once, as programs over the calls they make;
    [perform] gives each call its meaning on a [world]. *)
Inductive eff : Type -> Type :=
(* Bot API requests, all awaited *)
| Answer : eff unit
| ReplyText (t : notice) : eff message_id
| EditText (m : message_id) (t : notice) (kb : list button) : eff unit
| Delete (m : message_id) : eff unit
| ReplyAudio (audio : str * artifact) (title : str) (performer : option str) : eff unit
(* yt-dlp, blocking *)
| ExtractInfo (query : str) : eff (option search_info)
| Download (url : str) : eff unit
(* os and open *)
| PathExists (p : str) : eff bool
| IsFile (p : str) : eff bool
| Rename (src dst : str) : eff unit
| Open (p : str) : eff (str * artifact)
(* context.user_data['search_results'] *)
| GetResults : eff (list video)
| SetResults (l : list video) : eff unit
| AppendResult (v : video) : eff unit.

Definition is_await {X} (c : eff X) : bool :=
  match c with
  | Answer | ReplyText _ | EditText _ _ _ | Delete _ | ReplyAudio _ _ _ => true
  | _ => false
  end.

Inductive prog (A : Type) : Type :=
| Ret (a : A)
| Throw (e : exn)
| Vis {X : Type} (c : eff X) (k : result X -> prog A).
Arguments Ret {A} a.
Arguments Throw {A} e.
Arguments Vis {A X} c k.

Fixpoint bind {A B} (p : prog A) (f : A -> prog B) : prog B :=
  match p with
  | Ret a => f a
  | Throw e => Throw e
  | Vis c k => Vis c (fun r => bind (k r) f)
  end.

(** [try: p except Exception as e: h e]. *)
Fixpoint try_except {A} (p : prog A) (h : exn -> prog A) : prog A :=
  match p with
  | Ret a => Ret a
  | Throw e => h e
  | Vis c k => Vis c (fun r => try_except (k r) h)
  end.

Definition call {X} (c : eff X) : prog X :=
  Vis c (fun r => match r with Ok x => Ret x | Raise e => Throw e end).

Definition lift {A} (r : result A) : prog A :=
  match r with Ok a => Ret a | Raise e => Throw e end.

Declare Scope prog_scope.
Delimit Scope prog_scope with prog.
Notation "x <- p ;; q" := (bind p (fun x => q))
  (at level 100, p at next level, right associativity) : prog_scope.
Notation "p ;; q" := (bind p (fun _ => q))
  (at level 100, right associativity) : prog_scope.
Local Open Scope prog_scope.

(** *** The handlers *)

(** The [performer] handed to [reply_audio]:
    [artist[:64] if artist else None]. *)
Definition performer_of (artist : option str) : option str :=
  match artist with
  | Some artist => if truthy artist then Some (slice_to 64 artist) else None
  | None => None
  end.

(** [send_audio(target_message, file_path, title, artist)]. A title that
    is [None] makes [re.sub] raise [TypeError]. Both [except] clauses
    around [os.rename] fall back to [file_path]. *)
Definition send_audio (file_path : str) (title artist : option str)
  : prog unit :=
  try_except
    (is_file <- call (IsFile file_path);;
     if negb is_file then Ret tt
     else
       clean_title <- match title with
                      | Some title => Ret (safe_title_filename title)
                      | None => Throw TypeError
                      end;;
       let final_path :=
         path_join (dirname file_path) (clean_title ++ lit ".mp3") in
       final_path <-
         (if negb (str_eqb file_path final_path)
          then try_except
                 (call (Rename file_path final_path);; Ret final_path)
                 (fun e => match e with
                           | FileExistsError => Ret file_path
                           | _ => Ret file_path
                           end)
          else Ret final_path);;
       audio_file <- call (Open final_path);;
       call (ReplyAudio audio_file (slice_to 64 clean_title)
               (performer_of artist)))
    (fun e => call (ReplyText SendFailed);; Ret tt).

(** [button_callback]; [index] is [int(query.data.split("_")[1])], the
    number behind the [dl_] of the callback data. *)
Definition button_callback (index : Z) : prog unit :=
  call Answer;;
  search_results <- call GetResults;;
  video <- lift (list_index search_results index);;
  let video_id := v_id video in
  let title := v_title video in
  let channel := v_channel video in
  let url := v_url video in
  let mp3_path := path_join DOWNLOAD_DIR (video_id ++ lit ".mp3") in
  already <- call (PathExists mp3_path);;
  if already then send_audio mp3_path title channel
  else
    msg <- call (ReplyText (Downloading (format_value title)));;
    try_except
      (call (Download url);;
       send_audio mp3_path title channel;;
       call (Delete msg))
      (fun e => call (EditText msg DownloadFailed [])).

(** The state of the [for entry in entries] loop: the text (as the list of
    the videos it names), the keyboard and the counter. The list of
    results itself lives in [context.user_data]. *)
Record loop_state : Type := {
  text : list video;
  buttons : list button;
  valid_count : Z
}.

Definition ELLIPSIS : N := 0x2026.

Definition button_for (valid_count : Z) (title duration : str) : button :=
  {| b_number := valid_count;
     b_title := slice_to 35 title
                ++ (if (35 <? length title)%nat then [ELLIPSIS] else []);
     b_duration := duration;
     b_callback := (valid_count - 1)%Z |}.

Definition url_of (video_id : str) : str := lit "https://youtu.be/" ++ video_id.

(** The body of [for entry in entries]. An age limit that is [None]
    cannot be compared with 18, and a title that is [None] cannot be
    sliced: both raise [TypeError], the second after the result was
    appended to the stored list and counted. *)
Fixpoint results_loop (es : list (option entry)) (st : loop_state)
  : prog loop_state :=
  match es with
  | [] => Ret st
  | None :: rest => results_loop rest st
  | Some e :: rest =>
      match get_default (e_age_limit e) 0%Z with
      | None => Throw TypeError
      | Some age_limit =>
        if (18 <=? age_limit)%Z then results_loop rest st
        else
          let title := get_default (e_title e) (lit "Unknown") in
          let channel := get_default (e_uploader e) (lit "Unknown") in
          duration <- lift (format_duration (e_duration e));;
          match e_id e with
          | None => results_loop rest st
          | Some video_id =>
              if negb (truthy video_id) then results_loop rest st
              else
                let v := {| v_id := video_id; v_title := title;
                            v_channel := channel; v_duration := duration;
                            v_url := url_of video_id |} in
                call (AppendResult v);;
                let valid_count := (valid_count st + 1)%Z in
                match title with
                | None => Throw TypeError
                | Some title =>
                    let st' :=
                      {| text := text st ++ [v];
                         buttons := buttons st
                                    ++ [button_for valid_count title duration];
                         valid_count := valid_count |} in
                    if (10 <=? valid_count)%Z then Ret st'
                    else results_loop rest st'
                end
          end
      end
  end.

(** The hint appended to a query that has a CJK ideograph: a space and
    the word for song. *)
Definition CJK_HINT : str := [32; 0x6B4C; 0x66F2].

(** [search_and_show_results]; [message_text] is [update.message.text], or
    [None] when the update has no message or the message no text. The
    query handed to [ExtractInfo] is the one that the code then quotes and
    prefixes with [ytsearch15:]. *)
Definition search_and_show_results (message_text : option str) : prog unit :=
  match message_text with
  | None => Ret tt
  | Some message_text =>
      if negb (truthy message_text) then Ret tt
      else
        let query := strip message_text in
        if (length query <? 2)%nat then call (ReplyText MinLength);; Ret tt
        else
          searching_msg <- call (ReplyText (Searching query));;
          try_except
            (let search_query :=
               if existsb is_cjk query then query ++ CJK_HINT else query in
             search_info <- call (ExtractInfo search_query);;
             info <- match search_info with
                     | None => Throw AttributeError
                     | Some info => Ret info
                     end;;
             let entries := default [] (entries info) in
             match entries with
             | [] => call (EditText searching_msg NoResults [])
             | _ =>
                 call (SetResults []);;
                 st <- results_loop entries
                         {| text := []; buttons := []; valid_count := 0 |};;
                 if (valid_count st =? 0)%Z
                 then call (EditText searching_msg AllRestricted [])
                 else call (EditText searching_msg
                              (SearchResults (text st) (valid_count st))
                              (buttons st))
             end)
            (fun e => call (EditText searching_msg SearchError []))
  end.

(** *** The world the handlers run in *)

(** What [ydl.download] may do: write [<id>.mp3], return without having
    written it ([ignoreerrors] is set), or raise. *)
Inductive download_outcome : Type :=
| Downloaded
| NothingWritten
| DownloadRaises.

(** The outside, which the program does not control: for the n-th call of
    each kind, what it does.
    - [api_fault n]: the n-th Bot API request raises;
    - [search_reply n]: what the n-th [extract_info] returns or raises;
    - [download_result n]: what the n-th [ydl.download] does;
    - [fs_fault n]: what the n-th [os.rename] or [open] raises, if
      anything (a [FileExistsError] where [os.rename] does not replace an
      existing file, a permission error). *)
Record env : Type := {
  api_fault : nat -> bool;
  search_reply : nat -> result (option search_info);
  download_result : nat -> download_outcome;
  fs_fault : nat -> option exn
}.

(** What happened, as seen from outside the program: what reached a user,
    which request failed, and which calls went to yt-dlp. *)
Inductive event : Type :=
| Answered (u : user)
| TextSent (u : user) (m : message_id) (t : notice)
| TextEdited (u : user) (m : message_id) (t : notice) (kb : list button)
| Deleted (u : user) (m : message_id)
| AudioSent (u : user) (path : str) (a : artifact) (title : str)
    (performer : option str)
| RequestFailed (u : user)
| Searched (u : user) (query : str)
| DownloadCalled (u : user) (url : str).

(** The state: the files of the download directory by path, the
    [search_results] of each user's [context.user_data] (no key, no entry),
    the events so far (oldest first), the id of the next message, and how
    many calls of each kind were made. *)
Record world : Type := {
  files : gmap str artifact;
  user_data : gmap user (list video);
  trace : list event;
  next_message : message_id;
  n_api : nat;
  n_search : nat;
  n_download : nat;
  n_fs : nat
}.

Definition set_files (f : gmap str artifact) (w : world) : world :=
  {| files := f; user_data := user_data w; trace := trace w;
     next_message := next_message w; n_api := n_api w;
     n_search := n_search w; n_download := n_download w; n_fs := n_fs w |}.

Definition set_user_data (d : gmap user (list video)) (w : world) : world :=
  {| files := files w; user_data := d; trace := trace w;
     next_message := next_message w; n_api := n_api w;
     n_search := n_search w; n_download := n_download w; n_fs := n_fs w |}.

Definition log (ev : event) (w : world) : world :=
  {| files := files w; user_data := user_data w; trace := trace w ++ [ev];
     next_message := next_message w; n_api := n_api w;
     n_search := n_search w; n_download := n_download w; n_fs := n_fs w |}.

Definition tick_api (w : world) : world :=
  {| files := files w; user_data := user_data w; trace := trace w;
     next_message := next_message w; n_api := S (n_api w);
     n_search := n_search w; n_download := n_download w; n_fs := n_fs w |}.

Definition tick_search (w : world) : world :=
  {| files := files w; user_data := user_data w; trace := trace w;
     next_message := next_message w; n_api := n_api w;
     n_search := S (n_search w); n_download := n_download w; n_fs := n_fs w |}.

Definition tick_download (w : world) : world :=
  {| files := files w; user_data := user_data w; trace := trace w;
     next_message := next_message w; n_api := n_api w;
     n_search := n_search w; n_download := S (n_download w); n_fs := n_fs w |}.

Definition tick_fs (w : world) : world :=
  {| files := files w; user_data := user_data w; trace := trace w;
     next_message := next_message w; n_api := n_api w;
     n_search := n_search w; n_download := n_download w; n_fs := S (n_fs w) |}.

Definition fresh_message (w : world) : world :=
  {| files := files w; user_data := user_data w; trace := trace w;
     next_message := S (next_message w); n_api := n_api w;
     n_search := n_search w; n_download := n_download w; n_fs := n_fs w |}.

(** A Bot API request: it fails when the environment says so, and
    otherwise the event reaches the user. *)
Definition request {X} (E : env) (u : user) (x : X) (ev : event) (w : world)
  : result X * world :=
  if api_fault E (n_api w)
  then (Raise TelegramError, log (RequestFailed u) (tick_api w))
  else (Ok x, log ev (tick_api w)).

(** The id that yt-dlp puts into [outtmpl] for a [https://youtu.be/<id>]
    url, and the file the postprocessor leaves. *)
Definition downloaded_path (url : str) : str :=
  path_join DOWNLOAD_DIR (drop 17 url ++ lit ".mp3").

Definition perform (E : env) (u : user) {X} (c : eff X) (w : world)
  : result X * world :=
  match c in eff X return result X * world with
  | Answer => request E u tt (Answered u) w
  | ReplyText t =>
      request E u (next_message w) (TextSent u (next_message w) t)
        (fresh_message w)
  | EditText m t kb => request E u tt (TextEdited u m t kb) w
  | Delete m => request E u tt (Deleted u m) w
  | ReplyAudio (path, a) title performer =>
      request E u tt (AudioSent u path a title performer) w
  | ExtractInfo query =>
      (search_reply E (n_search w), log (Searched u query) (tick_search w))
  | Download url =>
      let w' := log (DownloadCalled u url) (tick_download w) in
      match download_result E (n_download w) with
      | Downloaded =>
          (Ok tt,
           set_files (<[downloaded_path url :=
                          {| a_url := url; a_serial := n_download w |}]>
                        (files w)) w')
      | NothingWritten => (Ok tt, w')
      | DownloadRaises => (Raise DownloadError, w')
      end
  | PathExists p => (Ok (bool_decide (is_Some (files w !! p))), w)
  | IsFile p => (Ok (bool_decide (is_Some (files w !! p))), w)
  | Rename src dst =>
      match fs_fault E (n_fs w) with
      | Some e => (Raise e, tick_fs w)
      | None =>
          match files w !! src with
          | None => (Raise FileNotFoundError, tick_fs w)
          | Some a =>
              (Ok tt, set_files (<[dst := a]> (delete src (files w))) (tick_fs w))
          end
      end
  | Open p =>
      match fs_fault E (n_fs w) with
      | Some e => (Raise e, tick_fs w)
      | None =>
          match files w !! p with
          | None => (Raise FileNotFoundError, tick_fs w)
          | Some a => (Ok (p, a), tick_fs w)
          end
      end
  | GetResults =>
      match user_data w !! u with
      | None => (Raise KeyError, w)
      | Some l => (Ok l, w)
      end
  | SetResults l => (Ok tt, set_user_data (<[u := l]> (user_data w)) w)
  | AppendResult v =>
      match user_data w !! u with
      | None => (Raise KeyError, w)
      | Some l => (Ok tt, set_user_data (<[u := l ++ [v]]> (user_data w)) w)
      end
  end.

(** A handler run from start to end with nothing in between: the way
    [Application] dispatches updates when built without
    [concurrent_updates], as [main] does. *)
Fixpoint run (E : env) (u : user) {A} (p : prog A) (w : world)
  : result A * world :=
  match p with
  | Ret a => (Ok a, w)
  | Throw e => (Raise e, w)
  | Vis c k => let '(r, w') := perform E u c w in run E u (k r) w'
  end.

(** Selections handled one after the other, in the order in which they
    arrive: [main] builds the [Application] without [concurrent_updates],
    which then starts a handler only when the one before has returned. *)
Definition run_selections (E : env) (picks : list (user * Z)) (w : world)
  : world :=
  foldl (fun w s => snd (run E (fst s) (button_callback (snd s)) w)) w picks.

(** Handlers as coroutines: a handler runs until it has issued its next
    awaited request, and other handlers may run before it is resumed.
    This is more than [main] lets happen, which runs the handlers one
    after the other ([run], [run_selections]); what is proved of
    [interleave] holds for every order in which an event loop could
    resume the handlers. *)
Inductive thread : Type :=
| Suspended (u : user) (p : prog unit)
| Finished (u : user) (r : result unit).

Fixpoint advance (E : env) (u : user) (p : prog unit) (w : world)
  : thread * world :=
  match p with
  | Ret a => (Finished u (Ok a), w)
  | Throw e => (Finished u (Raise e), w)
  | Vis c k =>
      let '(r, w') := perform E u c w in
      if is_await c then (Suspended u (k r), w') else advance E u (k r) w'
  end.

Definition resume (E : env) (i : nat) (st : list thread * world)
  : list thread * world :=
  let '(pool, w) := st in
  match pool !! i with
  | Some (Suspended u p) =>
      let '(t, w') := advance E u p w in (<[i := t]> pool, w')
  | _ => (pool, w)
  end.

(** The event loop resumes the handlers in the order given. *)
Definition interleave (E : env) (order : list nat) (st : list thread * world)
  : list thread * world :=
  foldl (fun st i => resume E i st) st order.

(** *** The search result list, as the specification words it

    The entries that have a usable id and are not age-restricted, in the
    order of the index, and the first ten of them. *)
Definition age_restricted (e : entry) : bool :=
  match get_default (e_age_limit e) 0%Z with
  | Some age_limit => (18 <=? age_limit)%Z
  | None => false
  end.

Definition usable_id (e : entry) : option str :=
  match e_id e with
  | Some video_id => if truthy video_id then Some video_id else None
  | None => None
  end.

Definition duration_text (e : entry) : str :=
  match format_duration (e_duration e) with
  | Ok d => d
  | Raise _ => []
  end.

Definition candidate (entry : option entry) : option video :=
  match entry with
  | None => None
  | Some e =>
      if age_restricted e then None
      else match usable_id e with
           | None => None
           | Some video_id =>
               Some {| v_id := video_id;
                       v_title := get_default (e_title e) (lit "Unknown");
                       v_channel := get_default (e_uploader e) (lit "Unknown");
                       v_duration := duration_text e;
                       v_url := url_of video_id |}
           end
  end.

Definition surfaced (es : list (option entry)) : list video :=
  take 10 (omap candidate es).

(** The keyboard for a list of videos, numbered from [number]: a button
    for each, up to the first video without a title, for which no button
    can be made. *)
Fixpoint keyboard (number : Z) (vs : list video) : list button :=
  match vs with
  | [] => []
  | v :: vs' =>
      match v_title v with
      | Some title =>
          button_for number title (v_duration v) :: keyboard (number + 1) vs'
      | None => []
      end
  end.

(** *** Entries that the loop gets past

    Stated on the data of the entry: the age limit is a number, and unless
    that number is 18 or more, the duration is one that [timedelta] takes
    (at most 999999999 days either way) and, if the entry has a usable
    id, its title is not [None]. *)
Definition timedelta_accepts (seconds : Z) : bool :=
  ((-86399999913600 <=? seconds) && (seconds <? 86400000000000))%Z.

Definition presentable (entry : option entry) : bool :=
  match entry with
  | None => true
  | Some e =>
      match get_default (e_age_limit e) 0%Z with
      | None => false
      | Some age_limit =>
          (18 <=? age_limit)%Z
          || (match e_duration e with
              | Some seconds => timedelta_accepts seconds
              | None => true
              end
              && match usable_id e, e_title e with
                 | Some _, Some None => false
                 | _, _ => true
                 end)
      end
  end.

(** *** How often a program can download

    [fetch_bound p n]: along no path does [p] call [ydl.download] more
    than [n] times. *)
Definition is_download_call {X} (c : eff X) : bool :=
  match c with
  | Download _ => true
  | _ => false
  end.

Fixpoint fetch_bound {A} (p : prog A) (n : nat) : Prop :=
  match p with
  | Ret _ | Throw _ => True
  | Vis c k =>
      if is_download_call c
      then match n with
           | O => False
           | S m => forall r, fetch_bound (k r) m
           end
      else forall r, fetch_bound (k r) n
  end.

Definition thread_bound (t : thread) (n : nat) : Prop :=
  match t with
  | Suspended _ p => fetch_bound p n
  | Finished _ _ => True
  end.

(** A selection event as it enters the event loop. *)
Definition selection (s : user * Z) : thread :=
  Suspended (fst s) (button_callback (snd s)).

(** *** Observations on a trace *)

Definition is_download_of (url : str) (ev : event) : bool :=
  match ev with
  | DownloadCalled _ url' => str_eqb url url'
  | _ => false
  end.

Definition is_download (ev : event) : bool :=
  match ev with
  | DownloadCalled _ _ => true
  | _ => false
  end.

(** How often [ydl.download] was called. *)
Definition fetches (tr : list event) : nat := length (List.filter is_download tr).

Definition fetches_of (url : str) (tr : list event) : nat :=
  length (List.filter (is_download_of url) tr).

(** The text messages of the bot that [u] has on screen after [tr]: sent,
    then possibly edited, and not deleted. *)
Fixpoint screen (u : user) (tr : list event) (acc : list (message_id * notice))
  : list (message_id * notice) :=
  match tr with
  | [] => acc
  | ev :: tr' =>
      screen u tr'
        match ev with
        | TextSent u' m t =>
            if bool_decide (u' = u) then acc ++ [(m, t)] else acc
        | TextEdited u' m t _ =>
            if bool_decide (u' = u)
            then map (fun x => if Nat.eqb (fst x) m then (m, t) else x) acc
            else acc
        | Deleted u' m =>
            if bool_decide (u' = u)
            then List.filter (fun x => negb (Nat.eqb (fst x) m)) acc
            else acc
        | _ => acc
        end
  end.

(** The audio files delivered to [u]. *)
Definition audios (u : user) (tr : list event) : list (str * artifact) :=
  omap (fun ev => match ev with
                  | AudioSent u' path a _ _ =>
                      if bool_decide (u' = u) then Some (path, a) else None
                  | _ => None
                  end) tr.

End Bot.

(** ** Concrete worlds *)

Module Scenario.

Import Py Bot.
Local Open Scope Z_scope.

(** An environment in which every request succeeds and every download
    writes its file; the index is not reachable. *)
Definition calm : env :=
  {| api_fault := fun _ => false;
     search_reply := fun _ => Raise DownloadError;
     download_result := fun _ => Downloaded;
     fs_fault := fun _ => None |}.

(** The same, but [ydl.download] returns without having written a file. *)
Definition nothing_written : env :=
  {| api_fault := fun _ => false;
     search_reply := fun _ => Raise DownloadError;
     download_result := fun _ => NothingWritten;
     fs_fault := fun _ => None |}.

(** The index answers with [info] to every query. *)
Definition answering (info : option search_info) : env :=
  {| api_fault := fun _ => false;
     search_reply := fun _ => Ok info;
     download_result := fun _ => Downloaded;
     fs_fault := fun _ => None |}.

Definition song (video_id title : string) : video :=
  {| v_id := lit video_id; v_title := Some (lit title);
     v_channel := Some (lit "Channel");
     v_duration := lit "3:05"; v_url := url_of (lit video_id) |}.

(** A fresh process in which the given users have searched before. *)
Definition started (sessions : gmap user (list video)) : world :=
  {| files := ∅; user_data := sessions; trace := []; next_message := 0%nat;
     n_api := 0%nat; n_search := 0%nat; n_download := 0%nat; n_fs := 0%nat |}.

Definition found (video_id title : string) : option entry :=
  Some {| e_id := Some (lit video_id); e_title := Some (Some (lit title));
          e_uploader := Some (Some (lit "Channel")); e_duration := Some 185;
          e_age_limit := None |}.

End Scenario.

(** ** FastAPI.py *)

Module MelodyAPI.

Import Py.
Local Open Scope Z_scope.

Record MusicRequest : Type := {
  prompt : str;
  style : str;
  mood : str;
  tempo : str;
  instrument : str;
  duration : Z
}.

Record MusicResponse : Type := {
  success : bool;
  r_title : str;
  r_style : str;
  r_mood : str;
  r_tempo : str;
  r_instrument : str;
  r_duration : Z;
  audio_url : option str;
  audio_base64 : option str;
  error : option str
}.

(** [generate_mock_audio]: a 44-byte WAV header and a silent payload. The
    payload is built last, after every header field was converted. *)
Definition generate_mock_audio (prompt : str) (duration : Z)
  : result (list byte) :=
  let sample_rate := 44100 in
  let num_channels := 2 in
  let bits_per_sample := 16 in
  let num_samples := sample_rate * duration in
  let byte_rate := sample_rate * num_channels * bits_per_sample / 8 in
  let block_align := num_channels * bits_per_sample / 8 in
  let subchunk2_size := num_samples * num_channels * bits_per_sample / 8 in
  (riff_size <- to_bytes (36 + subchunk2_size) 4;;
   fmt_size <- to_bytes 16 4;;
   audio_format <- to_bytes 1 2;;
   channels <- to_bytes num_channels 2;;
   rate <- to_bytes sample_rate 4;;
   brate <- to_bytes byte_rate 4;;
   align <- to_bytes block_align 2;;
   bits <- to_bytes bits_per_sample 2;;
   data_size <- to_bytes subchunk2_size 4;;
   let wav_header :=
     blit "RIFF" ++ riff_size ++ blit "WAVE" ++ blit "fmt " ++ fmt_size
     ++ audio_format ++ channels ++ rate ++ brate ++ align ++ bits
     ++ blit "data" ++ data_size in
   let silent_data := replicate (Z.to_nat subchunk2_size) Byte.x00 in
   Ok (wav_header ++ silent_data))%result.

(** The 32 header bytes between the two size fields; they do not depend
    on the duration. *)
Definition fixed_fields : list byte :=
  blit "WAVE" ++ blit "fmt " ++ le_bytes 4 16 ++ le_bytes 2 1 ++ le_bytes 2 2
  ++ le_bytes 4 44100 ++ le_bytes 4 176400 ++ le_bytes 2 4 ++ le_bytes 2 16
  ++ blit "data".

(** [generated_tracks[track_id]]. *)
Record track_info : Type := {
  t_id : str;
  t_title : str;
  t_prompt : str;
  t_style : str;
  t_mood : str;
  t_tempo : str;
  t_instrument : str;
  t_duration : Z;
  t_file_path : str;
  t_created_at : str
}.

(** The module globals and the temporary files written so far. *)
Record service : Type := {
  generated_tracks : gmap str track_info;
  track_counter : Z;
  tmp_files : gmap str (list byte)
}.

(** What one request finds outside the program:
    - [tmp_file]: the name of the file that [NamedTemporaryFile] creates,
      or the error it raises, and then there is no file;
    - [tmp_write]: what [write] does to that file: [None] when it writes
      all of the data, and [Some (e, written)] when it raises [e] after
      [written] bytes; the file was created with [delete=False], so it
      stays on disk as it is then;
    - [now_isoformat]: the clock. *)
Record ambient : Type := {
  tmp_file : result str;
  tmp_write : option (exn * nat);
  now_isoformat : str
}.

(** The reply as the client gets it. *)
Record http_response : Type := {
  status_code : Z;
  body : MusicResponse
}.

Section Service.

(** Library functions that the service only passes values through:
    [str.title], [base64.b64encode(...).decode('utf-8')] and [str(e)]. *)
Variable str_title : str -> str.
Variable b64encode : list byte -> str.
Variable exn_str : exn -> str.

Definition generate_title (prompt : str) : str :=
  let words := take 5 (split prompt) in
  if (length words <? 3)%nat
  then match words with
       | [] => lit "AI Generated Track"
       | _ => str_title (join (lit " ") words)
       end
  else str_title (join (lit " ") (take 3 words)) ++ lit "...".

(** The exception raised for a duration outside [5, 120]. *)
Definition duration_error : exn :=
  HTTPException 400 (lit "Duration must be between 5 and 120 seconds").

(** The [try] block of [generate_music]: the response or the exception,
    and the globals as the block leaves them. *)
Definition generate_music_try (request : MusicRequest) (amb : ambient)
    (s : service) : result MusicResponse * service :=
  if (duration request <? 5) || (120 <? duration request)
  then (Raise duration_error, s)
  else
    let track_id := lit "track_" ++ str_of_int (track_counter s) in
    let s := {| generated_tracks := generated_tracks s;
                track_counter := track_counter s + 1;
                tmp_files := tmp_files s |} in
    let title := generate_title (prompt request) in
    match generate_mock_audio (prompt request) (duration request) with
    | Raise e => (Raise e, s)
    | Ok audio_data =>
        match tmp_file amb with
        | Raise e => (Raise e, s)
        | Ok tmp_file_path =>
          match tmp_write amb with
          | Some (e, written) =>
              (Raise e,
               {| generated_tracks := generated_tracks s;
                  track_counter := track_counter s;
                  tmp_files :=
                    <[tmp_file_path := take written audio_data]> (tmp_files s) |})
          | None =>
            let info :=
              {| t_id := track_id; t_title := title;
                 t_prompt := prompt request; t_style := style request;
                 t_mood := mood request; t_tempo := tempo request;
                 t_instrument := instrument request;
                 t_duration := duration request;
                 t_file_path := tmp_file_path;
                 t_created_at := now_isoformat amb |} in
            let s := {| generated_tracks :=
                          <[track_id := info]> (generated_tracks s);
                        track_counter := track_counter s;
                        tmp_files :=
                          <[tmp_file_path := audio_data]> (tmp_files s) |} in
            (Ok {| success := true;
                   r_title := title;
                   r_style := str_title (style request);
                   r_mood := str_title (mood request);
                   r_tempo := str_title (tempo request);
                   r_instrument := str_title (instrument request);
                   r_duration := duration request;
                   audio_url := Some (lit "/audio/" ++ track_id);
                   audio_base64 := Some (b64encode audio_data);
                   error := None |}, s)
          end
        end
    end.

(** The response built in the [except] clause. *)
Definition error_response (e : exn) : MusicResponse :=
  {| success := false; r_title := lit "Error"; r_style := [];
     r_mood := []; r_tempo := []; r_instrument := []; r_duration := 0;
     audio_url := None; audio_base64 := None;
     error := Some (exn_str e) |}.

(** [generate_music]: the [except Exception] clause turns whatever the
    block raised into an ordinary return value. *)
Definition generate_music (request : MusicRequest) (amb : ambient)
    (s : service) : MusicResponse * service :=
  match generate_music_try request amb s with
  | (Ok response, s') => (response, s')
  | (Raise e, s') => (error_response e, s')
  end.

(** [POST /generate]: a value returned by the endpoint is sent with
    status 200. *)
Definition post_generate (request : MusicRequest) (amb : ambient)
    (s : service) : http_response * service :=
  let '(response, s') := generate_music request amb s in
  ({| status_code := 200; body := response |}, s').

End Service.

End MelodyAPI.

(** ** FastAPI.py: the other routes and the shutdown *)

Module MelodyRoutes.

Import Py MelodyAPI.
Local Open Scope Z_scope.

(** What [FileResponse] sends: the file at [fr_path], as it is on disk,
    under the download name [fr_filename]. *)
Record file_response : Type := {
  fr_path : str;
  fr_media_type : str;
  fr_filename : str;
  fr_body : list byte
}.

(** [get_audio]: both checks raise outside of any [try]. *)
Definition get_audio (track_id : str) (s : service) : result file_response :=
  match generated_tracks s !! track_id with
  | None => Raise (HTTPException 404 (lit "Track not found"))
  | Some track_info =>
      let file_path := t_file_path track_info in
      match tmp_files s !! file_path with
      | None => Raise (HTTPException 404 (lit "Audio file not found"))
      | Some data =>
          Ok {| fr_path := file_path;
                fr_media_type := lit "audio/wav";
                fr_filename := lit "melodyai_" ++ track_id ++ lit ".wav";
                fr_body := data |}
      end
  end.

(** The status of the reply to [GET /audio/{track_id}]: 200 for a returned
    response, the code of an [HTTPException], 500 for anything else. *)
Definition get_audio_status (track_id : str) (s : service) : Z :=
  match get_audio track_id s with
  | Ok _ => 200
  | Raise (HTTPException code _) => code
  | Raise _ => 500
  end.

(** One round of the shutdown loop of [lifespan]: the file of a track is
    removed if its path is not empty and the file exists; [remove_fails]
    tells for which paths [os.remove] raises, which the bare [except]
    ignores. *)
Definition remove_track_file (remove_fails : str -> bool) (info : track_info)
    (files : gmap str (list byte)) : gmap str (list byte) :=
  let file_path := t_file_path info in
  if truthy file_path && bool_decide (is_Some (files !! file_path))
  then (if remove_fails file_path then files else delete file_path files)
  else files.

(** The shutdown part of [lifespan], over the tracks in the order given. *)
Definition cleanup (remove_fails : str -> bool) (tracks : list track_info)
    (files : gmap str (list byte)) : gmap str (list byte) :=
  foldl (fun files info => remove_track_file remove_fails info files)
    files tracks.

(** [generated_tracks.values()], and the service after the shutdown. The
    dict of the program keeps insertion order and the map here does not;
    [cleanup] is stated for every order. *)
Definition shutdown (remove_fails : str -> bool) (s : service) : service :=
  {| generated_tracks := generated_tracks s;
     track_counter := track_counter s;
     tmp_files :=
       cleanup remove_fails (snd <$> map_to_list (generated_tracks s))
         (tmp_files s) |}.

(** The id that [generate_music] gives to the n-th track. *)
Definition track_id_of (n : Z) : str := lit "track_" ++ str_of_int n.

(** Every stored track has an id that the counter has passed. *)
Definition ids_below_counter (s : service) : Prop :=
  forall track_id info,
    generated_tracks s !! track_id = Some info ->
    exists n, track_id = track_id_of n /\ n < track_counter s.

(** The file of every stored track exists. *)
Definition files_exist (s : service) : Prop :=
  forall track_id info,
    generated_tracks s !! track_id = Some info ->
    is_Some (tmp_files s !! t_file_path info).

(** The module as loaded: no track, counter 1. *)
Definition initial : service :=
  {| generated_tracks := ∅; track_counter := 1; tmp_files := ∅ |}.

Section Requests.

Variable str_title : str -> str.
Variable b64encode : list byte -> str.
Variable exn_str : exn -> str.

(** The service after a series of [POST /generate] requests, each with
    what it found outside. *)
Definition generate_all (requests : list (MusicRequest * ambient))
    (s : service) : service :=
  foldl (fun s ra =>
           snd (generate_music str_title b64encode exn_str (fst ra) (snd ra) s))
    s requests.

End Requests.

End MelodyRoutes.

(** ** Concrete requests *)

Module ApiScenario.

Import Py MelodyAPI MelodyRoutes.
Local Open Scope Z_scope.

(** A request for five seconds of music. *)
Definition five_seconds : MusicRequest :=
  {| prompt := lit "a calm rainy evening"; style := lit "lofi";
     mood := lit "calm"; tempo := lit "medium"; instrument := lit "guitar";
     duration := 5 |}.

(** A disk that hands out the temporary file [path] and takes the data;
    one on which no temporary file can be created; and one that hands out
    [path] and is full after [written] bytes. *)
Definition writable (path : string) : ambient :=
  {| tmp_file := Ok (lit path); tmp_write := None;
     now_isoformat := lit "2024-01-01T00:00:00" |}.

Definition unwritable : ambient :=
  {| tmp_file := Raise PermissionError; tmp_write := None;
     now_isoformat := lit "2024-01-01T00:00:00" |}.

Definition full_after (path : string) (written : nat) : ambient :=
  {| tmp_file := Ok (lit path); tmp_write := Some (OSError, written);
     now_isoformat := lit "2024-01-01T00:00:00" |}.

(** Library functions left open by the service, for the examples. *)
Definition same (s : str) : str := s.
Definition no_base64 (data : list byte) : str := [].
Definition no_text (e : exn) : str := [].


(** The bytes generated for [d] seconds. *)
Definition silence (d : Z) : list byte :=
  match generate_mock_audio [] d with
  | Ok wav => wav
  | Raise _ => []
  end.

(** The answer to a [GET] of the first track when it was written to
    [path] for a request of [d] seconds. *)
Definition first_track (path : string) (d : Z) : file_response :=
  {| fr_path := lit path; fr_media_type := lit "audio/wav";
     fr_filename := lit "melodyai_" ++ track_id_of 1 ++ lit ".wav";
     fr_body := silence d |}.

End ApiScenario.

(** ** bot-yt.py: what the handlers call, and the other helper *)

Module BotMore.

Import Py Bot.
Local Open Scope N_scope.

(** [only_calls Q p]: every call that [p] can make, on any path, is
    one that [Q] allows. *)
Fixpoint only_calls {A} (Q : forall X, eff X -> Prop) (p : prog A) : Prop :=
  match p with
  | Ret _ | Throw _ => True
  | Vis c k => Q _ c /\ forall r, only_calls Q (k r)
  end.

(** [w'] continues [w] with events that all satisfy [P]. *)
Definition continues (P : event -> Prop) (w w' : world) : Prop :=
  exists new, trace w' = trace w ++ new /\ Forall P new.

(** Calls that neither download nor rename. *)
Definition leaves_files {X} (c : eff X) : Prop :=
  match c with
  | Download _ | Rename _ _ => False
  | _ => True
  end.

(** Calls that do not write [context.user_data]. *)
Definition leaves_user_data {X} (c : eff X) : Prop :=
  match c with
  | SetResults _ | AppendResult _ => False
  | _ => True
  end.

(** Calls that do not query the index. *)
Definition no_search {X} (c : eff X) : Prop :=
  match c with
  | ExtractInfo _ => False
  | _ => True
  end.

(** The limits that [send_audio] puts on what it hands to Telegram. *)
Definition tags_ok (title : str) (performer : option str) : Prop :=
  (length title <= 64)%nat
  /\ existsb unsafe_char title = false
  /\ match performer with
     | Some artist => artist <> [] /\ (length artist <= 64)%nat
     | None => True
     end.

Definition sends_ok {X} (c : eff X) : Prop :=
  match c with
  | ReplyAudio _ title performer => tags_ok title performer
  | _ => True
  end.

Definition audio_ok (ev : event) : Prop :=
  match ev with
  | AudioSent _ _ _ title performer => tags_ok title performer
  | _ => True
  end.

(** Events that show a download: the call itself, and the notice that
    announces it. *)
Definition not_downloading (ev : event) : Prop :=
  match ev with
  | DownloadCalled _ _ | TextSent _ _ (Downloading _) => False
  | _ => True
  end.

Definition no_download {X} (c : eff X) : Prop :=
  match c with
  | Download _ | ReplyText (Downloading _) => False
  | _ => True
  end.

Definition thread_only_calls (Q : forall X, eff X -> Prop) (t : thread) : Prop :=
  match t with
  | Suspended _ p => only_calls Q p
  | Finished _ _ => True
  end.

(** A search as it enters the event loop. *)
Definition search (s : user * option str) : thread :=
  Suspended (fst s) (search_and_show_results (snd s)).

(** The [try] statement of [search_and_show_results]: what the handler
    does once its notice [searching_msg] is out. *)
Definition search_after_notice (query : str) (searching_msg : message_id)
  : prog unit :=
  (try_except
     (let search_query :=
        if existsb is_cjk query then query ++ CJK_HINT else query in
      search_info <- call (ExtractInfo search_query);;
      info <- match search_info with
              | None => Throw AttributeError
              | Some info => Ret info
              end;;
      let entries := default [] (entries info) in
      match entries with
      | [] => call (EditText searching_msg NoResults [])
      | _ =>
          call (SetResults []);;
          st <- results_loop entries
                  {| text := []; buttons := []; valid_count := 0 |};;
          if (valid_count st =? 0)%Z
          then call (EditText searching_msg AllRestricted [])
          else call (EditText searching_msg
                       (SearchResults (text st) (valid_count st))
                       (buttons st))
      end)
     (fun e => call (EditText searching_msg SearchError [])))%prog.

(** Where a search handler can be when the event loop comes to it: at
    its start, at its [try] statement, or past everything that writes
    the stored list. *)
Definition search_thread_state (t : thread) : Prop :=
  match t with
  | Finished _ _ => True
  | Suspended u p =>
      (exists message_text, p = search_and_show_results message_text)
      \/ (exists query searching_msg,
            p = search_after_notice query searching_msg)
      \/ only_calls (fun X c => leaves_user_data c) p
  end.

(** [now] is [old], or what one search made of one reply of the index. *)
Definition from_one_search (E : env) (old now : option (list video)) : Prop :=
  now = old
  \/ exists n es new,
       search_reply E n = Ok (Some {| entries := Some es |})
       /\ now = Some new
       /\ new `prefix_of` surfaced es
       /\ (forallb presentable es = true -> new = surfaced es).

Definition is_search (ev : event) : bool :=
  match ev with
  | Searched _ _ => true
  | _ => false
  end.

(** The path under which [send_audio] wants to send the file of a video. *)
Definition final_path_of (video_id title : str) : str :=
  path_join (dirname (path_join DOWNLOAD_DIR (video_id ++ lit ".mp3")))
    (safe_title_filename title ++ lit ".mp3").

Section CleanFilename.

(** What [\w] matches in a [str] pattern: the alphanumeric characters of
    Unicode and the underscore. The table is the library's. *)
Variable is_word : N -> bool.

(** The characters that the pattern of [clean_filename] does not remove:
    [\w], [\s], the seven punctuation marks, Khmer, CJK ideographs. *)
Definition allowed_char (c : N) : bool :=
  is_word c || isspace c
  || (c =? 45) || (c =? 40) || (c =? 41) || (c =? 91) || (c =? 93)
  || (c =? 46) || (c =? 44)
  || is_khmer c || is_cjk c.

Definition clean_filename (title : str) : str :=
  slice_to 100 (strip (sub_class_empty (fun c => negb (allowed_char c)) title)).

End CleanFilename.

End BotMore.

(** ** Concrete worlds for the bot, continued *)

Module BotScenario.

Import Py Bot Scenario.
Local Open Scope Z_scope.

(** A process in which [path] is already in the download directory. *)
Definition cached (sessions : gmap user (list video)) (path : string)
    (a : artifact) : world :=
  set_files {[ lit path := a ]} (started sessions).

Definition earlier (video_id : string) : artifact :=
  {| a_url := url_of (lit video_id); a_serial := 0 |}.

(** [os.rename] finds the target taken; everything else works. *)
Definition rename_refused : env :=
  {| api_fault := fun _ => false;
     search_reply := fun _ => Raise DownloadError;
     download_result := fun _ => Downloaded;
     fs_fault := fun n => if Nat.eqb n 0 then Some FileExistsError else None |}.

(** [ydl.download] raises. *)
Definition download_refused : env :=
  {| api_fault := fun _ => false;
     search_reply := fun _ => Raise DownloadError;
     download_result := fun _ => DownloadRaises;
     fs_fault := fun _ => None |}.

(** Telegram refuses the third request of the process. *)
Definition audio_refused : env :=
  {| api_fault := fun n => Nat.eqb n 2;
     search_reply := fun _ => Raise DownloadError;
     download_result := fun _ => Downloaded;
     fs_fault := fun _ => None |}.

(** An entry whose duration [timedelta] refuses. *)
Definition endless (video_id title : string) : option entry :=
  Some {| e_id := Some (lit video_id); e_title := Some (Some (lit title));
          e_uploader := Some (Some (lit "Channel"));
          e_duration := Some 1000000000000000;
          e_age_limit := None |}.

(** An entry marked for adults. *)
Definition adult (video_id title : string) : option entry :=
  Some {| e_id := Some (lit video_id); e_title := Some (Some (lit title));
          e_uploader := Some (Some (lit "Channel")); e_duration := Some 185;
          e_age_limit := Some (Some 18) |}.

(** An entry of which the index does not know the title. *)
Definition untitled (video_id : string) : option entry :=
  Some {| e_id := Some (lit video_id); e_title := Some None;
          e_uploader := Some (Some (lit "Channel")); e_duration := Some 185;
          e_age_limit := None |}.

(** An entry without an id and with a duration that [timedelta]
    refuses. *)
Definition nameless_endless : option entry :=
  Some {| e_id := None; e_title := Some (Some (lit "Lost"));
          e_uploader := None; e_duration := Some 86400000000000;
          e_age_limit := None |}.

(** A stored result without a title, as a search leaves it when the
    index does not know the title. *)
Definition nameless (video_id : string) : video :=
  {| v_id := lit video_id; v_title := None; v_channel := Some (lit "Channel");
     v_duration := lit "3:05"; v_url := url_of (lit video_id) |}.

End BotScenario.

(** * Properties *)

(** ** The filename sanitizer *)

Module SanitizerProofs.

Import Py Bot.
Local Open Scope N_scope.

Section Shape.

(** *** A property of every character *)

Variable P : N -> Prop.

Lemma Forall_lstrip (s : str) : Forall P s -> Forall P (lstrip s).
Proof.
  induction 1 as [|c s Hc Hs IH]; simpl; [constructor|].
  destruct (isspace c); [exact IH | by constructor].
Qed.

Lemma Forall_rstrip (s : str) : Forall P s -> Forall P (rstrip s).
Proof.
  intros H. unfold rstrip.
  apply Forall_reverse, Forall_lstrip, Forall_reverse, H.
Qed.

Lemma Forall_strip (s : str) : Forall P s -> Forall P (strip s).
Proof. intros H. by apply Forall_rstrip, Forall_lstrip. Qed.

Lemma Forall_sub_ws_from (b : bool) (s : str) :
  P SPACE -> Forall P s -> Forall P (sub_ws_from b s).
Proof.
  intros Hsp H. revert b.
  induction H as [|c s Hc Hs IH]; intros b; simpl; [constructor|].
  destruct (isspace c); [destruct b|]; try constructor; auto.
Qed.

End Shape.

Lemma Forall_sub_class_empty (cls : N -> bool) (s : str) :
  Forall (fun c => cls c = false) (sub_class_empty cls s).
Proof.
  unfold sub_class_empty. induction s as [|c s IH]; simpl; [constructor|].
  destruct (cls c) eqn:Hc; simpl; [exact IH | by constructor].
Qed.

Lemma existsb_false_Forall (f : N -> bool) (s : str) :
  Forall (fun c => f c = false) s -> existsb f s = false.
Proof. induction 1 as [|c s Hc Hs IH]; simpl; [done|]. by rewrite Hc, IH. Qed.

(** *** Prefixes and suffixes *)

Lemma lstrip_suffix (s : str) : exists k, s = k ++ lstrip s.
Proof.
  induction s as [|c s [k IH]]; simpl; [by exists []|].
  destruct (isspace c).
  - exists (c :: k). simpl. by rewrite <- IH.
  - by exists [].
Qed.

Lemma rstrip_prefix (s : str) : exists k, s = rstrip s ++ k.
Proof.
  unfold rstrip. destruct (lstrip_suffix (reverse s)) as [k Hk].
  exists (reverse k).
  rewrite <- reverse_app, <- Hk. by rewrite reverse_involutive.
Qed.

Lemma head_lstrip (s : str) (c : N) :
  head (lstrip s) = Some c -> isspace c = false.
Proof.
  induction s as [|d s IH]; simpl; [done|].
  destruct (isspace d) eqn:Hd; [exact IH|].
  simpl. intros [= <-]. exact Hd.
Qed.

Lemma last_rstrip (s : str) (c : N) :
  last (rstrip s) = Some c -> isspace c = false.
Proof. unfold rstrip. rewrite last_reverse. apply head_lstrip. Qed.

Lemma head_prefix {A} (a k : list A) (c : A) :
  head a = Some c -> head (a ++ k) = Some c.
Proof. by destruct a. Qed.

Lemma head_strip (s : str) (c : N) :
  head (strip s) = Some c -> isspace c = false.
Proof.
  unfold strip. intros H.
  destruct (rstrip_prefix (lstrip s)) as [k Hk].
  apply (head_lstrip s). rewrite Hk. by apply head_prefix.
Qed.

Lemma last_strip (s : str) (c : N) :
  last (strip s) = Some c -> isspace c = false.
Proof. apply last_rstrip. Qed.

(** *** Runs of whitespace *)

Lemma single_spaced_tail (c : N) (s : str) :
  single_spaced (c :: s) = true -> single_spaced s = true.
Proof. simpl. intros H. by apply andb_true_iff in H as [_ H]. Qed.

Lemma single_spaced_suffix (k s : str) :
  single_spaced (k ++ s) = true -> single_spaced s = true.
Proof. induction k as [|c k IH]; simpl app; [done|]. intros H. by apply IH, (single_spaced_tail c). Qed.

Lemma single_spaced_prefix (s k : str) :
  single_spaced (s ++ k) = true -> single_spaced s = true.
Proof.
  induction s as [|c s IH]; [done|].
  cbn [app single_spaced]. intros H.
  apply andb_true_iff in H as [Hc Hs].
  rewrite (IH Hs), andb_true_r.
  destruct (isspace c); [|done].
  apply andb_true_iff in Hc as [Hc Hn]. rewrite Hc. simpl.
  destruct s as [|d s]; [done|]. exact Hn.
Qed.

(** After the substitution, whitespace is single spaces; and when the
    text before was whitespace, what follows does not start with one. *)
Lemma single_spaced_sub_ws_from (b : bool) (s : str) :
  single_spaced (sub_ws_from b s) = true
  /\ (b = true ->
      match sub_ws_from b s with c :: _ => isspace c = false | [] => True end).
Proof.
  revert b. induction s as [|c s IH]; intros b; [by split|].
  cbn [sub_ws_from]. destruct (isspace c) eqn:Hc.
  - destruct (IH true) as [IH1 IH2]. destruct b.
    + split; [exact IH1 | intros _; by apply IH2].
    + split; [|done]. cbn [single_spaced].
      change (isspace SPACE) with true. rewrite IH1, N.eqb_refl. simpl.
      specialize (IH2 eq_refl).
      destruct (sub_ws_from true s) as [|d r]; [done|]. by rewrite IH2.
  - destruct (IH false) as [IH1 _]. split.
    + cbn [single_spaced]. by rewrite Hc, IH1.
    + intros _. exact Hc.
Qed.

Lemma single_spaced_strip (s : str) :
  single_spaced s = true -> single_spaced (strip s) = true.
Proof.
  intros H. unfold strip.
  destruct (rstrip_prefix (lstrip s)) as [k Hk].
  destruct (lstrip_suffix s) as [k' Hk'].
  apply (single_spaced_prefix _ k). rewrite <- Hk.
  apply (single_spaced_suffix k'). by rewrite <- Hk'.
Qed.

(** *** What the cleaning leaves *)

Lemma cleaned_title_safe (s : str) :
  Forall (fun c => unsafe_char c = false) (cleaned_title s).
Proof.
  unfold cleaned_title, sub_ws.
  apply Forall_strip, Forall_sub_ws_from; [reflexivity|].
  apply Forall_sub_class_empty.
Qed.

Lemma cleaned_title_single_spaced (s : str) :
  single_spaced (cleaned_title s) = true.
Proof.
  unfold cleaned_title, sub_ws.
  apply single_spaced_strip, single_spaced_sub_ws_from.
Qed.

(** A title made of denied characters and whitespace only cleans to the
    empty string. *)
Lemma sub_ws_from_all_space (b : bool) (s : str) :
  Forall (fun c => isspace c = true) s ->
  Forall (fun c => isspace c = true) (sub_ws_from b s).
Proof. apply Forall_sub_ws_from. reflexivity. Qed.

Lemma lstrip_all_space (s : str) :
  Forall (fun c => isspace c = true) s -> lstrip s = [].
Proof. induction 1 as [|c s Hc Hs IH]; simpl; [done|]. by rewrite Hc. Qed.

Lemma cleaned_title_nothing_left (s : str) :
  Forall (fun c => unsafe_char c || isspace c = true) s -> cleaned_title s = [].
Proof.
  intros H. unfold cleaned_title, strip, sub_ws.
  rewrite lstrip_all_space; [reflexivity|].
  apply sub_ws_from_all_space.
  unfold sub_class_empty. induction H as [|c s Hc Hs IH]; simpl; [constructor|].
  destruct (unsafe_char c) eqn:Hu; simpl; [exact IH|].
  constructor; [exact Hc | exact IH].
Qed.

(** *** Characters that are kept *)

Lemma sub_class_empty_kept (s : str) :
  forallb kept_char s = true -> sub_class_empty unsafe_char s = s.
Proof.
  unfold sub_class_empty. induction s as [|c s IH]; simpl; [done|].
  intros H. apply andb_true_iff in H as [Hc Hs].
  unfold kept_char in Hc. apply andb_true_iff in Hc as [Hc _].
  rewrite Hc. by rewrite IH.
Qed.

Lemma sub_ws_from_kept (b : bool) (s : str) :
  forallb kept_char s = true -> sub_ws_from b s = s.
Proof.
  revert b. induction s as [|c s IH]; intros b; simpl; [done|].
  intros H. apply andb_true_iff in H as [Hc Hs].
  unfold kept_char in Hc. apply andb_true_iff in Hc as [_ Hc].
  apply negb_true_iff in Hc. rewrite Hc. by rewrite IH.
Qed.

Lemma lstrip_kept (s : str) : forallb kept_char s = true -> lstrip s = s.
Proof.
  destruct s as [|c s]; simpl; [done|].
  intros H. apply andb_true_iff in H as [Hc _].
  unfold kept_char in Hc. apply andb_true_iff in Hc as [_ Hc].
  apply negb_true_iff in Hc. by rewrite Hc.
Qed.

Lemma forallb_reverse (f : N -> bool) (s : str) :
  forallb f s = true -> forallb f (reverse s) = true.
Proof.
  rewrite !forallb_forall. intros H c Hc. apply H.
  rewrite <- list_elem_of_In in *. by rewrite elem_of_reverse in Hc.
Qed.

Lemma cleaned_title_kept (s : str) :
  forallb kept_char s = true -> cleaned_title s = s.
Proof.
  intros H. unfold cleaned_title, sub_ws, strip, rstrip.
  rewrite (sub_class_empty_kept s H), (sub_ws_from_kept false s H).
  rewrite (lstrip_kept s H).
  rewrite (lstrip_kept (reverse s) (forallb_reverse _ s H)).
  apply reverse_involutive.
Qed.

Lemma is_cjk_kept (c : N) : is_cjk c = true -> kept_char c = true.
Proof.
  unfold is_cjk, kept_char, unsafe_char, isspace, SPACE. intros H.
  apply andb_true_iff in H as [H1 H2].
  apply N.leb_le in H1. apply N.leb_le in H2.
  repeat match goal with
         | |- context [?a =? ?b] => replace (a =? b) with false by (symmetry; apply N.eqb_neq; lia)
         | |- context [?a <=? c] => destruct (N.leb_spec a c); try lia
         | |- context [c <=? ?a] => destruct (N.leb_spec c a); try lia
         end; reflexivity.
Qed.

Lemma is_khmer_kept (c : N) : is_khmer c = true -> kept_char c = true.
Proof.
  unfold is_khmer, kept_char, unsafe_char, isspace, SPACE. intros H.
  apply andb_true_iff in H as [H1 H2].
  apply N.leb_le in H1. apply N.leb_le in H2.
  repeat match goal with
         | |- context [?a =? ?b] => replace (a =? b) with false by (symmetry; apply N.eqb_neq; lia)
         | |- context [?a <=? c] => destruct (N.leb_spec a c); try lia
         | |- context [c <=? ?a] => destruct (N.leb_spec c a); try lia
         end; reflexivity.
Qed.




(** C6. On a title in which every character is kept by both substitutions
    (no denied character, no whitespace), as are all letters of Khmer, of
    the CJK ideographs and of every other script, the sanitizer returns the
    title itself, cut at 80 characters; the empty title gets the
    placeholder. *)
Theorem safe_title_filename_keeps_scripts (title : str) :
  forallb kept_char title = true ->
  safe_title_filename title
  = if truthy title then slice_to 80 title else lit "audio".
Proof.
  intros H. unfold safe_title_filename. by rewrite (cleaned_title_kept title H).
Qed.

(** The same on a title of four Khmer letters and two ideographs. *)
Lemma safe_title_filename_keeps_scripts_at_khmer_cjk :
  let title := [0x1797; 0x17B6; 0x179F; 0x17B6; 0x4F60; 0x597D] in
  forallb kept_char title = true
  /\ safe_title_filename title
     = (if truthy title then slice_to 80 title else lit "audio").
Proof.
  split; [reflexivity|].
  apply (safe_title_filename_keeps_scripts
           [0x1797; 0x17B6; 0x179F; 0x17B6; 0x4F60; 0x597D]).
  reflexivity.
Defined.

(** The two blocks the code names are covered. *)
Lemma safe_title_filename_khmer_cjk (title : str) :
  forallb (fun c => is_khmer c || is_cjk c) title = true ->
  title <> [] ->
  safe_title_filename title = slice_to 80 title.
Proof.
  intros H Hne. unfold safe_title_filename. rewrite cleaned_title_kept.
  - by destruct title.
  - rewrite forallb_forall in *. intros c Hc. specialize (H c Hc).
    apply orb_true_iff in H as [H|H]; [by apply is_khmer_kept | by apply is_cjk_kept].
Qed.

End SanitizerProofs.

(** ** The mock generation service *)

Module MelodyAPIProofs.

Import Py MelodyAPI.
Local Open Scope Z_scope.

Lemma byte_of_Z_to_N (z : Z) :
  0 <= z < 256 -> Z.of_N (Byte.to_N (byte_of_Z z)) = z.
Proof.
  intros Hz. unfold byte_of_Z.
  destruct (Byte.of_N (Z.to_N z)) as [b|] eqn:Hb.
  - apply Byte.to_of_N in Hb. simpl. rewrite Hb. lia.
  - apply Byte.of_N_None_iff in Hb. lia.
Qed.

Lemma length_le_bytes (n : nat) (v : Z) : length (le_bytes n v) = n.
Proof. revert v. induction n as [|n IH]; intros v; simpl; [done|]. by rewrite IH. Qed.

(** Reading back what [to_bytes] wrote gives the number. *)
Lemma from_bytes_le_bytes (n : nat) (v : Z) :
  0 <= v < 256 ^ Z.of_nat n -> from_bytes (le_bytes n v) = v.
Proof.
  revert v. induction n as [|n IH]; intros v Hv.
  - simpl in *. lia.
  - rewrite Nat2Z.inj_succ, Z.pow_succ_r in Hv by lia.
    cbn [le_bytes from_bytes foldr].
    fold (from_bytes (le_bytes n (v / 256))).
    rewrite IH.
    + rewrite byte_of_Z_to_N by (apply Z.mod_pos_bound; lia).
      pose proof (Z.div_mod v 256). lia.
    + split; [apply Z.div_pos; lia|].
      apply Z.div_lt_upper_bound; lia.
Qed.

Lemma to_bytes_in_range (v : Z) (n : nat) :
  0 <= v < 256 ^ Z.of_nat n -> to_bytes v n = Ok (le_bytes n v).
Proof.
  intros [H0 H1]. unfold to_bytes.
  apply Z.leb_le in H0. apply Z.ltb_lt in H1. by rewrite H0, H1.
Qed.

Lemma to_bytes_out_of_range (v : Z) (n : nat) :
  v < 0 \/ 256 ^ Z.of_nat n <= v -> to_bytes v n = Raise OverflowError.
Proof.
  intros H. unfold to_bytes.
  destruct (0 <=? v) eqn:H0; [|done].
  destruct (v <? 256 ^ Z.of_nat n) eqn:H1; [|done].
  apply Z.leb_le in H0. apply Z.ltb_lt in H1. lia.
Qed.

(** The size of the payload, as the code computes it. *)
Lemma subchunk2_size_eq (d : Z) : 44100 * d * 2 * 16 / 8 = 176400 * d.
Proof. replace (44100 * d * 2 * 16) with (176400 * d * 8) by lia. apply Z.div_mul. lia. Qed.

Lemma generate_mock_audio_ok (p : str) (d : Z) :
  0 <= d <= 24347 ->
  generate_mock_audio p d =
    Ok (blit "RIFF" ++ le_bytes 4 (36 + 176400 * d) ++ fixed_fields
        ++ le_bytes 4 (176400 * d)
        ++ replicate (Z.to_nat (176400 * d)) Byte.x00).
Proof.
  intros Hd. unfold generate_mock_audio.
  rewrite subchunk2_size_eq.
  rewrite (to_bytes_in_range (36 + 176400 * d)) by (simpl; lia).
  rewrite (to_bytes_in_range (176400 * d)) by (simpl; lia).
  change (44100 * 2 * 16 / 8) with 176400.
  change (2 * 16 / 8) with 4.
  unfold fixed_fields. cbn [result_bind].
  rewrite !to_bytes_in_range by (simpl; lia).
  cbn [result_bind]. by rewrite <- !app_assoc.
Qed.

Lemma generate_mock_audio_overflow (p : str) (d : Z) :
  d < 0 \/ 24347 < d -> generate_mock_audio p d = Raise OverflowError.
Proof.
  intros Hd. unfold generate_mock_audio.
  rewrite subchunk2_size_eq.
  destruct (Z_lt_le_dec (36 + 176400 * d) 0) as [Hneg|Hpos].
  - by rewrite (to_bytes_out_of_range (36 + 176400 * d)) by (simpl; lia).
  - assert (d = 0 \/ 24347 < d) as [->|Hbig] by lia; [lia|].
    by rewrite (to_bytes_out_of_range (36 + 176400 * d)) by (simpl; lia).
Qed.


(** C10 (as amended). For every duration [d] from 0 to 24347 seconds the
    generator returns [44 + 176400 * d] bytes; the RIFF chunk size at
    offset 4 reads [36 + 176400 * d], the data size at offset 40 reads
    [176400 * d], and what follows the 44-byte header is that many zero
    bytes. *)
Theorem generate_mock_audio_layout (p : str) (d : Z) :
  0 <= d <= 24347 ->
  exists wav,
    generate_mock_audio p d = Ok wav
    /\ Z.of_nat (length wav) = 44 + 176400 * d
    /\ from_bytes (take 4 (drop 4 wav)) = 36 + 176400 * d
    /\ from_bytes (take 4 (drop 40 wav)) = 176400 * d
    /\ drop 44 wav = replicate (Z.to_nat (176400 * d)) Byte.x00
    /\ Z.of_nat (length (drop 44 wav)) = 176400 * d.
Proof.
  intros Hd. eexists. split; [by apply generate_mock_audio_ok|].
  assert (Hlen : length (blit "RIFF" ++ le_bytes 4 (36 + 176400 * d)
                         ++ fixed_fields ++ le_bytes 4 (176400 * d)) = 44%nat).
  { rewrite !length_app, !length_le_bytes. reflexivity. }
  split; [|split; [|split; [|split]]].
  - rewrite !length_app, !length_le_bytes, length_replicate.
    change (length (blit "RIFF")) with 4%nat.
    change (length fixed_fields) with 32%nat. lia.
  - change (blit "RIFF") with [x52; x49; x46; x46]%byte. cbn [app drop]. rewrite drop_0.
    rewrite take_app_length' by (by rewrite length_le_bytes).
    apply from_bytes_le_bytes. simpl. lia.
  - replace (blit "RIFF" ++ le_bytes 4 (36 + 176400 * d) ++ fixed_fields
             ++ le_bytes 4 (176400 * d) ++ replicate (Z.to_nat (176400 * d)) x00)
      with ((blit "RIFF" ++ le_bytes 4 (36 + 176400 * d) ++ fixed_fields)
            ++ le_bytes 4 (176400 * d) ++ replicate (Z.to_nat (176400 * d)) x00)
      by (by rewrite <- !app_assoc).
    rewrite drop_app_length'
      by (rewrite !length_app, !length_le_bytes; reflexivity).
    rewrite take_app_length' by (by rewrite length_le_bytes).
    apply from_bytes_le_bytes. simpl. lia.
  - replace (blit "RIFF" ++ le_bytes 4 (36 + 176400 * d) ++ fixed_fields
             ++ le_bytes 4 (176400 * d) ++ replicate (Z.to_nat (176400 * d)) x00)
      with ((blit "RIFF" ++ le_bytes 4 (36 + 176400 * d) ++ fixed_fields
             ++ le_bytes 4 (176400 * d)) ++ replicate (Z.to_nat (176400 * d)) x00)
      by (by rewrite <- !app_assoc).
    by rewrite drop_app_length'.
  - replace (blit "RIFF" ++ le_bytes 4 (36 + 176400 * d) ++ fixed_fields
             ++ le_bytes 4 (176400 * d) ++ replicate (Z.to_nat (176400 * d)) x00)
      with ((blit "RIFF" ++ le_bytes 4 (36 + 176400 * d) ++ fixed_fields
             ++ le_bytes 4 (176400 * d)) ++ replicate (Z.to_nat (176400 * d)) x00)
      by (by rewrite <- !app_assoc).
    rewrite drop_app_length' by done.
    rewrite length_replicate. lia.
Qed.

(** The same for five seconds, the shortest duration the service accepts. *)
Lemma generate_mock_audio_layout_at_5 :
  0 <= 5 <= 24347
  /\ exists wav,
       generate_mock_audio [] 5 = Ok wav
       /\ Z.of_nat (length wav) = 44 + 176400 * 5
       /\ from_bytes (take 4 (drop 4 wav)) = 36 + 176400 * 5
       /\ from_bytes (take 4 (drop 40 wav)) = 176400 * 5
       /\ drop 44 wav = replicate (Z.to_nat (176400 * 5)) Byte.x00
       /\ Z.of_nat (length (drop 44 wav)) = 176400 * 5.
Proof. split; [lia | apply (generate_mock_audio_layout [] 5); lia]. Defined.

(** C10 fails as stated: 24348 is a non-negative duration, and the size
    fields no longer fit in four bytes, so the call raises. *)
Lemma generate_mock_audio_24348_raises :
  0 <= 24348
  /\ generate_mock_audio [] 24348 = Raise OverflowError
  /\ ~ (exists wav, generate_mock_audio [] 24348 = Ok wav
                    /\ Z.of_nat (length wav) = 44 + 176400 * 24348).
Proof.
  assert (H : generate_mock_audio [] 24348 = Raise OverflowError)
    by (apply generate_mock_audio_overflow; lia).
  split; [lia|]. split; [exact H|].
  intros (wav & Hwav & _). rewrite H in Hwav. discriminate.
Qed.

Section Generate.

Variable str_title : str -> str.
Variable b64encode : list byte -> str.
Variable exn_str : exn -> str.

(** The part of the rejection that works: nothing is generated, counted or
    stored, and the body says [success = false]. *)
Lemma generate_music_out_of_range (request : MusicRequest) (amb : ambient)
    (s : service) :
  duration request < 5 \/ 120 < duration request ->
  generate_music str_title b64encode exn_str request amb s = (error_response exn_str duration_error, s).
Proof.
  intros Hd. unfold generate_music, generate_music_try.
  assert ((duration request <? 5) || (120 <? duration request) = true) as ->.
  { apply orb_true_iff. destruct Hd; [left; by apply Z.ltb_lt | right; by apply Z.ltb_lt]. }
  reflexivity.
Qed.

(** C9, at the failing input: a request with [duration = 4]. The
    [HTTPException(400)] raised by the check is caught by the handler's own
    [except Exception], so the client is answered with status 200 and a
    body that carries the error; no track is created. *)
Theorem post_generate_duration_4 (p : str) (amb : ambient) (s : service) :
  let request := {| prompt := p; style := lit "lofi"; mood := lit "calm";
                    tempo := lit "medium"; instrument := lit "guitar";
                    duration := 4 |} in
  post_generate str_title b64encode exn_str request amb s
  = ({| status_code := 200;
        body := error_response exn_str duration_error |}, s)
  /\ status_code (fst (post_generate str_title b64encode exn_str request amb s))
     <> 400.
Proof.
  intros request. unfold post_generate.
  rewrite generate_music_out_of_range by (simpl; lia).
  split; [reflexivity | simpl; lia].
Qed.

End Generate.

End MelodyAPIProofs.

(** ** The other routes of the service *)

Module MelodyRoutesProofs.

Import Py MelodyAPI MelodyRoutes MelodyAPIProofs.
Local Open Scope Z_scope.

(** *** Decimal ids *)

Lemma lit_inj (a b : string) : lit a = lit b -> a = b.
Proof.
  unfold lit. intros H.
  assert (Hl : list_ascii_of_string a = list_ascii_of_string b).
  { revert H. generalize (list_ascii_of_string a) (list_ascii_of_string b).
    induction l as [|x l IH]; intros [|y l']; simpl; try done.
    intros [= Hx Hl]. f_equal; [|by apply IH].
    rewrite <- (ascii_N_embedding x), <- (ascii_N_embedding y). by rewrite Hx. }
  rewrite <- (string_of_list_ascii_of_string a),
          <- (string_of_list_ascii_of_string b). by rewrite Hl.
Qed.

Lemma to_int_not_nil (n : Z) :
  Z.to_int n <> Decimal.Pos Decimal.Nil /\ Z.to_int n <> Decimal.Neg Decimal.Nil.
Proof.
  destruct n as [|p|p]; simpl; split; try discriminate;
    intros [= H]; revert H; apply DecimalPos.Unsigned.to_uint_nonnil.
Qed.

(** [str(n)] tells [n]. *)
Lemma str_of_int_inj (n m : Z) : str_of_int n = str_of_int m -> n = m.
Proof.
  unfold str_of_int. intros H. apply lit_inj in H.
  apply DecimalZ.to_int_inj.
  destruct (to_int_not_nil n) as [Hn1 Hn2].
  destruct (to_int_not_nil m) as [Hm1 Hm2].
  pose proof (NilZero.isi _ Hn1 Hn2) as Hn.
  pose proof (NilZero.isi _ Hm1 Hm2) as Hm.
  rewrite H in Hn. rewrite Hn in Hm. by injection Hm.
Qed.

Lemma track_id_of_inj (n m : Z) : track_id_of n = track_id_of m -> n = m.
Proof.
  unfold track_id_of. intros H. apply app_inv_head in H.
  by apply str_of_int_inj.
Qed.


(** *** One request *)

Lemma generate_mock_audio_length (p : str) (d : Z) :
  0 <= d <= 24347 ->
  exists wav, generate_mock_audio p d = Ok wav
              /\ Z.of_nat (length wav) = 44 + 176400 * d.
Proof.
  intros Hd. eexists. split; [by apply generate_mock_audio_ok|].
  rewrite !length_app, !length_le_bytes, length_replicate.
  change (length (blit "RIFF")) with 4%nat.
  change (length fixed_fields) with 32%nat. lia.
Qed.

Section Generate.

Variable str_title : str -> str.
Variable b64encode : list byte -> str.
Variable exn_str : exn -> str.

Lemma in_range_test (d : Z) :
  5 <= d <= 120 -> (d <? 5) || (120 <? d) = false.
Proof.
  intros H. apply orb_false_iff. split; [apply Z.ltb_ge | apply Z.ltb_ge]; lia.
Qed.

(** What an accepted request with a writable temporary file does. *)
Lemma generate_music_accepted (request : MusicRequest) (amb : ambient)
    (s : service) (tmp_path : str) :
  5 <= duration request <= 120 ->
  tmp_file amb = Ok tmp_path ->
  tmp_write amb = None ->
  exists wav,
    generate_mock_audio (prompt request) (duration request) = Ok wav
    /\ Z.of_nat (length wav) = 44 + 176400 * duration request
    /\ generate_music str_title b64encode exn_str request amb s
       = ({| success := true;
             r_title := generate_title str_title (prompt request);
             r_style := str_title (style request);
             r_mood := str_title (mood request);
             r_tempo := str_title (tempo request);
             r_instrument := str_title (instrument request);
             r_duration := duration request;
             audio_url := Some (lit "/audio/" ++ track_id_of (track_counter s));
             audio_base64 := Some (b64encode wav);
             error := None |},
          {| generated_tracks :=
               <[track_id_of (track_counter s) :=
                   {| t_id := track_id_of (track_counter s);
                      t_title := generate_title str_title (prompt request);
                      t_prompt := prompt request; t_style := style request;
                      t_mood := mood request; t_tempo := tempo request;
                      t_instrument := instrument request;
                      t_duration := duration request;
                      t_file_path := tmp_path;
                      t_created_at := now_isoformat amb |}]>
                 (generated_tracks s);
             track_counter := track_counter s + 1;
             tmp_files := <[tmp_path := wav]> (tmp_files s) |}).
Proof.
  intros Hd Htmp Hwrite.
  destruct (generate_mock_audio_length (prompt request) (duration request))
    as (wav & Hwav & Hlen); [lia|].
  exists wav. split; [exact Hwav|]. split; [exact Hlen|].
  unfold generate_music, generate_music_try.
  rewrite (in_range_test _ Hd), Hwav, Htmp, Hwrite. reflexivity.
Qed.

(** What an accepted request does when [write] raises: no track, and the
    file stays as far as it was written. *)
Lemma generate_music_write_fails (request : MusicRequest) (amb : ambient)
    (s : service) (tmp_path : str) (e : exn) (written : nat) :
  5 <= duration request <= 120 ->
  tmp_file amb = Ok tmp_path ->
  tmp_write amb = Some (e, written) ->
  exists wav,
    generate_mock_audio (prompt request) (duration request) = Ok wav
    /\ generate_music str_title b64encode exn_str request amb s
       = (error_response exn_str e,
          {| generated_tracks := generated_tracks s;
             track_counter := track_counter s + 1;
             tmp_files := <[tmp_path := take written wav]> (tmp_files s) |}).
Proof.
  intros Hd Htmp Hwrite.
  destruct (generate_mock_audio_length (prompt request) (duration request))
    as (wav & Hwav & Hlen); [lia|].
  exists wav. split; [exact Hwav|].
  unfold generate_music, generate_music_try.
  rewrite (in_range_test _ Hd), Hwav, Htmp, Hwrite. reflexivity.
Qed.

(** What a request does to the globals, whatever it is. *)
Lemma generate_music_state (request : MusicRequest) (amb : ambient)
    (s : service) :
  let s' := snd (generate_music str_title b64encode exn_str request amb s) in
  (s' = s
   /\ (duration request < 5 \/ 120 < duration request))
  \/ (5 <= duration request <= 120
      /\ track_counter s' = track_counter s + 1
      /\ ((generated_tracks s' = generated_tracks s
           /\ ((tmp_files s' = tmp_files s
                /\ exists e, tmp_file amb = Raise e)
               \/ exists tmp_path e written wav,
                    tmp_file amb = Ok tmp_path
                    /\ tmp_write amb = Some (e, written)
                    /\ tmp_files s'
                       = <[tmp_path := take written wav]> (tmp_files s)))
          \/ exists tmp_path wav info,
               tmp_file amb = Ok tmp_path
               /\ t_file_path info = tmp_path
               /\ generated_tracks s'
                  = <[track_id_of (track_counter s) := info]> (generated_tracks s)
               /\ tmp_files s' = <[tmp_path := wav]> (tmp_files s))).
Proof.
  cbn zeta.
  destruct (Z_lt_le_dec (duration request) 5) as [Hlo|Hlo].
  { left. rewrite generate_music_out_of_range by lia. split; [done | lia]. }
  destruct (Z_lt_le_dec 120 (duration request)) as [Hhi|Hhi].
  { left. rewrite generate_music_out_of_range by lia. split; [done | lia]. }
  right. split; [lia|].
  destruct (tmp_file amb) as [tmp_path|e] eqn:Htmp.
  - destruct (tmp_write amb) as [[e written]|] eqn:Hwrite.
    + destruct (generate_music_write_fails request amb s tmp_path e written)
        as (wav & _ & ->); [lia | done | done |].
      cbn [snd track_counter generated_tracks tmp_files].
      split; [done|]. left. split; [done|]. right.
      by exists tmp_path, e, written, wav.
    + destruct (generate_music_accepted request amb s tmp_path)
        as (wav & _ & _ & ->); [lia | done | done |].
      cbn [snd track_counter generated_tracks tmp_files].
      split; [done|]. right. do 3 eexists.
      split; [reflexivity|]. split; [|split; reflexivity]. reflexivity.
  - destruct (generate_mock_audio_length (prompt request) (duration request))
      as (wav & Hwav & _); [lia|].
    unfold generate_music, generate_music_try.
    rewrite (in_range_test (duration request)) by lia.
    rewrite Hwav, Htmp.
    cbn [snd track_counter generated_tracks tmp_files].
    split; [done|]. left. split; [done|]. left. by eauto.
Qed.

(** X1. An accepted request whose temporary file is created and
    written answers with [success] and with the url [/audio/track_<n>]
    for the current counter [n], and a [GET] of that track then returns
    that very file: its body is what [generate_mock_audio] returned for
    the prompt and the duration of the request, which has
    44 + 176400 * duration bytes and is what the response carries as
    base64, and its name is [melodyai_track_<n>.wav]. *)
Theorem generate_then_get_audio (request : MusicRequest) (amb : ambient)
    (s : service) (tmp_path : str) :
  5 <= duration request <= 120 ->
  tmp_file amb = Ok tmp_path ->
  tmp_write amb = None ->
  let response := fst (generate_music str_title b64encode exn_str request amb s) in
  let s' := snd (generate_music str_title b64encode exn_str request amb s) in
  let track_id := track_id_of (track_counter s) in
  success response = true
  /\ audio_url response = Some (lit "/audio/" ++ track_id)
  /\ exists wav,
       generate_mock_audio (prompt request) (duration request) = Ok wav
       /\ get_audio track_id s'
          = Ok {| fr_path := tmp_path; fr_media_type := lit "audio/wav";
                  fr_filename := lit "melodyai_" ++ track_id ++ lit ".wav";
                  fr_body := wav |}
       /\ audio_base64 response = Some (b64encode wav)
       /\ Z.of_nat (length wav) = 44 + 176400 * duration request.
Proof.
  intros Hd Htmp Hwrite. cbn zeta.
  destruct (generate_music_accepted request amb s tmp_path Hd Htmp Hwrite)
    as (wav & Hwav & Hlen & ->).
  cbn [fst snd success audio_url audio_base64].
  split; [reflexivity|]. split; [reflexivity|].
  exists wav. split; [exact Hwav|]. split; [|split; [reflexivity | exact Hlen]].
  unfold get_audio. cbn [generated_tracks tmp_files].
  rewrite lookup_insert_eq. cbn [t_file_path].
  by rewrite lookup_insert_eq.
Qed.

(** X2. Every request moves the counter by one exactly when its duration
    is in [5, 120], also when the track then cannot be stored. When the
    temporary file cannot be created, the response is the error response,
    no track is stored and the files are as before. When the file is
    created and [write] raises, the response is the error response and no
    track is stored, but the file stays on disk with what was written of
    the generated audio: no track refers to it. In both cases the id is
    used up. *)
Theorem generate_music_counter (request : MusicRequest) (amb : ambient)
    (s : service) :
  let response := fst (generate_music str_title b64encode exn_str request amb s) in
  let s' := snd (generate_music str_title b64encode exn_str request amb s) in
  track_counter s'
  = (if (5 <=? duration request) && (duration request <=? 120)
     then track_counter s + 1 else track_counter s)
  /\ (forall e, 5 <= duration request <= 120 -> tmp_file amb = Raise e ->
      response = error_response exn_str e
      /\ generated_tracks s' = generated_tracks s
      /\ tmp_files s' = tmp_files s)
  /\ (forall tmp_path e written,
        5 <= duration request <= 120 ->
        tmp_file amb = Ok tmp_path ->
        tmp_write amb = Some (e, written) ->
        response = error_response exn_str e
        /\ generated_tracks s' = generated_tracks s
        /\ exists wav,
             generate_mock_audio (prompt request) (duration request) = Ok wav
             /\ tmp_files s' = <[tmp_path := take written wav]> (tmp_files s)).
Proof.
  cbn zeta. split; [|split].
  - destruct (generate_music_state request amb s) as [[-> Hout] | (Hin & Hc & _)].
    + destruct (5 <=? duration request) eqn:H5; [|done].
      destruct (duration request <=? 120) eqn:H120; [|done].
      apply Z.leb_le in H5. apply Z.leb_le in H120. lia.
    + rewrite Hc.
      assert ((5 <=? duration request) = true) as -> by (apply Z.leb_le; lia).
      assert ((duration request <=? 120) = true) as -> by (apply Z.leb_le; lia).
      reflexivity.
  - intros e Hd Htmp.
    destruct (generate_mock_audio_length (prompt request) (duration request))
      as (wav & Hwav & _); [lia|].
    unfold generate_music, generate_music_try.
    rewrite (in_range_test (duration request)) by lia.
    rewrite Hwav, Htmp. by cbn.
  - intros tmp_path e written Hd Htmp Hwrite.
    destruct (generate_music_write_fails request amb s tmp_path e written
                Hd Htmp Hwrite) as (wav & Hwav & ->).
    cbn [fst snd generated_tracks tmp_files].
    split; [done|]. split; [done|]. by exists wav.
Qed.

(** *** Ids *)

Lemma ids_below_counter_initial : ids_below_counter initial.
Proof. intros track_id info H. cbn [initial generated_tracks] in H. by rewrite lookup_empty in H. Qed.

Lemma ids_below_counter_generate (request : MusicRequest) (amb : ambient)
    (s : service) :
  ids_below_counter s ->
  ids_below_counter (snd (generate_music str_title b64encode exn_str request amb s)).
Proof.
  intros Hinv.
  destruct (generate_music_state request amb s)
    as [[-> _] | (_ & Hc & [(Ht & _) | (tmp_path & wav & info & _ & _ & Ht & _)])];
    [exact Hinv | |];
    intros track_id info' Hk; rewrite Ht in Hk; rewrite Hc.
  - destruct (Hinv track_id info' Hk) as (n & -> & Hn). exists n. split; [done | lia].
  - destruct (decide (track_id_of (track_counter s) = track_id)) as [<-|Hne].
    + exists (track_counter s). split; [done | lia].
    + rewrite lookup_insert_ne in Hk by done.
      destruct (Hinv track_id info' Hk) as (n & -> & Hn). exists n. split; [done | lia].
Qed.

Lemma ids_below_counter_generate_all (requests : list (MusicRequest * ambient))
    (s : service) :
  ids_below_counter s ->
  ids_below_counter (generate_all str_title b64encode exn_str requests s).
Proof.
  revert s. unfold generate_all.
  induction requests as [|ra requests IH]; intros s Hinv; [exact Hinv|].
  cbn [foldl]. apply IH. by apply ids_below_counter_generate.
Qed.

(** The id of the next track is not in use. *)
Lemma next_id_unused (s : service) :
  ids_below_counter s ->
  generated_tracks s !! track_id_of (track_counter s) = None.
Proof.
  intros Hinv.
  destruct (generated_tracks s !! track_id_of (track_counter s)) as [info|] eqn:Hk;
    [|done].
  destruct (Hinv _ _ Hk) as (n & Hn & Hlt).
  apply track_id_of_inj in Hn. lia.
Qed.

(** X3. In every state that a series of requests leads to from the start
    of the service, each stored track has an id [track_<n>] with [n]
    below the counter, so the id of the next track is free: a new track
    never takes the place of an earlier one. *)
Theorem track_ids_never_reused (requests : list (MusicRequest * ambient)) :
  let s := generate_all str_title b64encode exn_str requests initial in
  (forall track_id info,
     generated_tracks s !! track_id = Some info ->
     exists n, track_id = track_id_of n /\ n < track_counter s)
  /\ generated_tracks s !! track_id_of (track_counter s) = None
  /\ forall request amb track_id info,
       generated_tracks s !! track_id = Some info ->
       generated_tracks
         (snd (generate_music str_title b64encode exn_str request amb s))
       !! track_id = Some info.
Proof.
  cbn zeta.
  pose proof (ids_below_counter_generate_all requests initial
                ids_below_counter_initial) as Hinv.
  split; [exact Hinv|]. split; [by apply next_id_unused|].
  intros request amb track_id info Hk.
  destruct (generate_music_state request amb
              (generate_all str_title b64encode exn_str requests initial))
    as [[-> _] | (_ & _ & [(-> & _) | (tmp_path & wav & info' & _ & _ & -> & _)])];
    try exact Hk.
  rewrite lookup_insert_ne; [exact Hk|].
  intros Heq. rewrite <- Heq in Hk.
  by rewrite (next_id_unused _ Hinv) in Hk.
Qed.

(** X4. A request does not disturb the earlier tracks of the service, as
    long as the temporary file it is given is not the file of one of
    them: every track that could be fetched before is fetched with the
    same answer afterwards. *)
Theorem generate_keeps_earlier_tracks
    (requests : list (MusicRequest * ambient)) (request : MusicRequest)
    (amb : ambient) (track_id : str) (response : file_response) :
  let s := generate_all str_title b64encode exn_str requests initial in
  tmp_file amb <> Ok (fr_path response) ->
  get_audio track_id s = Ok response ->
  get_audio track_id
    (snd (generate_music str_title b64encode exn_str request amb s))
  = Ok response.
Proof.
  cbn zeta. intros Hfresh Hget.
  pose proof (ids_below_counter_generate_all requests initial
                ids_below_counter_initial) as Hinv.
  set (s := generate_all str_title b64encode exn_str requests initial) in *.
  unfold get_audio in *.
  destruct (generated_tracks s !! track_id) as [info|] eqn:Hk; [|done].
  destruct (tmp_files s !! t_file_path info) as [data|] eqn:Hf; [|done].
  injection Hget as <-. cbn [fr_path] in Hfresh.
  destruct (generate_music_state request amb s)
    as [[-> _]
       | (_ & _ & [(-> & [(-> & _) | (tmp_path & e & written & wav & Htmp & _ & ->)])
                  | (tmp_path & wav & info' & Htmp & _ & -> & ->)])].
  - by rewrite Hk, Hf.
  - by rewrite Hk, Hf.
  - rewrite Hk. rewrite lookup_insert_ne; [by rewrite Hf|].
    intros Heq. apply Hfresh. by rewrite Htmp, Heq.
  - rewrite lookup_insert_ne.
    + rewrite Hk. rewrite lookup_insert_ne; [by rewrite Hf|].
      intros Heq. apply Hfresh. by rewrite Htmp, Heq.
    + intros Heq. rewrite <- Heq in Hk.
      by rewrite (next_id_unused _ Hinv) in Hk.
Qed.

(** The first track of the service, after one request of five seconds. *)
Lemma first_track_served :
  get_audio (track_id_of 1)
    (generate_all str_title b64encode exn_str
       [(ApiScenario.five_seconds, ApiScenario.writable "/tmp/tmpa.wav")] initial)
  = Ok (ApiScenario.first_track "/tmp/tmpa.wav" 5).
Proof.
  unfold generate_all. cbn [foldl fst snd].
  destruct (generate_music_accepted ApiScenario.five_seconds
              (ApiScenario.writable "/tmp/tmpa.wav") initial (lit "/tmp/tmpa.wav"))
    as (wav & Hwav & _ & ->); [simpl; lia | reflexivity | reflexivity |].
  unfold get_audio. cbn [snd generated_tracks tmp_files initial track_counter].
  rewrite lookup_insert_eq. cbn [t_file_path]. rewrite lookup_insert_eq.
  unfold ApiScenario.first_track, ApiScenario.silence.
  change (generate_mock_audio [] 5)
    with (generate_mock_audio (prompt ApiScenario.five_seconds)
            (duration ApiScenario.five_seconds)).
  by rewrite Hwav.
Qed.

(** *** Stored tracks and their files *)

Lemma files_exist_generate (request : MusicRequest) (amb : ambient)
    (s : service) :
  files_exist s ->
  files_exist (snd (generate_music str_title b64encode exn_str request amb s)).
Proof.
  intros Hinv.
  destruct (generate_music_state request amb s)
    as [[-> _]
       | (_ & _ & [(Ht & [(Hf & _) | (tmp_path & e & written & wav & _ & _ & Hf)])
                  | (tmp_path & wav & info & _ & Hp & Ht & Hf)])];
    [exact Hinv | | |];
    intros track_id info' Hk; rewrite Ht in Hk; rewrite Hf.
  - by apply (Hinv track_id).
  - destruct (decide (tmp_path = t_file_path info')) as [->|Hne].
    + rewrite lookup_insert_eq. by eexists.
    + rewrite lookup_insert_ne by done. by apply (Hinv track_id).
  - destruct (decide (tmp_path = t_file_path info')) as [->|Hne].
    + rewrite lookup_insert_eq. by eexists.
    + rewrite lookup_insert_ne by done.
      destruct (decide (track_id_of (track_counter s) = track_id)) as [<-|Hid].
      * rewrite lookup_insert_eq in Hk. injection Hk as <-. by rewrite Hp in Hne.
      * rewrite lookup_insert_ne in Hk by done. by apply (Hinv track_id).
Qed.

Lemma files_exist_generate_all (requests : list (MusicRequest * ambient))
    (s : service) :
  files_exist s ->
  files_exist (generate_all str_title b64encode exn_str requests s).
Proof.
  revert s. unfold generate_all.
  induction requests as [|ra requests IH]; intros s Hinv; [exact Hinv|].
  cbn [foldl]. apply IH. by apply files_exist_generate.
Qed.

(** X5. As long as only the service touches its files, a [GET] of a
    track is answered with 200 if the track was ever stored and with 404
    if not, in every state that requests lead to from the start; it is
    never answered with another status. *)
Theorem get_audio_status_reachable (requests : list (MusicRequest * ambient))
    (track_id : str) :
  let s := generate_all str_title b64encode exn_str requests initial in
  get_audio_status track_id s
  = if bool_decide (is_Some (generated_tracks s !! track_id)) then 200 else 404.
Proof.
  cbn zeta.
  assert (Hinv : files_exist (generate_all str_title b64encode exn_str requests initial)).
  { apply files_exist_generate_all. intros k info H.
    cbn [initial generated_tracks] in H. by rewrite lookup_empty in H. }
  unfold get_audio_status, get_audio.
  destruct (generated_tracks _ !! track_id) as [info|] eqn:Hk.
  - destruct (Hinv track_id info Hk) as [data ->].
    by rewrite bool_decide_eq_true_2 by (by eexists).
  - by rewrite bool_decide_eq_false_2 by (by intros [? ?]).
Qed.

End Generate.

(** *** At concrete requests *)

(** The same for a request of five seconds that finds an empty service
    and a writable disk. *)
Lemma generate_then_get_audio_five_seconds :
  (5 <= duration ApiScenario.five_seconds <= 120
   /\ tmp_file (ApiScenario.writable "/tmp/tmpa.wav") = Ok (lit "/tmp/tmpa.wav")
   /\ tmp_write (ApiScenario.writable "/tmp/tmpa.wav") = None)
  /\ let response :=
       fst (generate_music ApiScenario.same ApiScenario.no_base64
              ApiScenario.no_text ApiScenario.five_seconds
              (ApiScenario.writable "/tmp/tmpa.wav") initial) in
     let s' :=
       snd (generate_music ApiScenario.same ApiScenario.no_base64
              ApiScenario.no_text ApiScenario.five_seconds
              (ApiScenario.writable "/tmp/tmpa.wav") initial) in
     let track_id := track_id_of (track_counter initial) in
     success response = true
     /\ audio_url response = Some (lit "/audio/" ++ track_id)
     /\ exists wav,
          generate_mock_audio (prompt ApiScenario.five_seconds)
            (duration ApiScenario.five_seconds) = Ok wav
          /\ get_audio track_id s'
             = Ok {| fr_path := lit "/tmp/tmpa.wav";
                     fr_media_type := lit "audio/wav";
                     fr_filename := lit "melodyai_" ++ track_id ++ lit ".wav";
                     fr_body := wav |}
          /\ audio_base64 response = Some (ApiScenario.no_base64 wav)
          /\ Z.of_nat (length wav)
             = 44 + 176400 * duration ApiScenario.five_seconds.
Proof.
  split.
  - split; [simpl; lia | split; reflexivity].
  - apply (generate_then_get_audio
             ApiScenario.same ApiScenario.no_base64 ApiScenario.no_text
             ApiScenario.five_seconds
             (ApiScenario.writable "/tmp/tmpa.wav") initial
             (lit "/tmp/tmpa.wav")).
    + simpl. lia.
    + reflexivity.
    + reflexivity.
Defined.

(** The same for a second request that is given another file than the
    first. *)
Lemma generate_keeps_earlier_tracks_second_request :
  (tmp_file (ApiScenario.writable "/tmp/tmpb.wav")
   <> Ok (fr_path (ApiScenario.first_track "/tmp/tmpa.wav" 5))
   /\ get_audio (track_id_of 1)
        (generate_all
           ApiScenario.same ApiScenario.no_base64 ApiScenario.no_text
           [(ApiScenario.five_seconds, ApiScenario.writable "/tmp/tmpa.wav")]
           initial)
      = Ok (ApiScenario.first_track "/tmp/tmpa.wav" 5))
  /\ get_audio (track_id_of 1)
       (snd (generate_music
               ApiScenario.same ApiScenario.no_base64 ApiScenario.no_text
               ApiScenario.five_seconds
               (ApiScenario.writable "/tmp/tmpb.wav")
               (generate_all
                  ApiScenario.same ApiScenario.no_base64 ApiScenario.no_text
                  [(ApiScenario.five_seconds,
                    ApiScenario.writable "/tmp/tmpa.wav")] initial)))
     = Ok (ApiScenario.first_track "/tmp/tmpa.wav" 5).
Proof.
  split.
  - split; [by vm_compute | apply (first_track_served
               ApiScenario.same ApiScenario.no_base64 ApiScenario.no_text)].
  - apply (generate_keeps_earlier_tracks
             ApiScenario.same ApiScenario.no_base64 ApiScenario.no_text
             [(ApiScenario.five_seconds, ApiScenario.writable "/tmp/tmpa.wav")]
             ApiScenario.five_seconds (ApiScenario.writable "/tmp/tmpb.wav")
             (track_id_of 1) (ApiScenario.first_track "/tmp/tmpa.wav" 5)).
    + by vm_compute.
    + apply (first_track_served
               ApiScenario.same ApiScenario.no_base64 ApiScenario.no_text).
Defined.

(** *** Shutdown *)

Lemma remove_track_file_lookup (remove_fails : str -> bool) (info : track_info)
    (files : gmap str (list byte)) (p : str) :
  remove_track_file remove_fails info files !! p
  = if bool_decide (p = t_file_path info) && truthy p && negb (remove_fails p)
    then None else files !! p.
Proof.
  unfold remove_track_file.
  destruct (decide (p = t_file_path info)) as [->|Hne].
  - rewrite (bool_decide_eq_true_2 (t_file_path info = t_file_path info) eq_refl).
    cbn [andb].
    destruct (truthy (t_file_path info)); cbn [andb]; [|done].
    destruct (files !! t_file_path info) as [data|] eqn:Hf.
    + rewrite bool_decide_eq_true_2 by (by eexists).
      destruct (remove_fails (t_file_path info)); cbn [negb]; [done|].
      apply lookup_delete_eq.
    + rewrite bool_decide_eq_false_2 by (by intros [? ?]).
      by destruct (remove_fails (t_file_path info)).
  - rewrite (bool_decide_eq_false_2 _ Hne). cbn [andb].
    destruct (truthy (t_file_path info) && _); [|done].
    destruct (remove_fails (t_file_path info)); [done|].
    by rewrite lookup_delete_ne.
Qed.

Lemma cleanup_lookup (remove_fails : str -> bool) (tracks : list track_info)
    (files : gmap str (list byte)) (p : str) :
  cleanup remove_fails tracks files !! p
  = if bool_decide (p ∈ t_file_path <$> tracks) && truthy p
       && negb (remove_fails p)
    then None else files !! p.
Proof.
  revert files. unfold cleanup.
  induction tracks as [|info tracks IH]; intros files.
  - cbn [foldl]. rewrite fmap_nil.
    by rewrite (bool_decide_eq_false_2 _ (not_elem_of_nil p)).
  - cbn [foldl]. rewrite IH, remove_track_file_lookup, fmap_cons.
    destruct (decide (p ∈ t_file_path <$> tracks)) as [Hin|Hnin].
    + rewrite (bool_decide_eq_true_2 _ Hin).
      rewrite (bool_decide_eq_true_2 (p ∈ t_file_path info :: (t_file_path <$> tracks)))
        by (by apply list_elem_of_further).
      cbn [andb].
      destruct (truthy p && negb (remove_fails p)) eqn:Hc; [done|].
      rewrite <- andb_assoc, Hc. by rewrite andb_false_r.
    + rewrite (bool_decide_eq_false_2 _ Hnin). cbn [andb].
      destruct (decide (p = t_file_path info)) as [Heq|Hne].
      * rewrite (bool_decide_eq_true_2 _ Heq).
        rewrite (bool_decide_eq_true_2 (p ∈ t_file_path info :: (t_file_path <$> tracks)))
          by (rewrite Heq; apply list_elem_of_here).
        reflexivity.
      * rewrite (bool_decide_eq_false_2 _ Hne).
        rewrite (bool_decide_eq_false_2 (p ∈ t_file_path info :: (t_file_path <$> tracks)));
          [done|].
        intros Hin. apply elem_of_cons in Hin as [?|?]; done.
Qed.

Lemma stored_paths (s : service) (p : str) :
  p ∈ t_file_path <$> (snd <$> map_to_list (generated_tracks s))
  <-> exists track_id info,
        generated_tracks s !! track_id = Some info /\ t_file_path info = p.
Proof.
  rewrite list_elem_of_fmap. split.
  - intros (info & -> & Hin). apply list_elem_of_fmap in Hin as ([k info'] & -> & Hin).
    apply elem_of_map_to_list in Hin. by exists k, info'.
  - intros (k & info & Hk & <-). exists info. split; [done|].
    apply list_elem_of_fmap. exists (k, info). split; [done|].
    by apply elem_of_map_to_list.
Qed.

(** X6. The shutdown removes the file of every stored track that has a
    path and whose removal does not fail, and leaves every other file as
    it is: the files of no track, and the files whose removal fails. The
    order in which the tracks are visited makes no difference. *)
Theorem shutdown_removes_track_files (remove_fails : str -> bool) (s : service) :
  (forall track_id info,
     generated_tracks s !! track_id = Some info ->
     truthy (t_file_path info) = true ->
     remove_fails (t_file_path info) = false ->
     tmp_files (shutdown remove_fails s) !! t_file_path info = None)
  /\ (forall p,
        (forall track_id info,
           generated_tracks s !! track_id = Some info -> t_file_path info <> p) ->
        tmp_files (shutdown remove_fails s) !! p = tmp_files s !! p)
  /\ (forall p,
        remove_fails p = true ->
        tmp_files (shutdown remove_fails s) !! p = tmp_files s !! p)
  /\ (forall tracks tracks' files,
        tracks ≡ₚ tracks' ->
        cleanup remove_fails tracks files = cleanup remove_fails tracks' files).
Proof.
  split; [|split; [|split]].
  - intros track_id info Hk Hp Hrf. cbn [shutdown tmp_files].
    rewrite cleanup_lookup, Hp, Hrf.
    rewrite bool_decide_eq_true_2; [done|].
    apply stored_paths. by exists track_id, info.
  - intros p Hp. cbn [shutdown tmp_files]. rewrite cleanup_lookup.
    rewrite bool_decide_eq_false_2; [done|].
    intros (k & info & Hk & Heq)%stored_paths. by apply (Hp k info).
  - intros p Hrf. cbn [shutdown tmp_files]. rewrite cleanup_lookup, Hrf.
    by rewrite andb_false_r.
  - intros tracks tracks' files Hperm. apply map_eq. intros p.
    rewrite !cleanup_lookup.
    assert (Hiff : p ∈ t_file_path <$> tracks <-> p ∈ t_file_path <$> tracks')
      by (by rewrite Hperm).
    destruct (decide (p ∈ t_file_path <$> tracks)) as [Hin|Hnin].
    + rewrite (bool_decide_eq_true_2 _ Hin).
      by rewrite (bool_decide_eq_true_2 _ (proj1 Hiff Hin)).
    + rewrite (bool_decide_eq_false_2 _ Hnin).
      rewrite bool_decide_eq_false_2; [done|]. intros Hin. by apply Hnin, Hiff.
Qed.

(** *** The header of the generated file *)

(** X7. For every duration that the generator accepts, the first 44 bytes
    are a PCM WAV header: the tags [RIFF], [WAVE], [fmt ] and [data] at
    offsets 0, 8, 12 and 36, a format chunk of 16 bytes, format 1 (PCM),
    2 channels, 44100 samples per second, 16 bits per sample, and the byte
    rate and block size that follow from these. *)
Theorem generate_mock_audio_header (p : str) (d : Z) :
  0 <= d <= 24347 ->
  exists wav,
    generate_mock_audio p d = Ok wav
    /\ take 4 wav = blit "RIFF"
    /\ take 4 (drop 8 wav) = blit "WAVE"
    /\ take 4 (drop 12 wav) = blit "fmt "
    /\ from_bytes (take 4 (drop 16 wav)) = 16
    /\ from_bytes (take 2 (drop 20 wav)) = 1
    /\ from_bytes (take 2 (drop 22 wav)) = 2
    /\ from_bytes (take 4 (drop 24 wav)) = 44100
    /\ from_bytes (take 4 (drop 28 wav)) = 44100 * 2 * 16 / 8
    /\ from_bytes (take 2 (drop 32 wav)) = 2 * 16 / 8
    /\ from_bytes (take 2 (drop 34 wav)) = 16
    /\ take 4 (drop 36 wav) = blit "data".
Proof.
  intros Hd. eexists. split; [by apply generate_mock_audio_ok|].
  pose proof (length_le_bytes 4 (36 + 176400 * d)) as Hlen.
  destruct (le_bytes 4 (36 + 176400 * d)) as [|b0 [|b1 [|b2 [|b3 [|b4 l]]]]];
    try discriminate Hlen.
  vm_compute. repeat split.
Qed.

(** The same for five seconds. *)
Lemma generate_mock_audio_header_at_5 :
  0 <= 5 <= 24347
  /\ exists wav,
       generate_mock_audio [] 5 = Ok wav
       /\ take 4 wav = blit "RIFF"
       /\ take 4 (drop 8 wav) = blit "WAVE"
       /\ take 4 (drop 12 wav) = blit "fmt "
       /\ from_bytes (take 4 (drop 16 wav)) = 16
       /\ from_bytes (take 2 (drop 20 wav)) = 1
       /\ from_bytes (take 2 (drop 22 wav)) = 2
       /\ from_bytes (take 4 (drop 24 wav)) = 44100
       /\ from_bytes (take 4 (drop 28 wav)) = 44100 * 2 * 16 / 8
       /\ from_bytes (take 2 (drop 32 wav)) = 2 * 16 / 8
       /\ from_bytes (take 2 (drop 34 wav)) = 16
       /\ take 4 (drop 36 wav) = blit "data".
Proof. split; [lia | apply (generate_mock_audio_header [] 5); lia]. Defined.

(** *** Titles *)

Lemma split_from_all_space (s : str) :
  Forall (fun c => isspace c = true) s -> split_from [] s = [].
Proof. induction 1 as [|c s Hc Hs IH]; simpl; [done|]. by rewrite Hc. Qed.

(** The words of [s.split()] are not empty and have no whitespace. *)
Lemma split_from_words (cur s : str) :
  Forall (fun c => isspace c = false) cur ->
  Forall (fun w => w <> [] /\ Forall (fun c => isspace c = false) w)
    (split_from cur s).
Proof.
  revert cur. induction s as [|c s IH]; intros cur Hcur; simpl.
  - destruct cur as [|c0 cur]; cbn [truthy]; [apply Forall_nil_2|].
    apply Forall_cons. split; [by split | apply Forall_nil_2].
  - destruct (isspace c) eqn:Hc.
    + destruct cur as [|c0 cur]; cbn [truthy]; [by apply IH|].
      apply Forall_cons. split; [by split | by apply IH].
    + apply IH. apply Forall_app. split; [done|].
      apply Forall_cons. split; [done | apply Forall_nil_2].
Qed.

(** X8. The title of a prompt: a prompt of whitespace only (or empty)
    gets the fixed title; a prompt of one or two words gets these words,
    joined by single spaces and title-cased; a prompt of three or more
    words gets its first three words, title-cased, and three dots, whatever
    follows them. The words are the maximal runs without whitespace. *)
Theorem generate_title_cases (str_title : str -> str) (prompt : str) :
  (Forall (fun c => isspace c = true) prompt ->
   generate_title str_title prompt = lit "AI Generated Track")
  /\ (forall w1, split prompt = [w1] ->
      generate_title str_title prompt = str_title w1)
  /\ (forall w1 w2, split prompt = [w1; w2] ->
      generate_title str_title prompt = str_title (w1 ++ lit " " ++ w2))
  /\ (forall w1 w2 w3 rest, split prompt = w1 :: w2 :: w3 :: rest ->
      generate_title str_title prompt
      = str_title (w1 ++ lit " " ++ w2 ++ lit " " ++ w3) ++ lit "...")
  /\ Forall (fun w => w <> [] /\ Forall (fun c => isspace c = false) w)
       (split prompt).
Proof.
  unfold generate_title. split; [|split; [|split; [|split]]].
  - intros H. unfold split. by rewrite (split_from_all_space prompt H).
  - by intros w1 ->.
  - by intros w1 w2 ->.
  - intros w1 w2 w3 rest ->. by destruct rest as [|w4 [|w5 rest]].
  - apply split_from_words. apply Forall_nil_2.
Qed.

End MelodyRoutesProofs.

(** ** The bot *)

Module BotProofs.

Import Py Bot Scenario BotScenario.
Local Open Scope Z_scope.
Local Open Scope prog_scope.

(** *** Running composed programs *)

Section Run.

Variable E : env.
Variable u : user.

Lemma run_bind {A B} (p : prog A) (f : A -> prog B) (w : world) :
  run E u (bind p f) w =
    match run E u p w with
    | (Ok a, w') => run E u (f a) w'
    | (Raise e, w') => (Raise e, w')
    end.
Proof.
  revert w. induction p as [a|e|X c k IH]; intros w; simpl; try reflexivity.
  destruct (perform E u c w) as [r w']. apply IH.
Qed.

Lemma run_try_except {A} (p : prog A) (h : exn -> prog A) (w : world) :
  run E u (try_except p h) w =
    match run E u p w with
    | (Ok a, w') => (Ok a, w')
    | (Raise e, w') => run E u (h e) w'
    end.
Proof.
  revert w. induction p as [a|e|X c k IH]; intros w; simpl; try reflexivity.
  destruct (perform E u c w) as [r w']. apply IH.
Qed.

Lemma run_call {X} (c : eff X) (w : world) :
  run E u (call c) w = perform E u c w.
Proof.
  unfold call. simpl. destruct (perform E u c w) as [[x|e] w']; reflexivity.
Qed.

Lemma run_lift {A} (r : result A) (w : world) :
  run E u (lift r) w = (r, w).
Proof. by destruct r. Qed.

End Run.

(** *** One selection, step by step *)

(** When [ydl.download] returns without the file, the handler ends
    normally and all that reached the user is a message that was then
    deleted. *)
Lemma silent_download_leaves_no_message (E : env) (u : user) (index : Z)
    (w : world) (l : list video) (v : video) :
  user_data w !! u = Some l ->
  list_index l index = Ok v ->
  files w !! path_join DOWNLOAD_DIR (v_id v ++ lit ".mp3") = None ->
  api_fault E (n_api w) = false ->
  api_fault E (S (n_api w)) = false ->
  api_fault E (S (S (n_api w))) = false ->
  download_result E (n_download w) = NothingWritten ->
  fst (run E u (button_callback index) w) = Ok tt
  /\ trace (snd (run E u (button_callback index) w))
     = trace w ++ [Answered u;
                   TextSent u (next_message w)
                     (Downloading (format_value (v_title v)));
                   DownloadCalled u (v_url v);
                   Deleted u (next_message w)].
Proof.
  intros Hl Hv Hfile Ha0 Ha1 Ha2 Hdl. unfold button_callback.
  rewrite run_bind, run_call. cbn [perform]. unfold request. rewrite Ha0.
  rewrite run_bind, run_call. cbn [perform user_data log tick_api]. rewrite Hl.
  rewrite run_bind, run_lift, Hv.
  rewrite run_bind, run_call. cbn [perform files log tick_api]. rewrite Hfile.
  rewrite bool_decide_eq_false_2 by (by intros [? ?]).
  rewrite run_bind, run_call. cbn [perform]. unfold request.
  cbn [n_api log tick_api fresh_message]. rewrite Ha1.
  rewrite run_try_except, run_bind, run_call.
  cbn [perform n_download log tick_api fresh_message]. rewrite Hdl.
  rewrite run_bind. unfold send_audio.
  rewrite run_try_except, run_bind, run_call.
  cbn [perform files log tick_api fresh_message tick_download]. rewrite Hfile.
  rewrite bool_decide_eq_false_2 by (by intros [? ?]).
  cbn [negb run]. rewrite run_call. cbn [perform]. unfold request.
  cbn [n_api log tick_api fresh_message tick_download]. rewrite Ha2.
  cbn [fst snd trace log tick_api tick_download fresh_message].
  split; [reflexivity|].
  by rewrite <- !app_assoc.
Qed.

(** For a url built by the search handler, the download writes the file
    that the button handler looks for. *)
Lemma downloaded_path_url_of (video_id : str) :
  downloaded_path (url_of video_id)
  = path_join DOWNLOAD_DIR (video_id ++ lit ".mp3").
Proof. reflexivity. Qed.

(** A selection that downloads and delivers leaves its file under the
    sanitized title, not under the id: the place where the next selection
    looks is empty again. *)
Lemma selection_moves_its_download (E : env) (u : user) (index : Z)
    (w : world) (l : list video) (v : video) (title : str) :
  let mp3_path := path_join DOWNLOAD_DIR (v_id v ++ lit ".mp3") in
  let final_path :=
    path_join (dirname mp3_path) (safe_title_filename title ++ lit ".mp3") in
  user_data w !! u = Some l ->
  list_index l index = Ok v ->
  v_title v = Some title ->
  v_url v = url_of (v_id v) ->
  mp3_path <> final_path ->
  files w !! mp3_path = None ->
  api_fault E (n_api w) = false ->
  api_fault E (S (n_api w)) = false ->
  api_fault E (S (S (n_api w))) = false ->
  api_fault E (S (S (S (n_api w)))) = false ->
  download_result E (n_download w) = Downloaded ->
  fs_fault E (n_fs w) = None ->
  fs_fault E (S (n_fs w)) = None ->
  let w' := snd (run E u (button_callback index) w) in
  fst (run E u (button_callback index) w) = Ok tt
  /\ fetches (trace w') = S (fetches (trace w))
  /\ audios u (trace w')
     = audios u (trace w)
       ++ [(final_path, {| a_url := v_url v; a_serial := n_download w |})]
  /\ files w' !! mp3_path = None
  /\ user_data w' = user_data w
  /\ n_api w' = S (S (S (S (n_api w))))
  /\ n_download w' = S (n_download w)
  /\ n_fs w' = S (S (n_fs w)).
Proof.
  intros mp3_path final_path Hl Hv Htitle Hurl Hne Hfile Ha0 Ha1 Ha2 Ha3 Hdl
    Hf0 Hf1.
  cbn zeta. unfold button_callback.
  rewrite run_bind, run_call. cbn [perform]. unfold request. rewrite Ha0.
  rewrite run_bind, run_call. cbn [perform user_data log tick_api]. rewrite Hl.
  rewrite run_bind, run_lift, Hv.
  rewrite run_bind, run_call. cbn [perform files log tick_api].
  fold mp3_path. rewrite Hfile.
  rewrite bool_decide_eq_false_2 by (by intros [? ?]).
  rewrite run_bind, run_call. cbn [perform]. unfold request.
  cbn [n_api log tick_api fresh_message]. rewrite Ha1.
  rewrite run_try_except, run_bind, run_call.
  cbn [perform n_download log tick_api fresh_message]. rewrite Hdl.
  rewrite Hurl, downloaded_path_url_of. fold mp3_path.
  rewrite run_bind. unfold send_audio.
  rewrite run_try_except, run_bind, run_call.
  cbn [perform files set_files log tick_api fresh_message tick_download].
  rewrite lookup_insert_eq.
  rewrite bool_decide_eq_true_2 by (by eexists).
  cbn [negb]. rewrite Htitle. cbn [bind]. fold final_path.
  unfold str_eqb. rewrite bool_decide_eq_false_2 by exact Hne. cbn [negb].
  rewrite run_bind, run_try_except, run_bind, run_call.
  cbn [perform n_fs files set_files log tick_api fresh_message tick_download].
  rewrite Hf0, lookup_insert_eq. cbn [run].
  rewrite run_bind, run_call.
  cbn [perform n_fs files set_files log tick_api fresh_message tick_download tick_fs].
  rewrite Hf1, lookup_insert_eq.
  rewrite run_call. cbn [perform]. unfold request.
  cbn [n_api set_files log tick_api fresh_message tick_download tick_fs].
  rewrite Ha2.
  rewrite run_call. cbn [perform]. unfold request.
  cbn [n_api set_files log tick_api fresh_message tick_download tick_fs].
  rewrite Ha3.
  cbn [fst snd trace files user_data n_api n_download n_fs set_files log
       tick_api fresh_message tick_download tick_fs].
  split; [reflexivity|].
  split; [|split; [|split; [|repeat split]]].
  - unfold fetches. rewrite !List.filter_app, !length_app. simpl. lia.
  - unfold audios. rewrite !omap_app. simpl.
    rewrite bool_decide_eq_true_2 by done. by rewrite !app_nil_r.
  - rewrite lookup_insert_ne by (by apply not_eq_sym).
    by rewrite lookup_delete_eq.
Qed.

(** In an environment where nothing fails, selecting the same result twice
    downloads it twice. *)
Lemma reselection_always_downloads_again (E : env) (u : user) (index : Z)
    (w : world) (l : list video) (v : video) (title : str) :
  (forall n, api_fault E n = false) ->
  (forall n, download_result E n = Downloaded) ->
  (forall n, fs_fault E n = None) ->
  user_data w !! u = Some l ->
  list_index l index = Ok v ->
  v_title v = Some title ->
  v_url v = url_of (v_id v) ->
  path_join DOWNLOAD_DIR (v_id v ++ lit ".mp3")
  <> path_join (dirname (path_join DOWNLOAD_DIR (v_id v ++ lit ".mp3")))
       (safe_title_filename title ++ lit ".mp3") ->
  files w !! path_join DOWNLOAD_DIR (v_id v ++ lit ".mp3") = None ->
  let w1 := snd (run E u (button_callback index) w) in
  let w2 := snd (run E u (button_callback index) w1) in
  fetches (trace w2) = S (S (fetches (trace w))).
Proof.
  intros Hapi Hdl Hfs Hl Hv Htitle Hurl Hne Hfile. cbn zeta.
  destruct (selection_moves_its_download E u index w l v title)
    as (_ & Hf1 & _ & Hfile1 & Hud1 & _); auto.
  destruct (selection_moves_its_download E u index
              (snd (run E u (button_callback index) w)) l v title)
    as (_ & Hf2 & _); auto.
  - by rewrite Hud1.
  - rewrite Hf2. by rewrite Hf1.
Qed.

(** C1, at the failing input: user 7 has one result, the video [abc]
    titled [My Song], and selects it twice. The first selection downloads
    [downloads/abc.mp3], and [send_audio] renames it to
    [downloads/My Song.mp3] before sending; the second selection looks for
    [downloads/abc.mp3] again, does not find it, and downloads once more. *)
Theorem reselection_downloads_again :
  let w0 := started {[ 7 := [song "abc" "My Song"] ]} in
  let w1 := snd (run calm 7 (button_callback 0) w0) in
  let w2 := snd (run calm 7 (button_callback 0) w1) in
  fst (run calm 7 (button_callback 0) w0) = Ok tt
  /\ fetches (trace w1) = 1%nat
  /\ audios 7 (trace w1)
     = [(lit "downloads/My Song.mp3",
         {| a_url := lit "https://youtu.be/abc"; a_serial := 0 |})]
  /\ files w1 !! lit "downloads/abc.mp3" = None
  /\ fst (run calm 7 (button_callback 0) w1) = Ok tt
  /\ fetches (trace w2) = 2%nat
  /\ audios 7 (trace w2)
     = [(lit "downloads/My Song.mp3",
         {| a_url := lit "https://youtu.be/abc"; a_serial := 0 |});
        (lit "downloads/My Song.mp3",
         {| a_url := lit "https://youtu.be/abc"; a_serial := 1 |})].
Proof. vm_compute. repeat split. Qed.

(** C8, at the failing input: user 7 selects a video whose download
    returns without having written the file. [send_audio] returns at its
    first test without a word, the handler deletes its own
    [Downloading] message, and the user is left with nothing: no audio, no
    text, and no exception either. *)
Theorem missing_file_leaves_user_without_message :
  let w0 := started {[ 7 := [song "abc" "My Song"] ]} in
  let w1 := snd (run nothing_written 7 (button_callback 0) w0) in
  fst (run nothing_written 7 (button_callback 0) w0) = Ok tt
  /\ trace w1 = [Answered 7;
                 TextSent 7 0%nat (Downloading (lit "My Song"));
                 DownloadCalled 7 (lit "https://youtu.be/abc");
                 Deleted 7 0%nat]
  /\ audios 7 (trace w1) = []
  /\ screen 7 (trace w1) [] = [].
Proof. vm_compute. repeat split. Qed.


(** *** Selections that cannot be resolved *)

Lemma list_index_out_of_range {A} (l : list A) (i : Z) :
  i < - Z.of_nat (length l) \/ Z.of_nat (length l) <= i ->
  list_index l i = Raise IndexError.
Proof.
  intros H. unfold list_index. cbn zeta.
  destruct (i <? 0) eqn:Hneg.
  - apply Z.ltb_lt in Hneg.
    destruct (0 <=? Z.of_nat (length l) + i) eqn:H0; [|done].
    apply Z.leb_le in H0.
    destruct (Z.of_nat (length l) + i <? Z.of_nat (length l)) eqn:H1; [|done].
    lia.
  - apply Z.ltb_ge in Hneg.
    destruct (0 <=? i) eqn:H0; [|done].
    destruct (i <? Z.of_nat (length l)) eqn:H1; [|done].
    apply Z.ltb_lt in H1. lia.
Qed.

Lemma list_index_in_range {A} (l : list A) (i : Z) :
  0 <= i < Z.of_nat (length l) ->
  exists a, l !! Z.to_nat i = Some a /\ list_index l i = Ok a.
Proof.
  intros H. unfold list_index. cbn zeta.
  destruct (i <? 0) eqn:Hneg; [apply Z.ltb_lt in Hneg; lia|].
  destruct (0 <=? i) eqn:H0; [|apply Z.leb_gt in H0; lia].
  destruct (i <? Z.of_nat (length l)) eqn:H1; [|apply Z.ltb_ge in H1; lia].
  simpl. destruct (l !! Z.to_nat i) as [a|] eqn:Ha; [by exists a|].
  apply lookup_ge_None in Ha. lia.
Qed.

(** C2 (as amended). A selection by a user who has no stored results ends
    in [KeyError], and a selection whose index is neither in
    [[0, len)] nor in [[-len, 0)] ends in [IndexError]. In both cases the
    exception leaves the handler; before it, the callback query was
    answered and nothing else happened: no candidate was resolved, no
    download made, no message sent, no file or stored list touched. (When
    the answer itself cannot be sent, the handler ends there.) *)
Theorem button_callback_unresolved (E : env) (u : user) (index : Z)
    (w : world) (e : exn) :
  (user_data w !! u = None /\ e = KeyError)
  \/ (exists l, user_data w !! u = Some l
                /\ (index < - Z.of_nat (length l) \/ Z.of_nat (length l) <= index)
                /\ e = IndexError) ->
  run E u (button_callback index) w =
    if api_fault E (n_api w)
    then (Raise TelegramError, log (RequestFailed u) (tick_api w))
    else (Raise e, log (Answered u) (tick_api w)).
Proof.
  intros H. unfold button_callback.
  rewrite run_bind, run_call. cbn [perform]. unfold request.
  destruct (api_fault E (n_api w)); [reflexivity|].
  rewrite run_bind, run_call. cbn [perform].
  change (user_data (log (Answered u) (tick_api w))) with (user_data w).
  destruct H as [[Hnone ->] | (l & Hl & Hrange & ->)].
  - by rewrite Hnone.
  - rewrite Hl. rewrite run_bind, run_lift.
    by rewrite (list_index_out_of_range l index Hrange).
Qed.

(** The same for user 8, who has nothing stored, in a world where only
    user 7 has searched. *)
Lemma button_callback_unresolved_no_session :
  ((user_data (started {[ 7 := [song "abc" "My Song"] ]}) !! 8 = None
    /\ KeyError = KeyError)
   \/ (exists l, user_data (started {[ 7 := [song "abc" "My Song"] ]}) !! 8 = Some l
                 /\ (0 < - Z.of_nat (length l) \/ Z.of_nat (length l) <= 0)
                 /\ KeyError = IndexError))
  /\ run calm 8 (button_callback 0) (started {[ 7 := [song "abc" "My Song"] ]})
     = (if api_fault calm (n_api (started {[ 7 := [song "abc" "My Song"] ]}))
        then (Raise TelegramError,
              log (RequestFailed 8) (tick_api (started {[ 7 := [song "abc" "My Song"] ]})))
        else (Raise KeyError,
              log (Answered 8) (tick_api (started {[ 7 := [song "abc" "My Song"] ]})))).
Proof.
  split.
  - left. split; reflexivity.
  - apply (button_callback_unresolved calm 8 0
             (started {[ 7 := [song "abc" "My Song"] ]}) KeyError).
    left. split; reflexivity.
Defined.

(** C2 fails as stated: user 8 never searched and presses a button. The
    handler ends with an uncaught [KeyError], and nothing is shown to the
    user. The same happens, with [IndexError], to user 7 on index 5. *)
Lemma selection_without_session_crashes :
  let w0 := started {[ 7 := [song "abc" "My Song"] ]} in
  fst (run calm 8 (button_callback 0) w0) = Raise KeyError
  /\ screen 8 (trace (snd (run calm 8 (button_callback 0) w0))) [] = []
  /\ fst (run calm 7 (button_callback 5) w0) = Raise IndexError
  /\ screen 7 (trace (snd (run calm 7 (button_callback 5) w0))) [] = [].
Proof. vm_compute. repeat split. Qed.

(** An index from [-len] to [-1] is out of the range of the claim and yet
    resolves: it counts from the end of the list. *)
Lemma negative_index_resolves :
  let w0 := started {[ 7 := [song "abc" "First"; song "xyz" "Last"] ]} in
  fst (run calm 7 (button_callback (-1)) w0) = Ok tt
  /\ audios 7 (trace (snd (run calm 7 (button_callback (-1)) w0)))
     = [(lit "downloads/Last.mp3",
         {| a_url := lit "https://youtu.be/xyz"; a_serial := 0 |})].
Proof. vm_compute. repeat split. Qed.


(** *** Counting downloads *)

Section Fetches.

Variable url : str.

Lemma fetches_of_snoc (tr : list event) (ev : event) :
  fetches_of url (tr ++ [ev])
  = (fetches_of url tr + if is_download_of url ev then 1 else 0)%nat.
Proof.
  unfold fetches_of. rewrite List.filter_app, length_app. simpl.
  by destruct (is_download_of url ev).
Qed.

Lemma fetches_of_request {X} (E : env) (u : user) (x : X) (ev : event)
    (w : world) :
  is_download_of url ev = false ->
  fetches_of url (trace (snd (request E u x ev w))) = fetches_of url (trace w).
Proof.
  intros Hev. unfold request.
  destruct (api_fault E (n_api w)); cbn [snd log trace tick_api];
    rewrite fetches_of_snoc; [simpl | rewrite Hev]; lia.
Qed.

(** One call adds one download to the count when it is [ydl.download],
    and none otherwise. *)
Lemma perform_fetches_of {X} (E : env) (u : user) (c : eff X) (w : world) :
  (fetches_of url (trace (snd (perform E u c w)))
   <= fetches_of url (trace w) + if is_download_call c then 1 else 0)%nat.
Proof.
  destruct c;
    try match goal with
        | |- context [ReplyAudio ?x _ _] => destruct x
        end;
    cbn [perform is_download_call];
    try (rewrite fetches_of_request by done; cbn [fresh_message trace]; lia);
    try (cbn [snd]; lia).
  - cbn [snd log trace tick_search]. rewrite fetches_of_snoc. simpl. lia.
  - destruct (download_result E (n_download w));
      cbn [snd set_files log trace tick_download];
      rewrite fetches_of_snoc; destruct (is_download_of url _); lia.
  - destruct (fs_fault E (n_fs w)); [cbn [snd tick_fs trace]; lia|].
    destruct (files w !! src); cbn [snd tick_fs trace set_files]; lia.
  - destruct (fs_fault E (n_fs w)); [cbn [snd tick_fs trace]; lia|].
    destruct (files w !! p); cbn [snd tick_fs trace]; lia.
  - destruct (user_data w !! u); cbn [snd]; lia.
  - cbn [snd set_user_data trace]. lia.
  - destruct (user_data w !! u); cbn [snd set_user_data trace]; lia.
Qed.

End Fetches.

Lemma fetch_bound_mono {A} (p : prog A) (n m : nat) :
  fetch_bound p n -> (n <= m)%nat -> fetch_bound p m.
Proof.
  revert n m. induction p as [a|e|X c k IH]; intros n m H Hle; simpl in *; try done.
  destruct (is_download_call c).
  - destruct n as [|n]; [done|]. destruct m as [|m]; [lia|].
    intros r. apply (IH r n); [apply H | lia].
  - intros r. apply (IH r n); [apply H | lia].
Qed.

Lemma fetch_bound_bind {A B} (p : prog A) (f : A -> prog B) (n m : nat) :
  fetch_bound p n -> (forall a, fetch_bound (f a) m) ->
  fetch_bound (bind p f) (n + m).
Proof.
  revert n. induction p as [a|e|X c k IH]; intros n H Hf; simpl in *; try done.
  - apply (fetch_bound_mono _ m); [apply Hf | lia].
  - destruct (is_download_call c).
    + destruct n as [|n]; [done|]. simpl. intros r. by apply IH.
    + intros r. by apply IH.
Qed.

Lemma fetch_bound_try_except {A} (p : prog A) (h : exn -> prog A) (n m : nat) :
  fetch_bound p n -> (forall e, fetch_bound (h e) m) ->
  fetch_bound (try_except p h) (n + m).
Proof.
  revert n. induction p as [a|e|X c k IH]; intros n H Hh; simpl in *; try done.
  - apply (fetch_bound_mono _ m); [apply Hh | lia].
  - destruct (is_download_call c).
    + destruct n as [|n]; [done|]. simpl. intros r. by apply IH.
    + intros r. by apply IH.
Qed.

Lemma fetch_bound_call {X} (c : eff X) :
  fetch_bound (call c) (if is_download_call c then 1 else 0).
Proof.
  unfold call. simpl. destruct (is_download_call c); intros [x|e]; exact I.
Qed.

Lemma fetch_bound_lift {A} (r : result A) (n : nat) : fetch_bound (lift r) n.
Proof. by destruct r. Qed.

Lemma send_audio_fetch_bound (file_path : str) (title artist : option str) :
  fetch_bound (send_audio file_path title artist) 0.
Proof.
  unfold send_audio.
  apply (fetch_bound_try_except _ _ 0 0).
  - apply (fetch_bound_bind _ _ 0 0); [apply (fetch_bound_call (IsFile _))|].
    intros is_file. destruct (negb is_file); [exact I|].
    apply (fetch_bound_bind _ _ 0 0); [by destruct title|].
    intros clean_title.
    apply (fetch_bound_bind _ _ 0 0).
    + destruct (negb (str_eqb _ _)); [|exact I].
      apply (fetch_bound_try_except _ _ 0 0).
      * apply (fetch_bound_bind _ _ 0 0); [apply (fetch_bound_call (Rename _ _))|].
        intros _. exact I.
      * intros e. by destruct e.
    + intros final_path.
      apply (fetch_bound_bind _ _ 0 0); [apply (fetch_bound_call (Open _))|].
      intros audio_file. apply (fetch_bound_call (ReplyAudio _ _ _)).
  - intros e.
    apply (fetch_bound_bind _ _ 0 0); [apply (fetch_bound_call (ReplyText _))|].
    intros _. exact I.
Qed.

(** One selection downloads at most once. *)
Lemma button_callback_fetch_bound (index : Z) :
  fetch_bound (button_callback index) 1.
Proof.
  unfold button_callback.
  apply (fetch_bound_bind _ _ 0 1); [apply (fetch_bound_call Answer)|].
  intros _.
  apply (fetch_bound_bind _ _ 0 1); [apply (fetch_bound_call GetResults)|].
  intros search_results.
  apply (fetch_bound_bind _ _ 0 1); [apply fetch_bound_lift|].
  intros video.
  apply (fetch_bound_bind _ _ 0 1); [apply (fetch_bound_call (PathExists _))|].
  intros already. destruct already.
  - apply (fetch_bound_mono _ 0); [apply send_audio_fetch_bound | lia].
  - apply (fetch_bound_bind _ _ 0 1); [apply (fetch_bound_call (ReplyText _))|].
    intros msg.
    apply (fetch_bound_try_except _ _ 1 0).
    + apply (fetch_bound_bind _ _ 1 0); [apply (fetch_bound_call (Download _))|].
      intros _.
      apply (fetch_bound_bind _ _ 0 0); [apply send_audio_fetch_bound|].
      intros _. apply (fetch_bound_call (Delete _)).
    + intros e. apply (fetch_bound_call (EditText _ _ _)).
Qed.

Lemma sum_list_insert (bs : list nat) (i n m : nat) :
  bs !! i = Some n ->
  (sum_list (<[i := m]> bs) + n = sum_list bs + m)%nat.
Proof.
  revert i. induction bs as [|b bs IH]; intros i Hi; [done|].
  destruct i as [|i]; simpl in *.
  - injection Hi as ->. lia.
  - specialize (IH i Hi). lia.
Qed.

Section Interleaving.

Variable E : env.
Variable url : str.

(** Running a handler up to its next awaited request uses up what it
    downloads. *)
Lemma advance_fetches (u : user) (p : prog unit) (n : nat) (w : world) :
  fetch_bound p n ->
  exists m, thread_bound (fst (advance E u p w)) m
            /\ (fetches_of url (trace (snd (advance E u p w))) + m
                <= fetches_of url (trace w) + n)%nat.
Proof.
  revert n w. induction p as [a|e|X c k IH]; intros n w H.
  - exists 0%nat. simpl. split; [exact I | lia].
  - exists 0%nat. simpl. split; [exact I | lia].
  - cbn [advance].
    pose proof (perform_fetches_of url E u c w) as Hc.
    destruct (perform E u c w) as [r w']. cbn [snd] in Hc.
    cbn [fetch_bound] in H.
    assert (Hk : exists n', fetch_bound (k r) n'
              /\ (fetches_of url (trace w') + n' <= fetches_of url (trace w) + n)%nat).
    { destruct (is_download_call c).
      - destruct n as [|n]; [done|]. exists n. split; [apply H | lia].
      - exists n. split; [apply H | lia]. }
    destruct Hk as (n' & Hn' & Hle).
    destruct (is_await c).
    + exists n'. split; [exact Hn' | exact Hle].
    + destruct (IH r n' w' Hn') as (m & Hm & Hle'). exists m. split; [exact Hm | lia].
Qed.

(** The downloads made so far and those still possible never exceed
    what was possible at the start. *)
Lemma resume_fetches (i : nat) (pool : list thread) (bs : list nat) (w : world) :
  Forall2 thread_bound pool bs ->
  exists bs', Forall2 thread_bound (fst (resume E i (pool, w))) bs'
              /\ (fetches_of url (trace (snd (resume E i (pool, w)))) + sum_list bs'
                  <= fetches_of url (trace w) + sum_list bs)%nat.
Proof.
  intros Hb. unfold resume.
  destruct (pool !! i) as [[u p|u r]|] eqn:Hi;
    try (exists bs; split; [exact Hb | simpl; lia]).
  destruct (Forall2_lookup_l _ _ _ _ _ Hb Hi) as (n & Hn & Hpn).
  destruct (advance_fetches u p n w Hpn) as (m & Hm & Hle).
  destruct (advance E u p w) as [t w']. cbn [fst snd] in *.
  exists (<[i := m]> bs). split.
  - by apply Forall2_insert.
  - pose proof (sum_list_insert bs i n m Hn) as Hs. lia.
Qed.

Lemma interleave_fetches (order : list nat) (pool : list thread)
    (bs : list nat) (w : world) :
  Forall2 thread_bound pool bs ->
  (fetches_of url (trace (snd (interleave E order (pool, w))))
   <= fetches_of url (trace w) + sum_list bs)%nat.
Proof.
  revert pool bs w. unfold interleave.
  induction order as [|i order IH]; intros pool bs w Hb; [simpl; lia|].
  cbn [foldl].
  destruct (resume_fetches i pool bs w Hb) as (bs' & Hb' & Hle).
  destruct (resume E i (pool, w)) as [pool' w']. cbn [fst snd] in *.
  specialize (IH pool' bs' w' Hb'). lia.
Qed.

End Interleaving.


(** *** Selections of one video by several users *)

(** When nothing fails and the title does not sanitize to the id, every
    one of a series of selections of the same video, handled one after
    the other, downloads it: each finds [downloads/<id>.mp3] missing,
    because the selection before it has renamed the file. *)
Lemma run_selections_download_each_time (E : env) (v : video) (title : str)
    (picks : list (user * Z)) :
  (forall n, api_fault E n = false) ->
  (forall n, download_result E n = Downloaded) ->
  (forall n, fs_fault E n = None) ->
  v_title v = Some title ->
  v_url v = url_of (v_id v) ->
  path_join DOWNLOAD_DIR (v_id v ++ lit ".mp3")
  <> path_join (dirname (path_join DOWNLOAD_DIR (v_id v ++ lit ".mp3")))
       (safe_title_filename title ++ lit ".mp3") ->
  forall w : world,
    Forall (fun s => exists l, user_data w !! fst s = Some l
                               /\ list_index l (snd s) = Ok v) picks ->
    files w !! path_join DOWNLOAD_DIR (v_id v ++ lit ".mp3") = None ->
    fetches (trace (run_selections E picks w))
    = (fetches (trace w) + length picks)%nat
    /\ files (run_selections E picks w)
       !! path_join DOWNLOAD_DIR (v_id v ++ lit ".mp3") = None.
Proof.
  intros Hapi Hdl Hfs Htitle Hurl Hne. unfold run_selections.
  induction picks as [|[u index] picks IH]; intros w Hpicks Hfile.
  - cbn [foldl length]. split; [lia | exact Hfile].
  - apply Forall_cons in Hpicks as [(l & Hl & Hv) Hpicks].
    cbn [fst snd] in Hl, Hv. cbn [foldl fst snd length].
    destruct (selection_moves_its_download E u index w l v title)
      as (_ & Hf & _ & Hfile' & Hud & _); auto.
    destruct (IH (snd (run E u (button_callback index) w))) as [IH1 IH2].
    + eapply Forall_impl; [exact Hpicks|]. intros s Hs. by rewrite Hud.
    + exact Hfile'.
    + split; [rewrite IH1, Hf; lia | exact IH2].
Qed.

(** C3, at the failing input: users 1 and 2 have the video [abc], titled
    [My Song], as their first result and select it at the same time. The
    two selections are handled one after the other. The first downloads
    [downloads/abc.mp3], which [send_audio] renames before sending; the
    second does not find it and downloads again: two downloads, and each
    user gets the file of another download. With a title that is the id
    nothing is renamed, and the test for the file does what it is there
    for: one download, and both users get its file. *)
Theorem selections_of_two_users_download_twice :
  let url := lit "https://youtu.be/abc" in
  let w0 := started {[ 1 := [song "abc" "My Song"];
                       2 := [song "abc" "My Song"] ]} in
  let w2 := run_selections calm [(1, 0); (2, 0)] w0 in
  let w0' := started {[ 1 := [song "abc" "abc"]; 2 := [song "abc" "abc"] ]} in
  let w2' := run_selections calm [(1, 0); (2, 0)] w0' in
  fetches_of url (trace w2) = 2%nat
  /\ audios 1 (trace w2)
     = [(lit "downloads/My Song.mp3", {| a_url := url; a_serial := 0 |})]
  /\ audios 2 (trace w2)
     = [(lit "downloads/My Song.mp3", {| a_url := url; a_serial := 1 |})]
  /\ fetches_of url (trace w2') = 1%nat
  /\ audios 1 (trace w2')
     = [(lit "downloads/abc.mp3", {| a_url := url; a_serial := 0 |})]
  /\ audios 2 (trace w2')
     = [(lit "downloads/abc.mp3", {| a_url := url; a_serial := 0 |})].
Proof. vm_compute. repeat split. Qed.


(** *** The search loop *)

Lemma format_duration_raises (seconds : option Z) (e : exn) :
  format_duration seconds = Raise e -> e = OverflowError.
Proof.
  unfold format_duration. destruct seconds as [s|]; [|done].
  destruct (s =? 0); [done|].
  destruct (999999999 <? Z.abs (s / 86400)); [|done].
  by intros [= <-].
Qed.

(** [timedelta] takes the seconds that are within 999999999 days. *)
Lemma timedelta_accepts_spec (s : Z) :
  (999999999 <? Z.abs (s / 86400)) = negb (timedelta_accepts s).
Proof.
  unfold timedelta_accepts.
  pose proof (Z.div_mod s 86400 ltac:(lia)) as Hdm.
  pose proof (Z.mod_pos_bound s 86400 ltac:(lia)) as Hm.
  destruct (999999999 <? Z.abs (s / 86400)) eqn:H;
    [apply Z.ltb_lt in H | apply Z.ltb_ge in H];
    symmetry; [apply negb_true_iff, andb_false_iff
              | apply negb_false_iff, andb_true_iff].
  - destruct (Z_lt_le_dec (s / 86400) 0).
    + left. apply Z.leb_gt. lia.
    + right. apply Z.ltb_ge. lia.
  - split; [apply Z.leb_le | apply Z.ltb_lt]; lia.
Qed.

Lemma format_duration_accepts (seconds : option Z) :
  match format_duration seconds with
  | Ok _ =>
      match seconds with Some s => timedelta_accepts s | None => true end = true
  | Raise _ =>
      match seconds with Some s => timedelta_accepts s | None => true end = false
  end.
Proof.
  unfold format_duration. destruct seconds as [s|]; [|done].
  destruct (s =? 0) eqn:H0; [by apply Z.eqb_eq in H0 as ->|].
  rewrite timedelta_accepts_spec. by destruct (timedelta_accepts s).
Qed.

Lemma set_user_data_same (u : user) (l : list video) (w : world) :
  user_data w !! u = Some l ->
  set_user_data (<[u := l]> (user_data w)) w = w.
Proof. intros H. rewrite (insert_id _ _ _ H). by destruct w. Qed.

(** A video that has a title; [keyboard] makes a button for each video
    of a list of these. *)
Lemma keyboard_app (number : Z) (vs ws : list video) :
  Forall (fun v => is_Some (v_title v)) vs ->
  keyboard number (vs ++ ws)
  = keyboard number vs ++ keyboard (number + Z.of_nat (length vs)) ws.
Proof.
  intros Hvs. revert number.
  induction Hvs as [|v vs [title Hv] Hvs IH]; intros number; simpl.
  - by rewrite Z.add_0_r.
  - rewrite Hv, IH. cbn [app]. do 3 f_equal. lia.
Qed.

Lemma keyboard_length (number : Z) (vs : list video) :
  Forall (fun v => is_Some (v_title v)) vs ->
  length (keyboard number vs) = length vs.
Proof.
  intros Hvs. revert number.
  induction Hvs as [|v vs [title Hv] Hvs IH]; intros number; simpl; [done|].
  rewrite Hv. simpl. by rewrite IH.
Qed.

Lemma omap_cons {A B} (f : A -> option B) (x : A) (l : list A) :
  omap f (x :: l)
  = match f x with Some y => y :: omap f l | None => omap f l end.
Proof. reflexivity. Qed.

Section Loop.

Variable E : env.
Variable u : user.

(** The loop appends to the stored list, in order, the candidates among
    the entries, until it has ten or comes to an entry that makes it
    raise. [S n] is the room left: [10 - valid_count]. *)
Lemma run_results_loop (es : list (option entry)) :
  forall (st : loop_state) (w : world) (l : list video) (n : nat),
    user_data w !! u = Some l ->
    valid_count st = 10 - Z.of_nat (S n) ->
    exists new,
      snd (run E u (results_loop es st) w)
      = set_user_data (<[u := l ++ new]> (user_data w)) w
      /\ new `prefix_of` take (S n) (omap candidate es)
      /\ match fst (run E u (results_loop es st) w) with
         | Ok st' =>
             new = take (S n) (omap candidate es)
             /\ Forall (fun v => is_Some (v_title v)) new
             /\ st' = {| text := text st ++ new;
                         buttons := buttons st
                                    ++ keyboard (valid_count st + 1) new;
                         valid_count := valid_count st + Z.of_nat (length new) |}
         | Raise e =>
             (e = OverflowError \/ e = TypeError)
             /\ forallb presentable es = false
         end.
Proof.
  induction es as [|entry rest IH]; intros st w l n Hl Hn.
  - exists []. cbn [results_loop run fst snd]. rewrite app_nil_r.
    split; [by rewrite set_user_data_same|]. split; [apply prefix_nil|].
    split; [done|]. split; [done|].
    destruct st. simpl. rewrite !app_nil_r. f_equal. lia.
  - destruct entry as [e|]; [|exact (IH st w l n Hl Hn)].
    rewrite omap_cons. cbn [results_loop forallb].
    unfold candidate, presentable, age_restricted, usable_id, duration_text.
    destruct (get_default (e_age_limit e) 0) as [age_limit|] eqn:Hage.
    2:{ exists []. cbn [run fst snd andb]. rewrite app_nil_r.
        split; [by rewrite set_user_data_same|].
        split; [apply prefix_nil|]. split; [by right | done]. }
    destruct (18 <=? age_limit) eqn:Hadult.
    { cbn [orb andb]. exact (IH st w l n Hl Hn). }
    cbn [orb]. rewrite run_bind, run_lift.
    pose proof (format_duration_accepts (e_duration e)) as Haccepts.
    destruct (format_duration (e_duration e)) as [d|e'] eqn:Hfmt;
      rewrite Haccepts.
    2:{ exists []. cbn [fst snd andb]. rewrite app_nil_r.
        split; [by rewrite set_user_data_same|].
        split; [apply prefix_nil|].
        split; [left; by apply (format_duration_raises _ _ Hfmt) | done]. }
    cbn [andb].
    destruct (e_id e) as [video_id|]; [|exact (IH st w l n Hl Hn)].
    destruct (truthy video_id) eqn:Hid; cbn [negb];
      [|exact (IH st w l n Hl Hn)].
    rewrite run_bind, run_call. cbn [perform]. rewrite Hl.
    assert (Htitled : match e_title e with Some None => false | _ => true end
                      = match get_default (e_title e) (lit "Unknown") with
                        | Some _ => true
                        | None => false
                        end) by (by destruct (e_title e) as [[?|]|]).
    rewrite Htitled. clear Htitled.
    set (v := {| v_id := video_id;
                 v_title := get_default (e_title e) (lit "Unknown");
                 v_channel := get_default (e_uploader e) (lit "Unknown");
                 v_duration := d; v_url := url_of video_id |}).
    assert (Hv : v_title v = get_default (e_title e) (lit "Unknown"))
      by reflexivity.
    destruct (get_default (e_title e) (lit "Unknown")) as [title|].
    2:{ (* a title that is [None]: the result is stored, then [TypeError] *)
        exists [v]. cbn [run fst snd andb take].
        split; [done|]. split; [by apply prefix_cons, prefix_nil|].
        split; [by right | done]. }
    cbn [andb take].
    destruct (10 <=? valid_count st + 1) eqn:Hfull.
    + (* the tenth result: [break] *)
      apply Z.leb_le in Hfull. assert (n = 0%nat) as -> by lia.
      exists [v]. cbn [run fst snd]. rewrite take_0.
      split; [done|]. split; [done|]. split; [done|].
      split; [by repeat constructor; eexists|].
      cbn [keyboard]. rewrite Hv. simpl. do 2 f_equal.
    + apply Z.leb_gt in Hfull. destruct n as [|n]; [lia|].
      set (st' := {| text := text st ++ [v];
                     buttons := buttons st
                                ++ [button_for (valid_count st + 1) title d];
                     valid_count := valid_count st + 1 |}).
      set (w' := set_user_data (<[u := l ++ [v]]> (user_data w)) w).
      destruct (IH st' w' (l ++ [v]) n) as (new & Hw & Hpre & Hres).
      { subst w'. cbn [user_data set_user_data]. apply lookup_insert_eq. }
      { subst st'. cbn [valid_count]. lia. }
      exists (v :: new). split; [|split].
      * rewrite Hw. subst w'. cbn [user_data set_user_data].
        rewrite insert_insert_eq. by rewrite <- app_assoc.
      * by apply prefix_cons.
      * destruct (fst (run E u (results_loop rest st') w')) as [st''|e''].
        -- destruct Hres as (-> & Htitles & ->). split; [done|].
           split; [constructor; [by eexists | exact Htitles]|].
           subst st'. cbn [text buttons valid_count keyboard length].
           rewrite Hv. rewrite <- !app_assoc. cbn [app].
           f_equal. lia.
        -- exact Hres.
Qed.

End Loop.


(** *** The search handler *)

Section Search.

Variable E : env.
Variable u : user.

Lemma run_edit (m : message_id) (t : notice) (kb : list button) (w : world) :
  run E u (call (EditText m t kb)) w
  = if api_fault E (n_api w)
    then (Raise TelegramError, log (RequestFailed u) (tick_api w))
    else (Ok tt, log (TextEdited u m t kb) (tick_api w)).
Proof. by rewrite run_call. Qed.

(** A search that gets entries from the index: what it stores, and what
    it shows when Telegram takes the edit. *)
Lemma run_search (t : str) (w : world) (es : list (option entry)) :
  truthy t = true ->
  (2 <= length (strip t))%nat ->
  api_fault E (n_api w) = false ->
  search_reply E (n_search w) = Ok (Some {| entries := Some es |}) ->
  es <> [] ->
  let r := run E u (search_and_show_results (Some t)) w in
  let query := strip t in
  let sent :=
    [TextSent u (next_message w) (Searching query);
     Searched u (if existsb is_cjk query then query ++ CJK_HINT else query)] in
  exists new,
    user_data (snd r) = <[u := new]> (user_data w)
    /\ new `prefix_of` surfaced es
    /\ (forallb presentable es = true -> new = surfaced es)
    /\ (forall m shown found kb,
          last (trace (snd r))
          = Some (TextEdited u m (SearchResults shown found) kb) ->
          shown = surfaced es /\ new = surfaced es
          /\ found = Z.of_nat (length shown) /\ kb = keyboard 1 shown
          /\ Forall (fun v => is_Some (v_title v)) shown)
    /\ (api_fault E (S (n_api w)) = false ->
        fst r = Ok tt
        /\ ((new = surfaced es
             /\ Forall (fun v => is_Some (v_title v)) new
             /\ trace (snd r)
                = trace w ++ sent
                  ++ [TextEdited u (next_message w)
                        (if bool_decide (new = []) then AllRestricted
                         else SearchResults new (Z.of_nat (length new)))
                        (keyboard 1 new)])
            \/ (forallb presentable es = false
                /\ trace (snd r)
                   = trace w ++ sent
                     ++ [TextEdited u (next_message w) SearchError []]))).
Proof.
  intros Ht Hlen Hapi Hreply Hes. cbn zeta.
  unfold search_and_show_results. rewrite Ht. cbn [negb].
  assert ((length (strip t) <? 2)%nat = false) as -> by (apply Nat.ltb_ge; lia).
  rewrite run_bind, run_call. cbn [perform]. unfold request.
  cbn [n_api fresh_message]. rewrite Hapi.
  rewrite run_try_except, run_bind, run_call. cbn [perform].
  cbn [n_search log tick_api fresh_message]. rewrite Hreply.
  rewrite run_bind. cbn [run entries].
  change (default [] (Some es)) with es.
  set (w2 := log (Searched u _) _).
  assert (Hud2 : user_data w2 = user_data w) by reflexivity.
  assert (Hn2 : n_api w2 = S (n_api w)) by reflexivity.
  assert (Htr2 : trace w2
                 = trace w
                   ++ [TextSent u (next_message w) (Searching (strip t));
                       Searched u (if existsb is_cjk (strip t)
                                   then strip t ++ CJK_HINT else strip t)]).
  { subst w2. cbn [trace log tick_search tick_api fresh_message].
    by rewrite <- app_assoc. }
  destruct es as [|e0 es']; [done|].
  set (es := e0 :: es') in *.
  rewrite run_bind, run_call. cbn [perform].
  set (w3 := set_user_data _ w2).
  rewrite run_bind.
  destruct (run_results_loop E u es
              {| text := []; buttons := []; valid_count := 0 |} w3 [] 9)
    as (new & Hw & Hpre & Hres).
  { subst w3. cbn [user_data set_user_data]. apply lookup_insert_eq. }
  { reflexivity. }
  destruct (run E u (results_loop es _) w3) as [res w4].
  cbn [fst snd] in Hw, Hres. cbn [app] in Hw.
  assert (Hud4 : user_data w4 = <[u := new]> (user_data w)).
  { rewrite Hw. subst w3. cbn [user_data set_user_data].
    by rewrite insert_insert_eq, Hud2. }
  assert (Htr4 : trace w4 = trace w2) by (by rewrite Hw).
  assert (Hn4 : n_api w4 = S (n_api w)) by (by rewrite Hw).
  exists new.
  assert (Hfin : forall answer kb,
             let r :=
               match run E u (call (EditText (next_message w) answer kb)) w4 with
               | (Ok a, w') => (Ok a, w')
               | (Raise e, w') =>
                   run E u (call (EditText (next_message w) SearchError [])) w'
               end in
             user_data (snd r) = user_data w4
             /\ (api_fault E (S (n_api w)) = false ->
                 fst r = Ok tt
                 /\ trace (snd r)
                    = trace w4 ++ [TextEdited u (next_message w) answer kb])
             /\ (forall m shown found kb',
                   last (trace (snd r))
                   = Some (TextEdited u m (SearchResults shown found) kb') ->
                   answer = SearchResults shown found /\ kb' = kb)).
  { intros answer kb. cbn zeta. rewrite run_edit, Hn4.
    destruct (api_fault E (S (n_api w))).
    - rewrite run_edit.
      destruct (api_fault E (n_api (log (RequestFailed u) (tick_api w4))));
        cbn [fst snd user_data trace log tick_api];
        (split; [reflexivity|]); (split; [intros [=]|]);
        intros m shown found kb'; rewrite last_snoc; intros [=].
    - cbn [fst snd user_data trace log tick_api].
      split; [reflexivity|]. split; [by intros _|].
      intros m shown found kb'. rewrite last_snoc. by intros [= _ -> ->]. }
  assert (Htrace : forall ev,
             trace w4 ++ [ev]
             = trace w
               ++ [TextSent u (next_message w) (Searching (strip t));
                   Searched u (if existsb is_cjk (strip t)
                               then strip t ++ CJK_HINT else strip t)]
               ++ [ev]).
  { intros ev. by rewrite Htr4, Htr2, <- app_assoc. }
  destruct res as [st'|e].
  - destruct Hres as (Hnew & Htitles & ->). cbn [text buttons valid_count app].
    change (0 + 1) with 1. fold (surfaced es) in Hnew.
    assert (Hzero : (0 + Z.of_nat (length new) =? 0) = bool_decide (new = [])).
    { destruct new as [|v new']; [done|].
      rewrite bool_decide_eq_false_2 by done. apply Z.eqb_neq. simpl. lia. }
    rewrite Hzero.
    destruct (bool_decide (new = [])) eqn:Hempty.
    + apply bool_decide_eq_true_1 in Hempty.
      destruct (Hfin AllRestricted []) as (H1 & H2 & H3).
      split; [etrans; [exact H1 | exact Hud4]|].
      split; [exact Hpre|]. split; [intros _; exact Hnew|].
      split; [intros m shown found kb Hlast;
              by destruct (H3 m shown found kb Hlast)|].
      intros Hok. destruct (H2 Hok) as [H2a H2b].
      split; [exact H2a|]. left. split; [exact Hnew|]. split; [exact Htitles|].
      etrans; [exact H2b|]. rewrite Htrace. by rewrite Hempty.
    + apply bool_decide_eq_false_1 in Hempty.
      destruct (Hfin (SearchResults new (0 + Z.of_nat (length new)))
                  (keyboard 1 new)) as (H1 & H2 & H3).
      split; [etrans; [exact H1 | exact Hud4]|].
      split; [exact Hpre|]. split; [intros _; exact Hnew|].
      split.
      * intros m shown found kb Hlast.
        destruct (H3 m shown found kb Hlast) as [[= <- <-] ->].
        repeat split; try exact Hnew; try exact Htitles; lia.
      * intros Hok. destruct (H2 Hok) as [H2a H2b].
        split; [exact H2a|]. left. split; [exact Hnew|].
        split; [exact Htitles|].
        etrans; [exact H2b|]. by rewrite Htrace.
  - destruct Hres as [He Hbad]. rewrite run_edit, Hn4.
    destruct (api_fault E (S (n_api w)));
      cbn [fst snd user_data trace log tick_api];
      (split; [exact Hud4|]); (split; [exact Hpre|]);
      (split; [intros Hgood; congruence|]);
      (split; [intros m shown found kb; rewrite last_snoc; intros [=]|]);
      intros Hok; try discriminate.
    split; [reflexivity|]. right. split; [exact Hbad|]. apply Htrace.
Qed.

(** With no entry from the index, the handler says so and leaves the
    stored list alone. *)
Lemma run_search_empty (t : str) (w : world) :
  truthy t = true ->
  (2 <= length (strip t))%nat ->
  api_fault E (n_api w) = false ->
  search_reply E (n_search w) = Ok (Some {| entries := Some [] |}) ->
  let w' := snd (run E u (search_and_show_results (Some t)) w) in
  user_data w' = user_data w
  /\ forall m shown found kb,
       last (trace w') <> Some (TextEdited u m (SearchResults shown found) kb).
Proof.
  intros Ht Hlen Hapi Hreply. cbn zeta.
  unfold search_and_show_results. rewrite Ht. cbn [negb].
  assert ((length (strip t) <? 2)%nat = false) as -> by (apply Nat.ltb_ge; lia).
  rewrite run_bind, run_call. cbn [perform]. unfold request.
  cbn [n_api fresh_message]. rewrite Hapi.
  rewrite run_try_except, run_bind, run_call. cbn [perform].
  cbn [n_search log tick_api fresh_message]. rewrite Hreply.
  rewrite run_bind. cbn [run entries].
  change (default [] (Some [])) with (@nil (option entry)). cbv iota.
  set (w2 := log (Searched u _) _).
  rewrite run_edit.
  destruct (api_fault E (n_api w2)); try rewrite run_edit;
    try destruct (api_fault E (n_api (log (RequestFailed u) (tick_api w2))));
    cbn [snd user_data trace log tick_api];
    (split; [reflexivity|]); intros m shown found kb;
    rewrite last_snoc; discriminate.
Qed.

End Search.

Lemma candidate_usable (entry : option entry) (v : video) :
  candidate entry = Some v ->
  truthy (v_id v) = true
  /\ exists e, entry = Some e /\ age_restricted e = false
               /\ e_id e = Some (v_id v).
Proof.
  unfold candidate, usable_id. destruct entry as [e|]; [|done].
  destruct (age_restricted e) eqn:Hage; [done|].
  destruct (e_id e) as [video_id|] eqn:Hid; [|done].
  destruct (truthy video_id) eqn:Htr; [|done].
  intros [= <-]. cbn [v_id]. split; [exact Htr|]. by exists e.
Qed.

(** What the specification's list is made of. *)
Lemma surfaced_properties (es : list (option entry)) :
  (length (surfaced es) <= 10)%nat
  /\ surfaced es `sublist_of` omap candidate es
  /\ forall v, v ∈ surfaced es ->
       truthy (v_id v) = true
       /\ exists e, Some e ∈ es /\ age_restricted e = false
                    /\ e_id e = Some (v_id v).
Proof.
  unfold surfaced. split; [rewrite length_take; lia|].
  split; [apply sublist_take|].
  intros v Hv.
  assert (Hin : v ∈ omap candidate es).
  { apply elem_of_take in Hv as (i & Hi & _). by apply list_elem_of_lookup_2 in Hi. }
  apply list_elem_of_omap in Hin as (entry & Hentry & Hc).
  destruct (candidate_usable entry v Hc) as (Hid & e & -> & Hage & He).
  split; [exact Hid|]. by exists e.
Qed.

Lemma keyboard_callbacks (number : Z) (vs : list video) :
  Forall (fun v => is_Some (v_title v)) vs ->
  map b_callback (keyboard number vs)
  = seqZ (number - 1) (Z.of_nat (length vs)).
Proof.
  intros Hvs. revert number.
  induction Hvs as [|v vs [title Hv] Hvs IH]; intros number; [reflexivity|].
  cbn [keyboard map length]. rewrite Hv. cbn [map]. rewrite IH.
  rewrite (seqZ_cons (number - 1)) by lia.
  cbn [button_for b_callback]. f_equal. f_equal; lia.
Qed.








End BotProofs.

(** ** More on the bot *)

Module BotMoreProofs.

Import Py Bot BotMore Scenario BotScenario SanitizerProofs BotProofs.
Local Open Scope Z_scope.
Local Open Scope prog_scope.

(** *** Programs that make only certain calls *)

Section OnlyCalls.

Variable Q : forall X, eff X -> Prop.

Lemma only_calls_bind {A B} (p : prog A) (f : A -> prog B) :
  only_calls Q p -> (forall a, only_calls Q (f a)) -> only_calls Q (bind p f).
Proof.
  induction p as [a|e|X c k IH]; intros Hp Hf; simpl in *; try done.
  destruct Hp as [Hc Hk]. split; [exact Hc|]. intros r. by apply IH.
Qed.

Lemma only_calls_try_except {A} (p : prog A) (h : exn -> prog A) :
  only_calls Q p -> (forall e, only_calls Q (h e)) ->
  only_calls Q (try_except p h).
Proof.
  induction p as [a|e|X c k IH]; intros Hp Hh; simpl in *; try done.
  destruct Hp as [Hc Hk]. split; [exact Hc|]. intros r. by apply IH.
Qed.

Lemma only_calls_call {X} (c : eff X) : Q X c -> only_calls Q (call c).
Proof. intros Hc. simpl. split; [exact Hc|]. by intros [x|e]. Qed.

Lemma only_calls_lift {A} (r : result A) : only_calls Q (lift r).
Proof. by destruct r. Qed.

(** A relation between worlds that every allowed call respects is
    respected by the whole run. *)
Lemma run_only_calls (E : env) (u : user) (R : world -> world -> Prop) {A}
    (p : prog A) :
  (forall w, R w w) ->
  (forall w1 w2 w3, R w1 w2 -> R w2 w3 -> R w1 w3) ->
  (forall X (c : eff X) w, Q X c -> R w (snd (perform E u c w))) ->
  only_calls Q p ->
  forall w, R w (snd (run E u p w)).
Proof.
  intros Hrefl Htrans Hstep.
  induction p as [a|e|X c k IH]; intros Hp w; simpl; try apply Hrefl.
  destruct Hp as [Hc Hk]. specialize (Hstep X c w Hc).
  destruct (perform E u c w) as [r w']. cbn [snd] in Hstep.
  apply (Htrans w w'); [exact Hstep|]. by apply IH.
Qed.

End OnlyCalls.

Lemma only_calls_impl (Q Q' : forall X, eff X -> Prop) {A} (p : prog A) :
  (forall X c, Q X c -> Q' X c) -> only_calls Q p -> only_calls Q' p.
Proof.
  intros HQ. induction p as [a|e|X c k IH]; simpl; try done.
  intros [Hc Hk]. split; [by apply HQ|]. intros r. by apply IH.
Qed.


(** *** What each call leaves alone *)

Lemma fetches_snoc (tr : list event) (ev : event) :
  fetches (tr ++ [ev]) = (fetches tr + if is_download ev then 1 else 0)%nat.
Proof.
  unfold fetches. rewrite List.filter_app, length_app. simpl.
  by destruct (is_download ev).
Qed.

Lemma request_frame {X} (E : env) (u : user) (x : X) (ev : event) (w : world) :
  files (snd (request E u x ev w)) = files w
  /\ user_data (snd (request E u x ev w)) = user_data w
  /\ trace (snd (request E u x ev w))
     = trace w ++ [if api_fault E (n_api w) then RequestFailed u else ev].
Proof. unfold request. by destruct (api_fault E (n_api w)). Qed.

Lemma perform_leaves_files {X} (E : env) (u : user) (c : eff X) (w : world) :
  leaves_files c ->
  files (snd (perform E u c w)) = files w
  /\ fetches (trace (snd (perform E u c w))) = fetches (trace w).
Proof.
  intros Hc.
  destruct c;
    try match goal with
        | |- context [ReplyAudio ?x _ _] => destruct x
        end;
    try done; cbn [perform];
    try match goal with
        | |- context [request E u ?x ?ev ?w0] =>
            destruct (request_frame E u x ev w0) as (Hf & _ & Ht);
            rewrite Hf, Ht, fetches_snoc; cbn [fresh_message files trace];
            destruct (api_fault E (n_api w0)); cbn [is_download];
            split; (reflexivity || lia)
        end.
  - cbn [snd files log tick_search trace]. split; [done|].
    rewrite fetches_snoc. cbn. lia.
  - destruct (fs_fault E (n_fs w)); [split; reflexivity|].
    destruct (files w !! p); split; reflexivity.
  - destruct (user_data w !! u); split; reflexivity.
  - destruct (user_data w !! u); split; reflexivity.
Qed.

Lemma perform_leaves_user_data {X} (E : env) (u : user) (c : eff X) (w : world) :
  leaves_user_data c -> user_data (snd (perform E u c w)) = user_data w.
Proof.
  intros Hc.
  destruct c;
    try match goal with
        | |- context [ReplyAudio ?x _ _] => destruct x
        end;
    try done; cbn [perform];
    try match goal with
        | |- context [request E u ?x ?ev ?w0] =>
            by destruct (request_frame E u x ev w0) as (_ & -> & _)
        end.
  - by destruct (download_result E (n_download w)).
  - destruct (fs_fault E (n_fs w)); [done|]. by destruct (files w !! src).
  - destruct (fs_fault E (n_fs w)); [done|]. by destruct (files w !! p).
  - by destruct (user_data w !! u).
Qed.


(** *** What the handlers call *)

Section Handlers.

Variable Q : forall X, eff X -> Prop.

Lemma send_audio_only_calls (file_path : str) (title artist : option str) :
  Q _ (IsFile file_path) ->
  (forall dst, Q _ (Rename file_path dst)) ->
  (forall p, Q _ (Open p)) ->
  (forall audio title,
     Q _ (ReplyAudio audio (slice_to 64 (safe_title_filename title))
            (performer_of artist))) ->
  Q _ (ReplyText SendFailed) ->
  only_calls Q (send_audio file_path title artist).
Proof.
  intros HisFile Hrename Hopen Haudio Htext. unfold send_audio.
  apply only_calls_try_except.
  - apply only_calls_bind; [by apply only_calls_call|].
    intros is_file. destruct (negb is_file); [exact I|].
    destruct title as [title|]; [|exact I]. cbn [bind].
    apply only_calls_bind.
    + destruct (negb (str_eqb _ _)); [|exact I].
      apply only_calls_try_except.
      * apply only_calls_bind; [by apply only_calls_call|]. intros _. exact I.
      * intros e. by destruct e.
    + intros final_path.
      apply only_calls_bind; [by apply only_calls_call|].
      intros audio_file. by apply only_calls_call.
  - intros e. apply only_calls_bind; [by apply only_calls_call|].
    intros _. exact I.
Qed.

Lemma results_loop_only_calls (es : list (option entry)) (st : loop_state) :
  (forall v, Q _ (AppendResult v)) -> only_calls Q (results_loop es st).
Proof.
  intros Happend. revert st.
  induction es as [|entry rest IH]; intros st; [exact I|].
  destruct entry as [e|]; cbn [results_loop]; [|apply IH].
  destruct (get_default (e_age_limit e) 0) as [age_limit|]; [|exact I].
  destruct (18 <=? age_limit); [apply IH|].
  apply only_calls_bind; [apply only_calls_lift|]. intros duration.
  destruct (e_id e) as [video_id|]; [|apply IH].
  destruct (negb (truthy video_id)); [apply IH|].
  apply only_calls_bind; [by apply only_calls_call|]. intros _.
  destruct (get_default (e_title e) (lit "Unknown")) as [title|]; [|exact I].
  destruct (10 <=? valid_count st + 1); [exact I | apply IH].
Qed.

Lemma search_only_calls (message_text : option str) :
  (forall t, Q _ (ReplyText t)) ->
  (forall q, Q _ (ExtractInfo q)) ->
  (forall m t kb, Q _ (EditText m t kb)) ->
  Q _ (SetResults []) ->
  (forall v, Q _ (AppendResult v)) ->
  only_calls Q (search_and_show_results message_text).
Proof.
  intros Htext Hsearch Hedit Hset Happend. unfold search_and_show_results.
  destruct message_text as [t|]; [|exact I].
  destruct (negb (truthy t)); [exact I|].
  destruct (length (strip t) <? 2)%nat.
  { apply only_calls_bind; [by apply only_calls_call|]. intros _. exact I. }
  apply only_calls_bind; [by apply only_calls_call|]. intros searching_msg.
  apply only_calls_try_except; [|intros e; by apply only_calls_call].
  apply only_calls_bind; [by apply only_calls_call|]. intros search_info.
  apply only_calls_bind; [by destruct search_info|]. intros info.
  destruct (default [] (entries info)) as [|e0 es'] eqn:Hes;
    [by apply only_calls_call|].
  apply only_calls_bind; [by apply only_calls_call|]. intros _.
  apply only_calls_bind; [by apply results_loop_only_calls|]. intros st.
  destruct (valid_count st =? 0); by apply only_calls_call.
Qed.

Lemma button_callback_only_calls (index : Z) :
  Q _ Answer ->
  Q _ GetResults ->
  (forall p, Q _ (PathExists p)) ->
  (forall p, Q _ (IsFile p)) ->
  (forall src dst, Q _ (Rename src dst)) ->
  (forall p, Q _ (Open p)) ->
  (forall audio title artist,
     Q _ (ReplyAudio audio (slice_to 64 (safe_title_filename title))
            (performer_of artist))) ->
  (forall t, Q _ (ReplyText t)) ->
  (forall url, Q _ (Download url)) ->
  (forall m, Q _ (Delete m)) ->
  (forall m t kb, Q _ (EditText m t kb)) ->
  only_calls Q (button_callback index).
Proof.
  intros Hanswer Hget Hexists HisFile Hrename Hopen Haudio Htext Hdl Hdel Hedit.
  assert (Hsend : forall file_path title artist,
             only_calls Q (send_audio file_path title artist))
    by (intros; by apply send_audio_only_calls).
  unfold button_callback.
  apply only_calls_bind; [by apply only_calls_call|]. intros _.
  apply only_calls_bind; [by apply only_calls_call|]. intros search_results.
  apply only_calls_bind; [apply only_calls_lift|]. intros video.
  apply only_calls_bind; [by apply only_calls_call|]. intros already.
  destruct already; [apply Hsend|].
  apply only_calls_bind; [by apply only_calls_call|]. intros msg.
  apply only_calls_try_except; [|intros e; by apply only_calls_call].
  apply only_calls_bind; [by apply only_calls_call|]. intros _.
  apply only_calls_bind; [apply Hsend|]. intros _. by apply only_calls_call.
Qed.

End Handlers.

(** X9. Whatever the message, the index and Telegram do, the search
    handler leaves the download directory as it is and never calls
    [ydl.download]. *)
Theorem search_leaves_files (E : env) (u : user) (message_text : option str)
    (w : world) :
  files (snd (run E u (search_and_show_results message_text) w)) = files w
  /\ fetches (trace (snd (run E u (search_and_show_results message_text) w)))
     = fetches (trace w).
Proof.
  apply (run_only_calls (fun X c => leaves_files c) E u
           (fun w w' => files w' = files w
                        /\ fetches (trace w') = fetches (trace w))).
  - done.
  - intros w1 w2 w3 [H1 H2] [H3 H4]. split; congruence.
  - intros X c w0 Hc. by apply perform_leaves_files.
  - by apply search_only_calls.
Qed.

(** X10. Whatever the index pressed and whatever fails, the button
    handler leaves the stored result lists of all users as they are. *)
Theorem button_callback_leaves_results (E : env) (u : user) (index : Z)
    (w : world) :
  user_data (snd (run E u (button_callback index) w)) = user_data w.
Proof.
  apply (run_only_calls (fun X c => leaves_user_data c) E u
           (fun w w' => user_data w' = user_data w)).
  - done.
  - intros w1 w2 w3 H1 H2. congruence.
  - intros X c w0 Hc. by apply perform_leaves_user_data.
  - by apply button_callback_only_calls.
Qed.


(** *** What is handed to Telegram as audio *)

Lemma continues_refl (P : event -> Prop) (w : world) : continues P w w.
Proof. exists []. by rewrite app_nil_r. Qed.

Lemma continues_same (P : event -> Prop) (w w' : world) :
  trace w' = trace w -> continues P w w'.
Proof. intros H. exists []. by rewrite app_nil_r. Qed.

Lemma continues_trans (P : event -> Prop) (w1 w2 w3 : world) :
  continues P w1 w2 -> continues P w2 w3 -> continues P w1 w3.
Proof.
  intros (n1 & H1 & F1) (n2 & H2 & F2). exists (n1 ++ n2).
  split; [by rewrite H2, H1, app_assoc | by apply Forall_app].
Qed.

Lemma perform_sends_ok {X} (E : env) (u : user) (c : eff X) (w : world) :
  sends_ok c -> continues audio_ok w (snd (perform E u c w)).
Proof.
  intros Hc.
  destruct c;
    try match goal with
        | |- context [ReplyAudio ?x _ _] => destruct x
        end;
    cbn [perform];
    try match goal with
        | |- context [request E u ?x ?ev ?w0] =>
            destruct (request_frame E u x ev w0) as (_ & _ & Ht);
            eexists; split; [exact Ht|];
            destruct (api_fault E (n_api w0)); by apply Forall_singleton
        end.
  - exists [Searched u query]. split; [done | by apply Forall_singleton].
  - exists [DownloadCalled u url].
    split; [by destruct (download_result E (n_download w))
           | by apply Forall_singleton].
  - by apply continues_same.
  - by apply continues_same.
  - apply continues_same. destruct (fs_fault E (n_fs w)); [done|].
    by destruct (files w !! src).
  - apply continues_same. destruct (fs_fault E (n_fs w)); [done|].
    by destruct (files w !! p).
  - apply continues_same. by destruct (user_data w !! u).
  - by apply continues_same.
  - apply continues_same. by destruct (user_data w !! u).
Qed.

Lemma safe_title_filename_safe (title : str) :
  Forall (fun c => unsafe_char c = false) (safe_title_filename title).
Proof.
  unfold safe_title_filename. cbn zeta.
  destruct (truthy (cleaned_title title)).
  - apply Forall_take, cleaned_title_safe.
  - by repeat constructor.
Qed.

Lemma tags_ok_send_audio (title : str) (artist : option str) :
  tags_ok (slice_to 64 (safe_title_filename title)) (performer_of artist).
Proof.
  unfold tags_ok, slice_to. split; [rewrite length_take; lia|].
  split.
  - apply existsb_false_Forall, Forall_take, safe_title_filename_safe.
  - destruct artist as [[|c artist]|]; [done| |done]. cbn [performer_of truthy].
    split; [done | unfold slice_to; rewrite length_take; lia].
Qed.

(** X11. Every audio message that the button handler hands to Telegram
    carries a title of at most 64 characters without any of the nine
    characters that the sanitizer removes, and a performer that is either
    absent or non-empty and of at most 64 characters. *)
Theorem button_callback_audio_tags (E : env) (u : user) (index : Z)
    (w : world) :
  continues audio_ok w (snd (run E u (button_callback index) w)).
Proof.
  apply (run_only_calls (fun X c => sends_ok c) E u (continues audio_ok)).
  - apply continues_refl.
  - apply continues_trans.
  - intros X c w0 Hc. by apply perform_sends_ok.
  - apply button_callback_only_calls; try done.
    intros audio title artist. apply tags_ok_send_audio.
Qed.


(** *** Searches that show no keyboard *)

(** X12. A message without text, or with the empty text, is ignored: the
    handler does nothing at all. A text that strips to fewer than two
    characters (so also one of whitespace only) gets the notice about the
    minimum length, and the failure of that request leaves the handler
    as [TelegramError]. In no case is the index queried, a file touched or
    a stored list changed. *)
Theorem search_rejects_short (E : env) (u : user) (message_text : option str)
    (w : world) :
  match message_text with
  | Some t => (length (strip t) < 2)%nat
  | None => True
  end ->
  let r := run E u (search_and_show_results message_text) w in
  user_data (snd r) = user_data w
  /\ files (snd r) = files w
  /\ n_search (snd r) = n_search w
  /\ match message_text with
     | Some (_ :: _) =>
         fst r = (if api_fault E (n_api w) then Raise TelegramError else Ok tt)
         /\ trace (snd r)
            = trace w ++ [if api_fault E (n_api w) then RequestFailed u
                          else TextSent u (next_message w) MinLength]
     | _ => r = (Ok tt, w)
     end.
Proof.
  intros Hshort. cbn zeta. unfold search_and_show_results.
  destruct message_text as [[|c t]|]; [done| |done].
  cbn [truthy negb].
  assert ((length (strip (c :: t)) <? 2)%nat = true) as ->
    by (by apply Nat.ltb_lt).
  rewrite run_bind, run_call. cbn [perform]. unfold request.
  cbn [n_api fresh_message].
  by destruct (api_fault E (n_api w)).
Qed.

Lemma search_rejects_short_single_letter :
  (length (strip (lit "a")) < 2)%nat
  /\ let r := run calm 7 (search_and_show_results (Some (lit "a"))) (started ∅) in
     user_data (snd r) = user_data (started ∅)
     /\ files (snd r) = files (started ∅)
     /\ n_search (snd r) = n_search (started ∅)
     /\ fst r = (if api_fault calm (n_api (started ∅))
                 then Raise TelegramError else Ok tt)
        /\ trace (snd r)
           = trace (started ∅)
             ++ [if api_fault calm (n_api (started ∅)) then RequestFailed 7
                 else TextSent 7 (next_message (started ∅)) MinLength].
Proof.
  split; [vm_compute; lia|].
  apply (search_rejects_short calm 7 (Some (lit "a")) (started ∅)).
  vm_compute. lia.
Defined.








(** The loop on entries of which one has a duration that [timedelta]
    refuses, after entries that the loop gets past and before the tenth
    result: the candidates before it are stored, and the exception
    leaves the loop. *)
Lemma run_results_loop_raises (E : env) (u : user) (bad : entry)
    (rest : list (option entry)) (seconds : Z) (good : list (option entry)) :
  age_restricted bad = false ->
  e_duration bad = Some seconds ->
  timedelta_accepts seconds = false ->
  forall (st : loop_state) (w : world) (l : list video) (n : nat),
    user_data w !! u = Some l ->
    valid_count st = 10 - Z.of_nat (S n) ->
    forallb presentable good = true ->
    (length (omap candidate good) <= n)%nat ->
    exists e,
      run E u (results_loop (good ++ Some bad :: rest) st) w
      = (Raise e,
         set_user_data (<[u := l ++ omap candidate good]> (user_data w)) w).
Proof.
  intros Hage Hbad Hrefused.
  induction good as [|entry good IH]; intros st w l n Hl Hn Hgood Hroom.
  - cbn [app results_loop omap]. unfold age_restricted in Hage.
    change (omap candidate []) with (@nil video).
    rewrite app_nil_r, set_user_data_same by exact Hl.
    destruct (get_default (e_age_limit bad) 0) as [age_limit|];
      [|by exists TypeError].
    rewrite Hage. rewrite run_bind, run_lift.
    pose proof (format_duration_accepts (e_duration bad)) as Haccepts.
    rewrite Hbad in Haccepts |- *.
    destruct (format_duration (Some seconds)) as [d|e]; [congruence|].
    by exists e.
  - cbn [forallb] in Hgood. apply andb_true_iff in Hgood as [Hentry Hgood].
    rewrite omap_cons in Hroom |- *.
    destruct entry as [e0|]; [|exact (IH st w l n Hl Hn Hgood Hroom)].
    cbn [app results_loop].
    set (stored := omap candidate good) in *.
    unfold candidate, presentable, age_restricted, usable_id, duration_text
      in Hentry, Hroom |- *.
    destruct (get_default (e_age_limit e0) 0) as [age_limit|]; [|done].
    destruct (18 <=? age_limit) eqn:Hage0.
    { exact (IH st w l n Hl Hn Hgood Hroom). }
    cbn [orb] in Hentry. rewrite run_bind, run_lift.
    pose proof (format_duration_accepts (e_duration e0)) as Haccepts.
    destruct (format_duration (e_duration e0)) as [d|e'] eqn:Hd;
      rewrite Haccepts in Hentry; [|done].
    cbn [andb] in Hentry.
    destruct (e_id e0) as [video_id|];
      [|exact (IH st w l n Hl Hn Hgood Hroom)].
    destruct (truthy video_id) eqn:Hid; cbn [negb];
      [|exact (IH st w l n Hl Hn Hgood Hroom)].
    rewrite run_bind, run_call. cbn [perform]. rewrite Hl.
    cbn [length] in Hroom. destruct n as [|n]; [lia|].
    set (v := {| v_id := video_id; v_url := url_of video_id |}).
    assert (Htitled : exists title,
               get_default (e_title e0) (lit "Unknown") = Some title)
      by (destruct (e_title e0) as [[title|]|]; [by eexists|done|by eexists]).
    destruct Htitled as [title Htitle]. rewrite Htitle.
    assert ((10 <=? valid_count st + 1) = false) as ->
      by (apply Z.leb_gt; lia).
    destruct (IH {| text := text st ++ [v];
                    buttons := buttons st
                               ++ [button_for (valid_count st + 1) title d];
                    valid_count := valid_count st + 1 |}
                (set_user_data (<[u := l ++ [v]]> (user_data w)) w)
                (l ++ [v]) n) as [e IHe].
    + cbn [user_data set_user_data]. apply lookup_insert_eq.
    + cbn [valid_count]. lia.
    + exact Hgood.
    + lia.
    + exists e. rewrite IHe.
      cbn [user_data set_user_data]. rewrite insert_insert_eq.
      by rewrite <- app_assoc.
Qed.



(** *** Selections, case by case *)

Lemma perform_no_download {X} (E : env) (u : user) (c : eff X) (w : world) :
  no_download c ->
  continues not_downloading w (snd (perform E u c w))
  /\ n_download (snd (perform E u c w)) = n_download w.
Proof.
  intros Hc.
  destruct c;
    try match goal with
        | |- context [ReplyAudio ?x _ _] => destruct x
        end;
    try done; cbn [perform];
    try match goal with
        | |- context [request E u ?x ?ev ?w0] =>
            unfold request; destruct (api_fault E (n_api w0));
            (split; [|reflexivity]);
            eexists; (split; [reflexivity|]); by apply Forall_singleton
        end.
  - split; [|reflexivity].
    exists [Searched u query]. split; [done | by apply Forall_singleton].
  - split; [by apply continues_same | reflexivity].
  - split; [by apply continues_same | reflexivity].
  - destruct (fs_fault E (n_fs w)); [by split; [apply continues_same|]|].
    destruct (files w !! src); by split; [apply continues_same|].
  - destruct (fs_fault E (n_fs w)); [by split; [apply continues_same|]|].
    destruct (files w !! p); by split; [apply continues_same|].
  - destruct (user_data w !! u); by split; [apply continues_same|].
  - split; [by apply continues_same | reflexivity].
  - destruct (user_data w !! u); by split; [apply continues_same|].
Qed.

(** X16. When the file [downloads/<id>.mp3] of the selected result is
    there, the handler neither calls [ydl.download] nor announces a
    download, whatever else happens. *)
Theorem cached_file_is_not_downloaded (E : env) (u : user) (index : Z)
    (w : world) (l : list video) (v : video) :
  user_data w !! u = Some l ->
  list_index l index = Ok v ->
  is_Some (files w !! path_join DOWNLOAD_DIR (v_id v ++ lit ".mp3")) ->
  continues not_downloading w (snd (run E u (button_callback index) w))
  /\ n_download (snd (run E u (button_callback index) w)) = n_download w.
Proof.
  intros Hl Hv Hfile. unfold button_callback.
  rewrite run_bind, run_call. cbn [perform]. unfold request.
  destruct (api_fault E (n_api w)).
  { cbn [snd]. split; [|reflexivity].
    exists [RequestFailed u]. split; [done | by apply Forall_singleton]. }
  rewrite run_bind, run_call. cbn [perform user_data log tick_api]. rewrite Hl.
  rewrite run_bind, run_lift, Hv.
  rewrite run_bind, run_call. cbn [perform files log tick_api].
  rewrite bool_decide_eq_true_2 by exact Hfile.
  set (w1 := log (Answered u) (tick_api w)).
  assert (H1 : continues not_downloading w w1
               /\ n_download w1 = n_download w).
  { split; [|reflexivity].
    exists [Answered u]. split; [done | by apply Forall_singleton]. }
  assert (H2 : continues not_downloading w1
                 (snd (run E u (send_audio
                                  (path_join DOWNLOAD_DIR (v_id v ++ lit ".mp3"))
                                  (v_title v) (v_channel v)) w1))
               /\ n_download (snd (run E u (send_audio
                                  (path_join DOWNLOAD_DIR (v_id v ++ lit ".mp3"))
                                  (v_title v) (v_channel v)) w1))
                  = n_download w1).
  { apply (run_only_calls (fun X c => no_download c) E u
             (fun w w' => continues not_downloading w w'
                          /\ n_download w' = n_download w)).
    - intros w0. split; [apply continues_refl | reflexivity].
    - intros wa wb wc [Ha Ha'] [Hb Hb']. split; [|congruence].
      by apply (continues_trans _ wa wb wc).
    - intros X c w0 Hc. by apply perform_no_download.
    - by apply send_audio_only_calls. }
  destruct H1 as [H1 H1'], H2 as [H2 H2'].
  split; [|congruence]. by apply (continues_trans _ w w1).
Qed.

Lemma cached_file_is_not_downloaded_abc :
  let w0 := cached {[ 7 := [song "abc" "My Song"] ]} "downloads/abc.mp3"
              (earlier "abc") in
  is_Some (files w0 !! lit "downloads/abc.mp3")
  /\ continues not_downloading w0 (snd (run calm 7 (button_callback 0) w0))
  /\ n_download (snd (run calm 7 (button_callback 0) w0)) = n_download w0.
Proof.
  split; [by eexists|].
  exact (cached_file_is_not_downloaded calm 7 0
           (cached {[ 7 := [song "abc" "My Song"] ]} "downloads/abc.mp3"
              (earlier "abc"))
           [song "abc" "My Song"] (song "abc" "My Song")
           eq_refl eq_refl (ex_intro _ (earlier "abc") eq_refl)).
Defined.











(** *** The sanitizer, applied again *)

Lemma sub_class_empty_id (cls : N -> bool) (s : str) :
  Forall (fun c => cls c = false) s -> sub_class_empty cls s = s.
Proof.
  unfold sub_class_empty.
  induction 1 as [|c s Hc Hs IH]; simpl; [done|]. by rewrite Hc, IH.
Qed.

Lemma sub_ws_from_id (s : str) :
  forall b : bool,
    single_spaced s = true ->
    (b = true -> forall c, head s = Some c -> isspace c = false) ->
    sub_ws_from b s = s.
Proof.
  induction s as [|c s IH]; intros b Hs Hb; [done|].
  cbn [sub_ws_from]. cbn [single_spaced] in Hs.
  apply andb_true_iff in Hs as [Hc Hs].
  destruct (isspace c) eqn:Hsp.
  - destruct b; [by rewrite (Hb eq_refl c eq_refl) in Hsp|].
    apply andb_true_iff in Hc as [Hc Hnext].
    apply N.eqb_eq in Hc. subst c. f_equal.
    apply IH; [exact Hs|]. intros _ d Hd.
    destruct s as [|d' s]; [done|]. cbn [head] in Hd.
    injection Hd as ->. by apply negb_true_iff in Hnext.
  - f_equal. apply IH; [exact Hs | done].
Qed.

Lemma lstrip_id (s : str) :
  (forall c, head s = Some c -> isspace c = false) -> lstrip s = s.
Proof.
  destruct s as [|c s]; [done|]. intros H. simpl. by rewrite (H c eq_refl).
Qed.

Lemma rstrip_id (s : str) :
  (forall c, last s = Some c -> isspace c = false) -> rstrip s = s.
Proof.
  intros H. unfold rstrip. rewrite lstrip_id; [apply reverse_involutive|].
  intros c. rewrite head_reverse. apply H.
Qed.

Lemma lstrip_split (s : str) :
  exists k, s = k ++ lstrip s /\ Forall (fun c => isspace c = true) k.
Proof.
  induction s as [|c s (k & IH & Hk)]; simpl; [by exists []|].
  destruct (isspace c) eqn:Hc.
  - exists (c :: k). split; [simpl; by rewrite <- IH | by constructor].
  - by exists [].
Qed.

Lemma rstrip_nonempty (s : str) (c : N) :
  head s = Some c -> isspace c = false -> rstrip s <> [].
Proof.
  intros Hhead Hc Hnil. unfold rstrip in Hnil.
  destruct (lstrip_split (reverse s)) as (k & Hk & Hsp).
  assert (Hl : lstrip (reverse s) = []).
  { apply (f_equal reverse) in Hnil.
    by rewrite reverse_involutive in Hnil. }
  rewrite Hl, app_nil_r in Hk.
  assert (Hin : c ∈ k).
  { rewrite <- Hk, elem_of_reverse. destruct s as [|d s]; [done|].
    injection Hhead as ->. apply list_elem_of_here. }
  rewrite Forall_forall in Hsp. specialize (Hsp c Hin). congruence.
Qed.

Lemma length_rstrip (s : str) : (length (rstrip s) <= length s)%nat.
Proof.
  destruct (rstrip_prefix s) as [k Hk].
  rewrite Hk at 2. rewrite length_app. lia.
Qed.

(** A text that has none of the nine characters, in which whitespace is
    single spaces, and which does not begin with one, is only stripped
    on the right. *)
Lemma cleaned_title_of_clean (s : str) :
  Forall (fun c => unsafe_char c = false) s ->
  single_spaced s = true ->
  (forall c, head s = Some c -> isspace c = false) ->
  cleaned_title s = rstrip s.
Proof.
  intros Hsafe Hsingle Hhead. unfold cleaned_title, sub_ws, strip.
  rewrite (sub_class_empty_id _ _ Hsafe).
  rewrite (sub_ws_from_id s false Hsingle) by done.
  by rewrite (lstrip_id s Hhead).
Qed.

Lemma safe_title_filename_clean (title : str) :
  Forall (fun c => unsafe_char c = false) (safe_title_filename title)
  /\ single_spaced (safe_title_filename title) = true
  /\ exists c, head (safe_title_filename title) = Some c /\ isspace c = false.
Proof.
  split; [apply safe_title_filename_safe|].
  unfold safe_title_filename. cbn zeta.
  pose proof (cleaned_title_single_spaced title) as Hsingle.
  pose proof (head_strip (sub_ws (sub_class_empty unsafe_char title))) as Hhead.
  fold (cleaned_title title) in Hhead.
  destruct (cleaned_title title) as [|c s] eqn:Hc; cbn [truthy].
  - split; [reflexivity|]. by eexists.
  - split.
    + apply (single_spaced_prefix _ (drop 80 (c :: s))).
      unfold slice_to. by rewrite take_drop.
    + exists c. split; [reflexivity|]. by apply Hhead.
Qed.

(** X20. Sanitizing a sanitized title strips it on the right and does
    nothing else; a third pass changes nothing any more; and when the
    cleaned title has at most 80 characters, so that nothing was cut,
    the second pass changes nothing either. *)
Theorem safe_title_filename_again (title : str) :
  let once := safe_title_filename title in
  safe_title_filename once = rstrip once
  /\ safe_title_filename (safe_title_filename once) = safe_title_filename once
  /\ ((length (cleaned_title title) <= 80)%nat ->
      safe_title_filename once = once).
Proof.
  cbn zeta.
  assert (Hlen : (length (safe_title_filename title) <= 80)%nat).
  { unfold safe_title_filename, slice_to. cbn zeta.
    destruct (truthy (cleaned_title title)); [rewrite length_take; lia|].
    vm_compute. lia. }
  assert (Hagain : forall s,
             Forall (fun c => unsafe_char c = false) s ->
             single_spaced s = true ->
             (exists c, head s = Some c /\ isspace c = false) ->
             (length s <= 80)%nat ->
             safe_title_filename s = rstrip s).
  { intros s Hsafe Hsingle (c & Hhead & Hc) Hs.
    unfold safe_title_filename. cbn zeta.
    rewrite (cleaned_title_of_clean s Hsafe Hsingle)
      by (intros d Hd; congruence).
    pose proof (rstrip_nonempty s c Hhead Hc) as Hne.
    pose proof (length_rstrip s) as Hle.
    destruct (rstrip s) as [|d r] eqn:Hr; [done|]. cbn [truthy].
    unfold slice_to. apply take_ge. lia. }
  destruct (safe_title_filename_clean title) as (Hsafe & Hsingle & Hhead).
  pose proof (Hagain _ Hsafe Hsingle Hhead Hlen) as Honce.
  split; [exact Honce|]. split.
  - rewrite Honce.
    destruct (safe_title_filename_clean (safe_title_filename title))
      as (Hsafe2 & Hsingle2 & Hhead2).
    rewrite Honce in Hsafe2, Hsingle2, Hhead2.
    rewrite (Hagain _ Hsafe2 Hsingle2 Hhead2)
      by (pose proof (length_rstrip (safe_title_filename title)); lia).
    apply rstrip_id. intros c. apply last_rstrip.
  - intros Hshort. rewrite Honce. apply rstrip_id.
    unfold safe_title_filename, slice_to. cbn zeta.
    destruct (cleaned_title title) as [|c s] eqn:Hc; cbn [truthy].
    + intros c [= <-]. reflexivity.
    + rewrite take_ge by exact Hshort. rewrite <- Hc.
      intros d. apply last_strip.
Qed.

(** *** Paths *)

Lemma drop_while_app {A} (f : A -> bool) (l1 l2 : list A) (x : A) :
  Forall (fun a => f a = true) l1 -> f x = false ->
  drop_while f (l1 ++ x :: l2) = x :: l2.
Proof.
  intros H Hx. induction H as [|a l1 Ha Hl IH]; simpl; [by rewrite Hx|].
  by rewrite Ha.
Qed.

Lemma dirname_flat (name : str) :
  Forall (fun c => c <> SLASH) name ->
  dirname (lit "downloads/" ++ name) = lit "downloads".
Proof.
  intros Hname. unfold dirname.
  change (lit "downloads/") with (lit "downloads" ++ [SLASH]).
  replace (reverse ((lit "downloads" ++ [SLASH]) ++ name))
    with (reverse name ++ SLASH :: reverse (lit "downloads"))
    by (rewrite !reverse_app; reflexivity).
  rewrite drop_while_app.
  - reflexivity.
  - apply Forall_reverse. eapply Forall_impl; [exact Hname|].
    intros c Hc. cbn beta. apply negb_true_iff. by apply N.eqb_neq.
  - reflexivity.
Qed.

Lemma path_join_flat (name : str) :
  (forall c, head name = Some c -> c <> SLASH) ->
  path_join (lit "downloads") name = lit "downloads/" ++ name.
Proof.
  intros Hhead. unfold path_join, startswith_sep.
  destruct name as [|c name]; [reflexivity|]. cbn [head].
  assert ((c =? SLASH)%N = false) as -> by (apply N.eqb_neq; by apply Hhead).
  reflexivity.
Qed.

(** X21. For an id without a slash, the handler looks for
    [downloads/<id>.mp3] and [send_audio] wants to send
    [downloads/<sanitized title>.mp3]; the two are the same path, so that
    nothing is renamed, exactly when the id is the sanitized title. *)
Theorem final_path_of_flat (video_id title : str) :
  Forall (fun c => c <> SLASH) video_id ->
  path_join DOWNLOAD_DIR (video_id ++ lit ".mp3")
  = lit "downloads/" ++ video_id ++ lit ".mp3"
  /\ final_path_of video_id title
     = lit "downloads/" ++ safe_title_filename title ++ lit ".mp3"
  /\ (path_join DOWNLOAD_DIR (video_id ++ lit ".mp3")
      = final_path_of video_id title
      <-> video_id = safe_title_filename title).
Proof.
  intros Hid.
  assert (Hmp3 : path_join DOWNLOAD_DIR (video_id ++ lit ".mp3")
                 = lit "downloads/" ++ video_id ++ lit ".mp3").
  { apply path_join_flat. intros c Hc.
    destruct video_id as [|d video_id].
    - injection Hc as <-. done.
    - injection Hc as <-. by inversion Hid. }
  assert (Hfinal : final_path_of video_id title
                   = lit "downloads/" ++ safe_title_filename title
                     ++ lit ".mp3").
  { unfold final_path_of. rewrite Hmp3, dirname_flat.
    - apply path_join_flat. intros c Hc.
      pose proof (safe_title_filename_safe title) as Hsafe.
      destruct (safe_title_filename title) as [|d s].
      + injection Hc as <-. done.
      + injection Hc as <-. inversion Hsafe as [|? ? Hd _]; subst.
        intros ->. done.
    - apply Forall_app. split; [exact Hid|]. by repeat constructor. }
  split; [exact Hmp3|]. split; [exact Hfinal|].
  rewrite Hmp3, Hfinal. split.
  - intros H. apply app_inv_head in H. by apply app_inv_tail in H.
  - by intros ->.
Qed.

Lemma final_path_of_flat_abc :
  Forall (fun c => c <> SLASH) (lit "abc")
  /\ path_join DOWNLOAD_DIR (lit "abc" ++ lit ".mp3")
     = lit "downloads/" ++ lit "abc" ++ lit ".mp3"
  /\ final_path_of (lit "abc") (lit "My Song")
     = lit "downloads/" ++ safe_title_filename (lit "My Song") ++ lit ".mp3"
  /\ (path_join DOWNLOAD_DIR (lit "abc" ++ lit ".mp3")
      = final_path_of (lit "abc") (lit "My Song")
      <-> lit "abc" = safe_title_filename (lit "My Song")).
Proof.
  assert (H : Forall (fun c => c <> SLASH) (lit "abc"))
    by (repeat constructor; discriminate).
  split; [exact H|].
  exact (final_path_of_flat (lit "abc") (lit "My Song") H).
Defined.

(** *** Durations *)

(** X22. [format_duration] shows the seconds of the day and drops the
    days: adding whole days to a duration does not change its text, and
    a duration of whole days reads 0:00, although zero seconds read as
    the empty text. *)
Theorem format_duration_drops_days (s k : Z) :
  0 < s < 86400 ->
  -999999999 <= k <= 999999999 ->
  format_duration (Some (s + 86400 * k)) = format_duration (Some s)
  /\ (k <> 0 -> format_duration (Some (86400 * k)) = Ok (lit "0:00"))
  /\ format_duration (Some 0) = Ok [].
Proof.
  intros Hs Hk.
  assert (Hdiv : forall r, 0 <= r < 86400 -> (r + 86400 * k) / 86400 = k).
  { intros r Hr. rewrite (Z.mul_comm 86400 k), Z.div_add by lia.
    rewrite Z.div_small by lia. lia. }
  assert (Hmod : forall r, 0 <= r < 86400 -> (r + 86400 * k) mod 86400 = r).
  { intros r Hr. rewrite (Z.mul_comm 86400 k), Z.mod_add by lia.
    apply Z.mod_small. lia. }
  split; [|split; [|reflexivity]].
  - unfold format_duration.
    assert ((s + 86400 * k =? 0) = false) as -> by (apply Z.eqb_neq; lia).
    assert ((s =? 0) = false) as -> by (apply Z.eqb_neq; lia).
    rewrite Hdiv, Hmod by lia.
    rewrite (Z.div_small s 86400), (Z.mod_small s 86400) by lia.
    assert ((999999999 <? Z.abs k) = false) as -> by (apply Z.ltb_ge; lia).
    reflexivity.
  - intros Hk0. unfold format_duration.
    assert ((86400 * k =? 0) = false) as -> by (apply Z.eqb_neq; lia).
    replace (86400 * k) with (0 + 86400 * k) by lia.
    rewrite Hdiv, Hmod by lia.
    assert ((999999999 <? Z.abs k) = false) as -> by (apply Z.ltb_ge; lia).
    reflexivity.
Qed.

Lemma format_duration_drops_days_at_one_day :
  (0 < 185 < 86400 /\ -999999999 <= 1 <= 999999999)
  /\ format_duration (Some (185 + 86400 * 1)) = format_duration (Some 185)
  /\ (1 <> 0 -> format_duration (Some (86400 * 1)) = Ok (lit "0:00"))
  /\ format_duration (Some 0) = Ok [].
Proof.
  split; [lia|].
  exact (format_duration_drops_days 185 1 ltac:(lia) ltac:(lia)).
Defined.

(** *** Buttons and what they select *)

Lemma keyboard_lookup (vs : list video) :
  forall (number : Z) (i : nat) (b : button),
    keyboard number vs !! i = Some b ->
    exists v title,
      vs !! i = Some v
      /\ v_title v = Some title
      /\ b = button_for (number + Z.of_nat i) title (v_duration v).
Proof.
  induction vs as [|v vs IH]; intros number i b H; [done|].
  cbn [keyboard] in H. destruct (v_title v) as [title|] eqn:Hv; [|done].
  destruct i as [|i].
  - injection H as <-. exists v, title. split; [done|]. split; [done|].
    f_equal. lia.
  - destruct (IH (number + 1) i b H) as (v' & title' & Hv' & Htitle' & ->).
    exists v', title'. split; [done|]. split; [done|]. f_equal. lia.
Qed.

(** X23. The button in row [i] of the keyboard made for a list of
    results carries the number [i + 1] and the title and duration of the
    result in place [i], and the index in its callback data resolves, by
    the indexing of the button handler, to that same result. *)
Theorem button_selects_its_video (vs : list video) (i : nat) (b : button) :
  keyboard 1 vs !! i = Some b ->
  exists v title,
    vs !! i = Some v
    /\ list_index vs (b_callback b) = Ok v
    /\ b_number b = Z.of_nat i + 1
    /\ v_title v = Some title
    /\ b_title b = slice_to 35 title
                   ++ (if (35 <? length title)%nat then [ELLIPSIS] else [])
    /\ b_duration b = v_duration v.
Proof.
  intros Hb.
  destruct (keyboard_lookup vs 1 i b Hb) as (v & title & Hv & Htitle & ->).
  exists v, title. split; [exact Hv|].
  cbn [button_for b_callback b_number b_title b_duration].
  split; [|split; [lia | split; [exact Htitle | split; reflexivity]]].
  destruct (list_index_in_range vs (1 + Z.of_nat i - 1)) as (a & Ha & Hidx).
  { apply lookup_lt_Some in Hv. lia. }
  rewrite Hidx. f_equal.
  replace (Z.to_nat (1 + Z.of_nat i - 1)) with i in Ha by lia. congruence.
Qed.

Lemma button_selects_its_video_second_row :
  let vs := [song "abc" "First"; song "xyz" "Last"] in
  let b := button_for 2 (lit "Last") (lit "3:05") in
  keyboard 1 vs !! 1%nat = Some b
  /\ exists v title,
       vs !! 1%nat = Some v
       /\ list_index vs (b_callback b) = Ok v
       /\ b_number b = Z.of_nat 1 + 1
       /\ v_title v = Some title
       /\ b_title b = slice_to 35 title
                      ++ (if (35 <? length title)%nat then [ELLIPSIS] else [])
       /\ b_duration b = v_duration v.
Proof.
  split; [reflexivity|].
  exact (button_selects_its_video [song "abc" "First"; song "xyz" "Last"]
           1%nat (button_for 2 (lit "Last") (lit "3:05")) eq_refl).
Defined.

(** *** [clean_filename] *)

Lemma allowed_scripts (is_word : N -> bool) (c : N) :
  is_khmer c || is_cjk c = true -> allowed_char is_word c = true.
Proof.
  intros H. unfold allowed_char.
  apply orb_true_iff in H as [H|H]; rewrite H; by rewrite ?orb_true_r.
Qed.

(** X24. Whatever the table of word characters, [clean_filename] returns
    at most 100 characters, each of them a word character, whitespace,
    one of the seven punctuation marks, Khmer or a CJK ideograph, and not
    beginning with whitespace; a title made of Khmer letters and CJK
    ideographs only comes back as its first 100 characters. *)
Theorem clean_filename_shape (is_word : N -> bool) (title : str) :
  let r := clean_filename is_word title in
  (length r <= 100)%nat
  /\ Forall (fun c => allowed_char is_word c = true) r
  /\ (forall c, head r = Some c -> isspace c = false)
  /\ (forallb (fun c => is_khmer c || is_cjk c) title = true ->
      r = slice_to 100 title).
Proof.
  cbn zeta. unfold clean_filename, slice_to.
  split; [rewrite length_take; lia|]. split; [|split].
  - apply Forall_take, Forall_strip.
    eapply Forall_impl; [apply Forall_sub_class_empty|].
    intros c Hc. cbn beta in Hc. by apply negb_false_iff in Hc.
  - intros c Hc. apply (head_strip (sub_class_empty
                                      (fun c => negb (allowed_char is_word c))
                                      title)).
    destruct (strip _) as [|d s]; [done|]. exact Hc.
  - intros Hscripts. f_equal.
    assert (Hkept : forallb kept_char title = true).
    { rewrite forallb_forall in Hscripts |- *. intros c Hc.
      specialize (Hscripts c Hc).
      apply orb_true_iff in Hscripts as [H|H];
        [by apply is_khmer_kept | by apply is_cjk_kept]. }
    rewrite sub_class_empty_id.
    + unfold strip, rstrip. rewrite (lstrip_kept title Hkept).
      rewrite (lstrip_kept (reverse title) (forallb_reverse _ title Hkept)).
      apply reverse_involutive.
    + rewrite forallb_forall in Hscripts. apply Forall_forall.
      intros c Hc. apply negb_false_iff, allowed_scripts, Hscripts.
      by apply list_elem_of_In.
Qed.


(** *** Handlers that run in turns *)

Section Turns.

Variable Q : forall X, eff X -> Prop.
Variable E : env.
Variable R : world -> world -> Prop.
Hypothesis R_refl : forall w, R w w.
Hypothesis R_trans : forall w1 w2 w3, R w1 w2 -> R w2 w3 -> R w1 w3.
Hypothesis R_step :
  forall (u : user) X (c : eff X) w, Q X c -> R w (snd (perform E u c w)).

Lemma advance_only_calls (u : user) (p : prog unit) :
  only_calls Q p ->
  forall w, R w (snd (advance E u p w))
            /\ thread_only_calls Q (fst (advance E u p w)).
Proof.
  induction p as [a|e|X c k IH]; intros Hp w; cbn [advance]; try by split.
  destruct Hp as [Hc Hk]. pose proof (R_step u X c w Hc) as Hstep.
  destruct (perform E u c w) as [r w']. cbn [snd] in Hstep.
  destruct (is_await c).
  - split; [exact Hstep | apply Hk].
  - destruct (IH r (Hk r) w') as [HR Ht].
    split; [by apply (R_trans w w') | exact Ht].
Qed.

Lemma resume_only_calls (i : nat) (pool : list thread) (w : world) :
  Forall (thread_only_calls Q) pool ->
  R w (snd (resume E i (pool, w)))
  /\ Forall (thread_only_calls Q) (fst (resume E i (pool, w))).
Proof.
  intros Hpool. unfold resume.
  destruct (pool !! i) as [[u p|u r]|] eqn:Hi; try by split.
  pose proof (Forall_lookup_1 _ _ _ _ Hpool Hi) as Hp.
  destruct (advance_only_calls u p Hp w) as [HR Ht].
  destruct (advance E u p w) as [t w']. cbn [fst snd] in *.
  split; [exact HR | by apply Forall_insert].
Qed.

Lemma interleave_only_calls (order : list nat) :
  forall (pool : list thread) (w : world),
    Forall (thread_only_calls Q) pool ->
    R w (snd (interleave E order (pool, w))).
Proof.
  unfold interleave.
  induction order as [|i order IH]; intros pool w Hpool; [apply R_refl|].
  cbn [foldl].
  destruct (resume_only_calls i pool w Hpool) as [HR Hpool'].
  destruct (resume E i (pool, w)) as [pool' w']. cbn [fst snd] in *.
  apply (R_trans w w'); [exact HR | by apply IH].
Qed.

End Turns.

(** X25. However the event loop takes turns between handlers: selections
    alone never change the stored result list of any user, and every
    audio they send carries tags within the limits; searches alone never
    change the download directory and never call [ydl.download]. *)
Theorem handlers_in_turns_frame (E : env) (order : list nat) (w : world) :
  (forall picks : list (user * Z),
     let w' := snd (interleave E order (map selection picks, w)) in
     user_data w' = user_data w /\ continues audio_ok w w')
  /\ (forall texts : list (user * option str),
        let w' := snd (interleave E order (map search texts, w)) in
        files w' = files w /\ fetches (trace w') = fetches (trace w)).
Proof.
  split.
  - intros picks. cbn zeta.
    apply (interleave_only_calls
             (fun X c => leaves_user_data c /\ sends_ok c) E
             (fun w w' => user_data w' = user_data w
                          /\ continues audio_ok w w')).
    + intros w0. split; [done | apply continues_refl].
    + intros w1 w2 w3 [H1 H1'] [H2 H2']. split; [congruence|].
      by apply (continues_trans _ w1 w2 w3).
    + intros u X c w0 [Hc Hc']. split;
        [by apply perform_leaves_user_data | by apply perform_sends_ok].
    + apply Forall_forall. intros t Ht.
      apply list_elem_of_fmap in Ht as ([u index] & -> & _).
      cbn [selection thread_only_calls fst snd].
      apply button_callback_only_calls; try done.
      intros audio title artist. split; [done | apply tags_ok_send_audio].
  - intros texts. cbn zeta.
    apply (interleave_only_calls (fun X c => leaves_files c) E
             (fun w w' => files w' = files w
                          /\ fetches (trace w') = fetches (trace w))).
    + done.
    + intros w1 w2 w3 [H1 H2] [H3 H4]. split; congruence.
    + intros u X c w0 Hc. by apply perform_leaves_files.
    + apply Forall_forall. intros t Ht.
      apply list_elem_of_fmap in Ht as ([u text] & -> & _).
      cbn [search thread_only_calls fst snd].
      by apply search_only_calls.
Qed.


(** *** Searches that run in turns *)

Lemma search_and_show_results_unfold (t : str) :
  search_and_show_results (Some t)
  = if negb (truthy t) then Ret tt
    else if (length (strip t) <? 2)%nat
         then call (ReplyText MinLength);; Ret tt
         else searching_msg <- call (ReplyText (Searching (strip t)));;
              search_after_notice (strip t) searching_msg.
Proof. reflexivity. Qed.

Section Atomic.

Variable E : env.
Variable u : user.

(** A part of a handler without awaited requests runs in one turn. *)
Lemma advance_try_bind {A} (p : prog A) (f : A -> prog unit)
    (h : exn -> prog unit) :
  only_calls (fun X c => is_await c = false) p ->
  forall w,
    advance E u (try_except (bind p f) h) w
    = match run E u p w with
      | (Ok a, w') => advance E u (try_except (f a) h) w'
      | (Raise e, w') => advance E u (h e) w'
      end.
Proof.
  induction p as [a|e|X c k IH]; intros Hp w; try reflexivity.
  destruct Hp as [Hc Hk]. cbn [bind try_except advance run]. rewrite Hc.
  destruct (perform E u c w) as [r w']. by apply IH.
Qed.

Lemma advance_leaves_user_data (p : prog unit) (w : world) :
  only_calls (fun X c => leaves_user_data c) p ->
  user_data (snd (advance E u p w)) = user_data w
  /\ search_thread_state (fst (advance E u p w)).
Proof.
  intros Hp.
  destruct (advance_only_calls (fun X c => leaves_user_data c) E
              (fun w w' => user_data w' = user_data w)
              ltac:(done) ltac:(intros; congruence)
              ltac:(intros; by apply perform_leaves_user_data) u p Hp w)
    as [HR Ht].
  split; [exact HR|].
  destruct (advance E u p w) as [[u' p'|u' r] w']; [|done].
  right. right. exact Ht.
Qed.

Lemma edit_leaves_user_data (m : message_id) (t : notice) (kb : list button)
    (h : exn -> prog unit) :
  (forall e, only_calls (fun X c => leaves_user_data c) (h e)) ->
  only_calls (fun X c => leaves_user_data c)
    (try_except (call (EditText m t kb)) h).
Proof. intros Hh. apply only_calls_try_except; [by apply only_calls_call | exact Hh]. Qed.

(** The turn that starts at the [try] statement takes the handler past
    the loop: it leaves the stored lists alone, or it has stored for the
    user what the loop made of the reply to its one query. *)
Lemma advance_search_after_notice (query : str) (m : message_id) (w : world) :
  let st := advance E u (search_after_notice query m) w in
  search_thread_state (fst st)
  /\ (user_data (snd st) = user_data w
      \/ exists es new,
           search_reply E (n_search w) = Ok (Some {| entries := Some es |})
           /\ user_data (snd st) = <[u := new]> (user_data w)
           /\ new `prefix_of` surfaced es
           /\ (forallb presentable es = true -> new = surfaced es)).
Proof.
  cbn zeta. unfold search_after_notice. cbn zeta.
  assert (Hh : forall e : exn,
             only_calls (fun X c => leaves_user_data c)
               (call (EditText m SearchError [])))
    by (intros _; by apply only_calls_call).
  assert (Hquiet : forall (p : prog unit) w0,
             only_calls (fun X c => leaves_user_data c) p ->
             user_data w0 = user_data w ->
             search_thread_state (fst (advance E u p w0))
             /\ (user_data (snd (advance E u p w0)) = user_data w
                 \/ exists es new,
                      search_reply E (n_search w)
                      = Ok (Some {| entries := Some es |})
                      /\ user_data (snd (advance E u p w0))
                         = <[u := new]> (user_data w)
                      /\ new `prefix_of` surfaced es
                      /\ (forallb presentable es = true -> new = surfaced es))).
  { intros p w0 Hp Hw0.
    destruct (advance_leaves_user_data p w0 Hp) as [Hud Hst].
    split; [exact Hst|]. left. congruence. }
  rewrite advance_try_bind by (by apply only_calls_call).
  rewrite run_call. cbn [perform].
  set (w2 := log (Searched u _) (tick_search w)).
  destruct (search_reply E (n_search w)) as [[[[es|]]|]|e] eqn:Hreply;
    try (apply Hquiet; [by apply only_calls_call | reflexivity]).
  - (* a reply with entries *)
    rewrite advance_try_bind by exact I. cbn [run entries].
    change (default [] (Some es)) with es.
    destruct es as [|e0 es'].
    { apply Hquiet; [by apply edit_leaves_user_data | reflexivity]. }
    set (es := e0 :: es') in *.
    rewrite advance_try_bind by (by apply only_calls_call).
    rewrite run_call. cbn [perform].
    set (w3 := set_user_data _ w2).
    rewrite advance_try_bind
      by (by apply results_loop_only_calls).
    destruct (run_results_loop E u es
                {| text := []; buttons := []; valid_count := 0 |} w3 [] 9)
      as (new & Hw & Hpre & Hres).
    { subst w3. cbn [user_data set_user_data]. apply lookup_insert_eq. }
    { reflexivity. }
    destruct (run E u (results_loop es _) w3) as [res w4].
    cbn [fst snd] in Hw, Hres. cbn [app] in Hw.
    assert (Hud4 : user_data w4 = <[u := new]> (user_data w)).
    { rewrite Hw. subst w3 w2. cbn [user_data set_user_data log tick_search].
      by rewrite insert_insert_eq. }
    assert (Hnew : forallb presentable es = true -> new = surfaced es).
    { intros Hfmt. destruct res as [st'|e]; [by destruct Hres|].
      destruct Hres as [_ Hbad]. congruence. }
    assert (Hstored : forall (p : prog unit),
               only_calls (fun X c => leaves_user_data c) p ->
               search_thread_state (fst (advance E u p w4))
               /\ (user_data (snd (advance E u p w4)) = user_data w
                   \/ exists es0 new0,
                        Ok (Some {| entries := Some es |})
                        = Ok (Some {| entries := Some es0 |})
                        /\ user_data (snd (advance E u p w4))
                           = <[u := new0]> (user_data w)
                        /\ new0 `prefix_of` surfaced es0
                        /\ (forallb presentable es0 = true -> new0 = surfaced es0))).
    { intros p Hp.
      destruct (advance_leaves_user_data p w4 Hp) as [Hud Hst].
      split; [exact Hst|]. right. exists es, new.
      split; [reflexivity|]. split; [congruence|]. by split. }
    destruct res as [st'|e].
    + apply Hstored.
      destruct (valid_count st' =? 0); by apply edit_leaves_user_data.
    + apply Hstored. by apply only_calls_call.
  - (* a reply without the key *)
    rewrite advance_try_bind by exact I. cbn [run entries].
    change (default [] None) with (@nil (option entry)). cbv iota.
    apply Hquiet; [by apply edit_leaves_user_data | reflexivity].
Qed.

(** The first turn of the handler: it writes no list. *)
Lemma advance_search (message_text : option str) (w : world) :
  let st := advance E u (search_and_show_results message_text) w in
  search_thread_state (fst st) /\ user_data (snd st) = user_data w.
Proof.
  cbn zeta. destruct message_text as [t|]; [|by split].
  rewrite search_and_show_results_unfold.
  destruct (negb (truthy t)); [by split|].
  destruct (length (strip t) <? 2)%nat.
  - cbn [call bind advance perform is_await]. unfold request.
    destruct (api_fault E (n_api (fresh_message w)));
      cbn [fst snd user_data log tick_api fresh_message];
      (split; [right; right; exact I | reflexivity]).
  - cbn [call bind advance perform is_await]. unfold request.
    destruct (api_fault E (n_api (fresh_message w)));
      cbn [fst snd user_data log tick_api fresh_message bind
           search_thread_state]; (split; [|reflexivity]).
    + right. right. exact I.
    + right. left. by eexists _, _.
Qed.

End Atomic.

Lemma from_one_search_step (E : env) (u : user) (w0 w w' : world) :
  (forall u', from_one_search E (user_data w0 !! u') (user_data w !! u')) ->
  (user_data w' = user_data w
   \/ exists es new,
        search_reply E (n_search w) = Ok (Some {| entries := Some es |})
        /\ user_data w' = <[u := new]> (user_data w)
        /\ new `prefix_of` surfaced es
        /\ (forallb presentable es = true -> new = surfaced es)) ->
  forall u', from_one_search E (user_data w0 !! u') (user_data w' !! u').
Proof.
  intros Hinv [Hsame | (es & new & Hreply & Hud & Hpre & Hfull)] u'.
  - rewrite Hsame. apply Hinv.
  - rewrite Hud. destruct (decide (u' = u)) as [->|Hne].
    + rewrite lookup_insert_eq. right. exists (n_search w), es, new.
      by repeat split.
    + rewrite lookup_insert_ne by done. apply Hinv.
Qed.

Lemma resume_search (E : env) (i : nat) (pool : list thread) (w0 w : world) :
  Forall search_thread_state pool ->
  (forall u, from_one_search E (user_data w0 !! u) (user_data w !! u)) ->
  Forall search_thread_state (fst (resume E i (pool, w)))
  /\ forall u, from_one_search E (user_data w0 !! u)
                 (user_data (snd (resume E i (pool, w))) !! u).
Proof.
  intros Hpool Hinv. unfold resume.
  destruct (pool !! i) as [[u p|u r]|] eqn:Hi; try by split.
  pose proof (Forall_lookup_1 _ _ _ _ Hpool Hi) as Hp.
  cbn [search_thread_state] in Hp.
  assert (Hadv : search_thread_state (fst (advance E u p w))
                 /\ (user_data (snd (advance E u p w)) = user_data w
                     \/ exists es new,
                          search_reply E (n_search w)
                          = Ok (Some {| entries := Some es |})
                          /\ user_data (snd (advance E u p w))
                             = <[u := new]> (user_data w)
                          /\ new `prefix_of` surfaced es
                          /\ (forallb presentable es = true
                              -> new = surfaced es))).
  { destruct Hp as [[text ->] | [(query & m & ->) | Hp]].
    - destruct (advance_search E u text w) as [Hst Hud]. by split; [|left].
    - apply advance_search_after_notice.
    - destruct (advance_leaves_user_data E u p w Hp) as [Hud Hst].
      by split; [|left]. }
  destruct Hadv as [Hst Hstep].
  pose proof (from_one_search_step E u w0 w _ Hinv Hstep) as Hinv'.
  destruct (advance E u p w) as [t w']. cbn [fst snd] in *.
  split; [by apply Forall_insert | exact Hinv'].
Qed.

(** X26. Between its query to the index and its final edit the search
    handler awaits nothing, so the list it stores is written in one turn.
    However the event loop takes turns between any searches of any users,
    the list stored for a user afterwards is the one stored before, or
    what one search made of one reply of the index: a prefix of the
    filtered result list of that reply, and all of it when the durations
    can be formatted. Results of two searches are never mixed. *)
Theorem searches_in_turns_do_not_mix (E : env) (order : list nat)
    (texts : list (user * option str)) (w : world) (u : user) :
  from_one_search E (user_data w !! u)
    (user_data (snd (interleave E order (map search texts, w))) !! u).
Proof.
  assert (H : forall order pool w',
             Forall search_thread_state pool ->
             (forall u, from_one_search E (user_data w !! u)
                          (user_data w' !! u)) ->
             forall u, from_one_search E (user_data w !! u)
                         (user_data (snd (interleave E order (pool, w'))) !! u)).
  { clear order u. unfold interleave.
    induction order as [|i order IH]; intros pool w' Hpool Hinv; [exact Hinv|].
    cbn [foldl].
    destruct (resume_search E i pool w w' Hpool Hinv) as [Hpool' Hinv'].
    destruct (resume E i (pool, w')) as [pool' w'']. cbn [fst snd] in *.
    by apply IH. }
  apply H.
  - apply Forall_forall. intros t Ht.
    apply list_elem_of_fmap in Ht as ([u' text] & -> & _).
    left. by eexists.
  - intros u'. by left.
Qed.


(** *** Every search is answered *)

(** X27. When Telegram takes the two requests, a search of at least two
    characters always ends normally, whatever the index does: it has
    asked the index once, and it has replaced its own notice by one of
    the three texts without a keyboard, or by the list of results with
    one button for each; in the latter case the results shown are the
    ones stored for the user. *)
Theorem search_always_answers (E : env) (u : user) (t : str) (w : world) :
  truthy t = true ->
  (2 <= length (strip t))%nat ->
  api_fault E (n_api w) = false ->
  api_fault E (S (n_api w)) = false ->
  let query := strip t in
  let r := run E u (search_and_show_results (Some t)) w in
  fst r = Ok tt
  /\ n_search (snd r) = S (n_search w)
  /\ exists answer kb,
       trace (snd r)
       = trace w
         ++ [TextSent u (next_message w) (Searching query);
             Searched u (if existsb is_cjk query then query ++ CJK_HINT
                         else query);
             TextEdited u (next_message w) answer kb]
       /\ ((kb = []
            /\ (answer = NoResults \/ answer = AllRestricted
                \/ answer = SearchError))
           \/ exists shown,
                shown <> []
                /\ answer = SearchResults shown (Z.of_nat (length shown))
                /\ kb = keyboard 1 shown
                /\ length kb = length shown
                /\ user_data (snd r) !! u = Some shown).
Proof.
  intros Ht Hlen Hapi Hapi1. cbn zeta.
  unfold search_and_show_results. rewrite Ht. cbn [negb].
  assert ((length (strip t) <? 2)%nat = false) as -> by (apply Nat.ltb_ge; lia).
  rewrite run_bind, run_call. cbn [perform]. unfold request.
  cbn [n_api fresh_message]. rewrite Hapi.
  rewrite run_try_except, run_bind, run_call. cbn [perform].
  cbn [n_search log tick_api fresh_message].
  set (w2 := log (Searched u _) _).
  assert (Hedit : forall answer kb w0,
             n_api w0 = S (n_api w) ->
             run E u (call (EditText (next_message w) answer kb)) w0
             = (Ok tt,
                log (TextEdited u (next_message w) answer kb) (tick_api w0))).
  { intros answer kb w0 Hn. by rewrite run_edit, Hn, Hapi1. }
  assert (Hfinal : forall answer kb w0,
             n_search w0 = S (n_search w) ->
             trace w0 = trace w2 ->
             (kb = []
              /\ (answer = NoResults \/ answer = AllRestricted
                  \/ answer = SearchError))
             \/ (exists shown,
                   shown <> []
                   /\ answer = SearchResults shown (Z.of_nat (length shown))
                   /\ kb = keyboard 1 shown
                   /\ length kb = length shown
                   /\ user_data w0 !! u = Some shown) ->
             let r := (Ok tt,
                       log (TextEdited u (next_message w) answer kb)
                         (tick_api w0)) in
             fst r = Ok tt
             /\ n_search (snd r) = S (n_search w)
             /\ exists answer kb,
                  trace (snd r)
                  = trace w
                    ++ [TextSent u (next_message w) (Searching (strip t));
                        Searched u (if existsb is_cjk (strip t)
                                    then strip t ++ CJK_HINT else strip t);
                        TextEdited u (next_message w) answer kb]
                  /\ ((kb = []
                       /\ (answer = NoResults \/ answer = AllRestricted
                           \/ answer = SearchError))
                      \/ exists shown,
                           shown <> []
                           /\ answer
                              = SearchResults shown (Z.of_nat (length shown))
                           /\ kb = keyboard 1 shown
                           /\ length kb = length shown
                           /\ user_data (snd r) !! u = Some shown)).
  { intros answer kb w0 Hs Htr Hanswer. cbn zeta.
    cbn [fst snd n_search trace user_data log tick_api]. rewrite Htr.
    split; [done|]. split; [done|]. exists answer, kb.
    split; [|exact Hanswer]. subst w2.
    cbn [trace log tick_search tick_api fresh_message].
    by rewrite <- !app_assoc. }
  destruct (search_reply E (n_search w)) as [[[[es|]]|]|e] eqn:Hreply.
  - rewrite run_bind. cbn [run entries]. change (default [] (Some es)) with es.
    destruct es as [|e0 es'].
    { rewrite Hedit by reflexivity. apply Hfinal; auto. }
    set (es := e0 :: es') in *.
    rewrite run_bind, run_call. cbn [perform].
    set (w3 := set_user_data _ w2).
    rewrite run_bind.
    destruct (run_results_loop E u es
                {| text := []; buttons := []; valid_count := 0 |} w3 [] 9)
      as (new & Hw & Hpre & Hres).
    { subst w3. cbn [user_data set_user_data]. apply lookup_insert_eq. }
    { reflexivity. }
    destruct (run E u (results_loop es _) w3) as [res w4].
    cbn [fst snd] in Hw, Hres. cbn [app] in Hw.
    assert (Hn4 : n_api w4 = S (n_api w)) by (by rewrite Hw).
    assert (Hs4 : n_search w4 = S (n_search w)) by (by rewrite Hw).
    assert (Htr4 : trace w4 = trace w2) by (by rewrite Hw).
    destruct res as [st'|e];
      [|rewrite Hedit by exact Hn4; apply Hfinal; auto].
    destruct Hres as (_ & Htitles & ->). cbn [text buttons valid_count app].
    destruct (0 + Z.of_nat (length new) =? 0) eqn:Hzero;
      rewrite Hedit by exact Hn4; apply Hfinal; auto.
    right. exists new. split; [|split; [|split; [|split]]].
    + intros ->. done.
    + reflexivity.
    + reflexivity.
    + by apply keyboard_length.
    + rewrite Hw. cbn [user_data set_user_data]. apply lookup_insert_eq.
  - rewrite run_bind. cbn [run entries].
    change (default [] None) with (@nil (option entry)). cbv iota.
    rewrite Hedit by reflexivity. apply Hfinal; auto.
  - rewrite run_bind. cbn [run].
    rewrite Hedit by reflexivity. apply Hfinal; auto.
  - rewrite Hedit by reflexivity. apply Hfinal; auto.
Qed.


Lemma search_always_answers_hello :
  let r := run calm 7 (search_and_show_results (Some (lit "hello")))
             (started ∅) in
  (2 <= length (strip (lit "hello")))%nat
  /\ fst r = Ok tt
  /\ n_search (snd r) = S (n_search (started ∅))
  /\ exists answer kb,
       trace (snd r)
       = trace (started ∅)
         ++ [TextSent 7 (next_message (started ∅))
               (Searching (strip (lit "hello")));
             Searched 7 (if existsb is_cjk (strip (lit "hello"))
                         then strip (lit "hello") ++ CJK_HINT
                         else strip (lit "hello"));
             TextEdited 7 (next_message (started ∅)) answer kb]
       /\ ((kb = []
            /\ (answer = NoResults \/ answer = AllRestricted
                \/ answer = SearchError))
           \/ exists shown,
                shown <> []
                /\ answer = SearchResults shown (Z.of_nat (length shown))
                /\ kb = keyboard 1 shown
                /\ length kb = length shown
                /\ user_data (snd r) !! 7 = Some shown).
Proof.
  split; [vm_compute; lia|].
  exact (search_always_answers calm 7 (lit "hello") (started ∅)
           eq_refl ltac:(vm_compute; lia) eq_refl eq_refl).
Defined.

End BotMoreProofs.

(** ** The model on concrete inputs *)

Module Checks.

Import Py Bot Scenario BotScenario.
Local Open Scope Z_scope.

Example format_duration_values :
  format_duration (Some 185) = Ok (lit "3:05")
  /\ format_duration (Some 3725) = Ok (lit "1:02:05")
  /\ format_duration (Some 59) = Ok (lit "0:59")
  /\ format_duration (Some 90061) = Ok (lit "1:01:01")
  /\ format_duration (Some 0) = Ok []
  /\ format_duration None = Ok []
  /\ format_duration (Some (86400 * 1000000000)) = Raise OverflowError.
Proof. vm_compute. repeat split. Qed.

Example safe_title_filename_values :
  safe_title_filename (lit "AC/DC: Back  in   Black?") = lit "ACDC Back in Black"
  /\ safe_title_filename (lit "  <hello>  ") = lit "hello"
  /\ safe_title_filename (lit "") = lit "audio"
  /\ safe_title_filename (lit " ?? ") = lit "audio"
  /\ safe_title_filename [0x3000; 0x4F60; 0x597D; 0xA0]%N = [0x4F60; 0x597D]%N
  /\ length (safe_title_filename (replicate 200 97%N)) = 80%nat.
Proof. vm_compute. repeat split. Qed.

Example path_values :
  path_join (lit "downloads") (lit "abc.mp3") = lit "downloads/abc.mp3"
  /\ path_join (lit "downloads/") (lit "abc.mp3") = lit "downloads/abc.mp3"
  /\ path_join (lit "downloads") (lit "/abc.mp3") = lit "/abc.mp3"
  /\ dirname (lit "downloads/abc.mp3") = lit "downloads"
  /\ dirname (lit "downloads//abc.mp3") = lit "downloads"
  /\ dirname (lit "/abc.mp3") = lit "/"
  /\ dirname (lit "abc.mp3") = lit "".
Proof. vm_compute. repeat split. Qed.

Example list_index_values :
  list_index [10; 20; 30] 1 = Ok 20
  /\ list_index [10; 20; 30] (-1) = Ok 30
  /\ list_index [10; 20; 30] 3 = Raise IndexError
  /\ list_index [10; 20; 30] (-4) = Raise IndexError.
Proof. vm_compute. repeat split. Qed.

(** End-to-end scenario 1 of the specification: a query, three results,
    the first one selected, downloaded and delivered. *)
Example search_then_select :
  let E := answering (Some {| entries := Some [found "a1" "One";
                                                found "b2" "Two";
                                                found "c3" "Three"] |}) in
  let w1 := snd (run E 7 (search_and_show_results (Some (lit "sunset drive")))
                   (started ∅)) in
  let w2 := snd (run E 7 (button_callback 0) w1) in
  option_map (map v_id) (user_data w1 !! 7)
  = Some [lit "a1"; lit "b2"; lit "c3"]
  /\ fetches (trace w2) = 1%nat
  /\ audios 7 (trace w2)
     = [(lit "downloads/One.mp3",
         {| a_url := lit "https://youtu.be/a1"; a_serial := 0 |})].
Proof. vm_compute. repeat split. Qed.

(** Scenario 3: a query of one character never reaches the index. *)
Example short_query_rejected :
  let w1 := snd (run calm 7 (search_and_show_results (Some (lit " a ")))
                   (started ∅)) in
  trace w1 = [TextSent 7 0%nat MinLength].
Proof. vm_compute. reflexivity. Qed.

(** Scenario 4: only age-restricted entries; the notice differs from the
    one for an outage, and the stored list is now empty. *)
Example all_restricted :
  let restricted :=
    Some {| e_id := Some (lit "x"); e_title := None; e_uploader := None;
            e_duration := None; e_age_limit := Some (Some 18) |} in
  let E := answering (Some {| entries := Some [restricted; restricted] |}) in
  let w1 := snd (run E 7 (search_and_show_results (Some (lit "query")))
                   (started {[ 7 := [song "old" "Old Song"] ]})) in
  screen 7 (trace w1) [] = [(0%nat, AllRestricted)]
  /\ user_data w1 !! 7 = Some []
  /\ screen 7 (trace (snd (run calm 7 (search_and_show_results (Some (lit "query")))
                             (started ∅)))) []
     = [(0%nat, SearchError)].
Proof. vm_compute. repeat split. Qed.

(** Twelve good entries with a restricted one and one without id among
    them: ten are kept, in order, with the callback indices 0 to 9. *)
Example first_ten_kept :
  let good := found "id" "Title" in
  let restricted :=
    Some {| e_id := Some (lit "x"); e_title := None; e_uploader := None;
            e_duration := None; e_age_limit := Some (Some 21) |} in
  let no_id :=
    Some {| e_id := None; e_title := Some (Some (lit "t")); e_uploader := None;
            e_duration := Some 10; e_age_limit := Some (Some 0) |} in
  let es := [restricted; found "first" "A"; None; no_id] ++ replicate 11 good in
  let E := answering (Some {| entries := Some es |}) in
  let w1 := snd (run E 7 (search_and_show_results (Some (lit "query")))
                   (started ∅)) in
  option_map (map v_id) (user_data w1 !! 7)
  = Some (lit "first" :: replicate 9 (lit "id"))
  /\ match last (trace w1) with
     | Some (TextEdited _ _ (SearchResults shown found) kb) =>
         map v_id shown = lit "first" :: replicate 9 (lit "id")
         /\ found = 10 /\ map b_callback kb = [0; 1; 2; 3; 4; 5; 6; 7; 8; 9]
     | _ => False
     end.
Proof. vm_compute. repeat split. Qed.

(** When Telegram refuses the audio, the user is told so. *)
Example refused_audio_is_reported :
  let E := {| api_fault := fun n => Nat.eqb n 2;
              search_reply := fun _ => Raise DownloadError;
              download_result := fun _ => Downloaded;
              fs_fault := fun _ => None |} in
  let w1 := snd (run E 7 (button_callback 0)
                   (started {[ 7 := [song "abc" "My Song"] ]})) in
  audios 7 (trace w1) = []
  /\ screen 7 (trace w1) [] = [(1%nat, SendFailed)].
Proof. vm_compute. repeat split. Qed.

(** When the download raises, the user is told so. *)
Example failed_download_is_reported :
  let E := {| api_fault := fun _ => false;
              search_reply := fun _ => Raise DownloadError;
              download_result := fun _ => DownloadRaises;
              fs_fault := fun _ => None |} in
  let w1 := snd (run E 7 (button_callback 0)
                   (started {[ 7 := [song "abc" "My Song"] ]})) in
  screen 7 (trace w1) [] = [(0%nat, DownloadFailed)].
Proof. vm_compute. repeat split. Qed.

(** An entry whose age limit is [None], and one whose uploader is
    [None]: the first ends the search with the error text, the second is
    presented and is later sent without a performer. *)
Example none_in_entries :
  let ageless :=
    Some {| e_id := Some (lit "x"); e_title := Some (Some (lit "X"));
            e_uploader := None; e_duration := None; e_age_limit := Some None |} in
  let anonymous :=
    Some {| e_id := Some (lit "y"); e_title := Some (Some (lit "Y"));
            e_uploader := Some None; e_duration := None; e_age_limit := None |} in
  let E1 := answering (Some {| entries := Some [ageless] |}) in
  let E2 := answering (Some {| entries := Some [anonymous] |}) in
  let w1 := snd (run E1 7 (search_and_show_results (Some (lit "query")))
                   (started ∅)) in
  let w2 := snd (run E2 7 (search_and_show_results (Some (lit "query")))
                   (started ∅)) in
  let w3 := snd (run E2 7 (button_callback 0) w2) in
  screen 7 (trace w1) [] = [(0%nat, SearchError)]
  /\ user_data w1 !! 7 = Some []
  /\ option_map (map v_channel) (user_data w2 !! 7) = Some [None]
  /\ last (trace w3)
     = Some (Deleted 7 1%nat)
  /\ omap (fun ev => match ev with
                     | AudioSent _ _ _ title performer => Some (title, performer)
                     | _ => None
                     end) (trace w3)
     = [(lit "Y", None)].
Proof. vm_compute. repeat split. Qed.

(** A disk that is full after 100 bytes: the request fails, no track is
    stored, and the file stays with these 100 bytes. *)
Example full_disk_leaves_file :
  let r := MelodyAPI.generate_music ApiScenario.same ApiScenario.no_base64
             ApiScenario.no_text ApiScenario.five_seconds
             (ApiScenario.full_after "/tmp/tmpa.wav" 100)
             MelodyRoutes.initial in
  MelodyAPI.success (fst r) = false
  /\ MelodyAPI.generated_tracks (snd r) = ∅
  /\ MelodyAPI.track_counter (snd r) = 2
  /\ option_map length (MelodyAPI.tmp_files (snd r) !! lit "/tmp/tmpa.wav")
     = Some 100%nat.
Proof.
  cbn zeta.
  destruct (MelodyRoutesProofs.generate_music_write_fails
              ApiScenario.same ApiScenario.no_base64 ApiScenario.no_text
              ApiScenario.five_seconds
              (ApiScenario.full_after "/tmp/tmpa.wav" 100)
              MelodyRoutes.initial (lit "/tmp/tmpa.wav") OSError 100%nat)
    as (wav & Hwav & ->); [simpl; lia | reflexivity | reflexivity |].
  cbn [fst snd MelodyAPI.success MelodyAPI.generated_tracks
       MelodyAPI.track_counter MelodyAPI.tmp_files MelodyRoutes.initial
       MelodyAPI.error_response].
  split; [reflexivity|]. split; [reflexivity|]. split; [reflexivity|].
  rewrite lookup_insert_eq. cbn [option_map]. f_equal.
  destruct (MelodyRoutesProofs.generate_mock_audio_length
              (MelodyAPI.prompt ApiScenario.five_seconds)
              (MelodyAPI.duration ApiScenario.five_seconds))
    as (wav' & Hwav' & Hlen); [simpl; lia|].
  rewrite Hwav in Hwav'. injection Hwav' as <-.
  rewrite length_take. simpl in Hlen. lia.
Qed.

Example generate_title_values :
  let title := MelodyAPI.generate_title (fun s => s) in
  title (lit "a calm rainy evening in june") = lit "a calm rainy..."
  /\ title (lit "  two   words ") = lit "two words"
  /\ title (lit "   ") = lit "AI Generated Track".
Proof. vm_compute. repeat split. Qed.

End Checks.
